(** * EcoGuard: the cleanup task engine

    A shallow embedding of [models/cleanup.py] (the [CleanupManager] and
    the storage forms of [CleanupReport] and [CleanupTeam]),
    [models/report.py] (the [Report] record) and of the three request
    handlers of [routes/cleanup.py] that write the task and team
    collections ([assign_team], [verify_cleanup], [mark_completed]).

    The engine stores two JSON files, each a list of dictionaries with the
    keys written by [to_dict].  Those dictionaries are used as structs, so
    the engine is modelled over records; the storage round trip itself
    ([to_dict] / [from_dict]) is modelled over key/value dictionaries in
    [Module Storage].

    Beside the engine the development covers the books the handlers keep
    with it: the report book of [models/report.py] ([Module Reports]),
    the rewards ledger of [models/rewards.py] ([Module Rewards]), the
    point scale of [utils/analysis.py] ([Module PollutionAnalyzer]), the
    accounts of [models/auth.py] and [routes/auth.py] ([Module Auth]),
    and the handlers of [routes/main.py] and [routes/cleanup.py] as they
    act on the three books together ([site], [serve], [visits]). *)

From Stdlib Require Import ZArith QArith Lia.
From stdpp Require Import base list strings pretty sorting.

Open Scope string_scope.
Open Scope list_scope.
Open Scope Z_scope.

(** ** Python values used by the engine *)

(** Truthiness of a value that is [None] or a [str]: [None] and the empty
    string are false. *)
Definition truthy (v : option string) : bool :=
  match v with
  | Some s => negb (String.eqb s "")
  | None => false
  end.

(** ["\n"] *)
Definition newline : string := String (Ascii.ascii_of_nat 10) EmptyString.

(** [str(n)] for an [int]. *)
Definition str_int (n : Z) : string := pretty n.

(** ** [CleanupStatus] *)

Module CleanupStatus.
Definition PENDING : string := "pending".
Definition IN_PROGRESS : string := "in_progress".
Definition CLEANED : string := "cleaned".
Definition VERIFIED : string := "verified".
End CleanupStatus.

(** ** The stored dictionaries *)

(** [Report.to_dict()]: the pollution report embedded in a cleanup task. *)
Record report := {
  filename : string;
  latitude : string;
  longitude : string;
  location_name : string;
  score : Z;
  analysis : string;
  reporter_name : string;
  reporter_email : string;
  points : Z;
  timestamp : string
}.

(** One result of [analyze_cleanup_verification]: the keys the handlers
    read. *)
Record analysis_result := {
  result_score : Z;
  result_analysis : string
}.

(** A cleanup task as stored in [cleanups.json]: the twelve keys of
    [CleanupReport.to_dict], and the two keys that [verify_cleanup] adds
    ([None] while the key is absent). *)
Record cleanup := {
  report_id : string;
  pollution_report : report;
  status : string;
  assigned_team : option string;
  assigned_date : option string;
  start_date : option string;
  completion_date : option string;
  cleanup_notes : string;
  verification_photos : list string;
  cleanup_points : Z;
  created_at : option string;
  updated_at : option string;
  verification_analysis : option (list analysis_result);
  cleanup_score : option Q
}.

(** A team as stored in [teams.json] ([CleanupTeam.to_dict]).  [rating] is
    a JSON number (the engine only ever writes 5.0), kept as its exact
    rational value; comparisons of finite floats and integers agree with
    those of their values. *)
Record team := {
  team_id : string;
  name : string;
  leader_email : string;
  members : list string;
  team_status : string;
  current_task : option string;
  total_cleanups : Z;
  total_points : Z;
  rating : Q;
  team_created_at : string;
  last_activity : string
}.

(** *** Item assignment [d[key] = value] *)

Definition set_status (v : string) (c : cleanup) : cleanup :=
  {| report_id := report_id c; pollution_report := pollution_report c;
     status := v; assigned_team := assigned_team c;
     assigned_date := assigned_date c; start_date := start_date c;
     completion_date := completion_date c; cleanup_notes := cleanup_notes c;
     verification_photos := verification_photos c;
     cleanup_points := cleanup_points c; created_at := created_at c;
     updated_at := updated_at c;
     verification_analysis := verification_analysis c;
     cleanup_score := cleanup_score c |}.

Definition set_assigned_team (v : option string) (c : cleanup) : cleanup :=
  {| report_id := report_id c; pollution_report := pollution_report c;
     status := status c; assigned_team := v;
     assigned_date := assigned_date c; start_date := start_date c;
     completion_date := completion_date c; cleanup_notes := cleanup_notes c;
     verification_photos := verification_photos c;
     cleanup_points := cleanup_points c; created_at := created_at c;
     updated_at := updated_at c;
     verification_analysis := verification_analysis c;
     cleanup_score := cleanup_score c |}.

Definition set_assigned_date (v : option string) (c : cleanup) : cleanup :=
  {| report_id := report_id c; pollution_report := pollution_report c;
     status := status c; assigned_team := assigned_team c;
     assigned_date := v; start_date := start_date c;
     completion_date := completion_date c; cleanup_notes := cleanup_notes c;
     verification_photos := verification_photos c;
     cleanup_points := cleanup_points c; created_at := created_at c;
     updated_at := updated_at c;
     verification_analysis := verification_analysis c;
     cleanup_score := cleanup_score c |}.

Definition set_start_date (v : option string) (c : cleanup) : cleanup :=
  {| report_id := report_id c; pollution_report := pollution_report c;
     status := status c; assigned_team := assigned_team c;
     assigned_date := assigned_date c; start_date := v;
     completion_date := completion_date c; cleanup_notes := cleanup_notes c;
     verification_photos := verification_photos c;
     cleanup_points := cleanup_points c; created_at := created_at c;
     updated_at := updated_at c;
     verification_analysis := verification_analysis c;
     cleanup_score := cleanup_score c |}.

Definition set_completion_date (v : option string) (c : cleanup) : cleanup :=
  {| report_id := report_id c; pollution_report := pollution_report c;
     status := status c; assigned_team := assigned_team c;
     assigned_date := assigned_date c; start_date := start_date c;
     completion_date := v; cleanup_notes := cleanup_notes c;
     verification_photos := verification_photos c;
     cleanup_points := cleanup_points c; created_at := created_at c;
     updated_at := updated_at c;
     verification_analysis := verification_analysis c;
     cleanup_score := cleanup_score c |}.

Definition set_cleanup_notes (v : string) (c : cleanup) : cleanup :=
  {| report_id := report_id c; pollution_report := pollution_report c;
     status := status c; assigned_team := assigned_team c;
     assigned_date := assigned_date c; start_date := start_date c;
     completion_date := completion_date c; cleanup_notes := v;
     verification_photos := verification_photos c;
     cleanup_points := cleanup_points c; created_at := created_at c;
     updated_at := updated_at c;
     verification_analysis := verification_analysis c;
     cleanup_score := cleanup_score c |}.

Definition set_verification_photos (v : list string) (c : cleanup) : cleanup :=
  {| report_id := report_id c; pollution_report := pollution_report c;
     status := status c; assigned_team := assigned_team c;
     assigned_date := assigned_date c; start_date := start_date c;
     completion_date := completion_date c; cleanup_notes := cleanup_notes c;
     verification_photos := v;
     cleanup_points := cleanup_points c; created_at := created_at c;
     updated_at := updated_at c;
     verification_analysis := verification_analysis c;
     cleanup_score := cleanup_score c |}.

Definition set_cleanup_points (v : Z) (c : cleanup) : cleanup :=
  {| report_id := report_id c; pollution_report := pollution_report c;
     status := status c; assigned_team := assigned_team c;
     assigned_date := assigned_date c; start_date := start_date c;
     completion_date := completion_date c; cleanup_notes := cleanup_notes c;
     verification_photos := verification_photos c;
     cleanup_points := v; created_at := created_at c;
     updated_at := updated_at c;
     verification_analysis := verification_analysis c;
     cleanup_score := cleanup_score c |}.

Definition set_updated_at (v : option string) (c : cleanup) : cleanup :=
  {| report_id := report_id c; pollution_report := pollution_report c;
     status := status c; assigned_team := assigned_team c;
     assigned_date := assigned_date c; start_date := start_date c;
     completion_date := completion_date c; cleanup_notes := cleanup_notes c;
     verification_photos := verification_photos c;
     cleanup_points := cleanup_points c; created_at := created_at c;
     updated_at := v;
     verification_analysis := verification_analysis c;
     cleanup_score := cleanup_score c |}.

Definition set_verification_analysis (v : option (list analysis_result))
    (c : cleanup) : cleanup :=
  {| report_id := report_id c; pollution_report := pollution_report c;
     status := status c; assigned_team := assigned_team c;
     assigned_date := assigned_date c; start_date := start_date c;
     completion_date := completion_date c; cleanup_notes := cleanup_notes c;
     verification_photos := verification_photos c;
     cleanup_points := cleanup_points c; created_at := created_at c;
     updated_at := updated_at c;
     verification_analysis := v;
     cleanup_score := cleanup_score c |}.

Definition set_cleanup_score (v : option Q) (c : cleanup) : cleanup :=
  {| report_id := report_id c; pollution_report := pollution_report c;
     status := status c; assigned_team := assigned_team c;
     assigned_date := assigned_date c; start_date := start_date c;
     completion_date := completion_date c; cleanup_notes := cleanup_notes c;
     verification_photos := verification_photos c;
     cleanup_points := cleanup_points c; created_at := created_at c;
     updated_at := updated_at c;
     verification_analysis := verification_analysis c;
     cleanup_score := v |}.

Definition set_team_status (v : string) (t : team) : team :=
  {| team_id := team_id t; name := name t; leader_email := leader_email t;
     members := members t; team_status := v; current_task := current_task t;
     total_cleanups := total_cleanups t; total_points := total_points t;
     rating := rating t; team_created_at := team_created_at t;
     last_activity := last_activity t |}.

Definition set_current_task (v : option string) (t : team) : team :=
  {| team_id := team_id t; name := name t; leader_email := leader_email t;
     members := members t; team_status := team_status t; current_task := v;
     total_cleanups := total_cleanups t; total_points := total_points t;
     rating := rating t; team_created_at := team_created_at t;
     last_activity := last_activity t |}.

Definition set_total_cleanups (v : Z) (t : team) : team :=
  {| team_id := team_id t; name := name t; leader_email := leader_email t;
     members := members t; team_status := team_status t;
     current_task := current_task t;
     total_cleanups := v; total_points := total_points t;
     rating := rating t; team_created_at := team_created_at t;
     last_activity := last_activity t |}.

Definition set_total_points (v : Z) (t : team) : team :=
  {| team_id := team_id t; name := name t; leader_email := leader_email t;
     members := members t; team_status := team_status t;
     current_task := current_task t;
     total_cleanups := total_cleanups t; total_points := v;
     rating := rating t; team_created_at := team_created_at t;
     last_activity := last_activity t |}.

Definition set_last_activity (v : string) (t : team) : team :=
  {| team_id := team_id t; name := name t; leader_email := leader_email t;
     members := members t; team_status := team_status t;
     current_task := current_task t;
     total_cleanups := total_cleanups t; total_points := total_points t;
     rating := rating t; team_created_at := team_created_at t;
     last_activity := v |}.

(** ** The environment of a call *)

(** One reading of [datetime.now()], in the two renderings the engine
    uses. *)
Record datetime := {
  isoformat : string;          (* .isoformat() *)
  strftime_compact : string    (* .strftime('%Y%m%d_%H%M%S') *)
}.

(** The clock of one call: [clk k] is what the call's [k]-th evaluation of
    [datetime.now()] returns (counting from 0). *)
Definition clock := nat → datetime.

Definition later (n : nat) (clk : clock) : clock := λ k, clk (n + k)%nat.

(** The external functions of [verify_cleanup]: werkzeug's
    [secure_filename], and the scoring service, given the stored file name
    (the handler passes its path under the upload folder). *)
Record collaborators := {
  secure_filename : string → string;
  analyze_cleanup_verification : string → analysis_result
}.

(** ** The two collections *)

Record world := {
  cleanups_file : list cleanup;
  teams_file : list team
}.

Definition load_cleanups (w : world) : list cleanup := cleanups_file w.
Definition load_teams (w : world) : list team := teams_file w.

Definition save_cleanups (cleanups : list cleanup) (w : world) : world :=
  {| cleanups_file := cleanups; teams_file := teams_file w |}.
Definition save_teams (teams : list team) (w : world) : world :=
  {| cleanups_file := cleanups_file w; teams_file := teams |}.

(** [next((c for c in cleanups if c["report_id"] == report_id), None)],
    with the position of the dictionary found: the code mutates that
    dictionary in place and saves the list. *)
Definition find_cleanup (rid : string) (cleanups : list cleanup)
    : option (nat * cleanup) :=
  list_find (λ c, report_id c = rid) cleanups.

(** [next((t for t in teams if t["team_id"] == team_id), None)] *)
Definition find_team (tid : string) (teams : list team)
    : option (nat * team) :=
  list_find (λ t, team_id t = tid) teams.

Notation "x |> f" := (f x) (at level 68, left associativity, only parsing).

(** ** [CleanupManager] *)

(** [_calculate_cleanup_points] *)
Definition _calculate_cleanup_points (c : cleanup) : Z :=
  let base_points := 25 in
  let severity_bonus := score (pollution_report c) `div` 10 in
  base_points + severity_bonus.

(** The sort key of [auto_assign_team]:
    [(t["rating"], t["total_cleanups"])]. *)
Definition team_key (t : team) : Q * Z := (rating t, total_cleanups t).

(** Python's [a > b] on such pairs: the first components decide unless
    they are [==]. *)
Definition key_gt (a b : Q * Z) : bool :=
  if Qeq_bool a.1 b.1 then b.2 <? a.2 else negb (Qle_bool a.1 b.1).

(** [max(items, key=...)]: the running maximum is replaced only by an item
    whose key is strictly greater, so the first maximal item wins. *)
Fixpoint max_from {A} (key : A → Q * Z) (best : A) (items : list A) : A :=
  match items with
  | [] => best
  | x :: rest =>
      max_from key (if key_gt (key x) (key best) then x else best) rest
  end.

Definition py_max {A} (key : A → Q * Z) (items : list A) : option A :=
  match items with
  | [] => None
  | x :: rest => Some (max_from key x rest)
  end.

(** [[t for t in teams if t["status"] == "available"]], each team with its
    position in [teams]. *)
Definition available_teams (teams : list team) : list (nat * team) :=
  filter (λ jt, team_status jt.2 = "available") (imap pair teams).

(** [CleanupReport(report_id, pollution_report).to_dict()] *)
Definition new_cleanup (clk : clock) (rid : string) (r : report) : cleanup :=
  {| report_id := rid; pollution_report := r;
     status := CleanupStatus.PENDING;
     assigned_team := None; assigned_date := None; start_date := None;
     completion_date := None; cleanup_notes := "";
     verification_photos := []; cleanup_points := 0;
     created_at := Some (isoformat (clk 0%nat));
     updated_at := Some (isoformat (clk 1%nat));
     verification_analysis := None; cleanup_score := None |}.

(** [CleanupTeam(team_id, name, leader_email, members).to_dict()];
    [members or []] is [members]. *)
Definition new_team (clk : clock) (tid nm leader : string)
    (mem : list string) : team :=
  {| team_id := tid; name := nm; leader_email := leader;
     members := match mem with [] => [] | _ => mem end;
     team_status := "available"; current_task := None;
     total_cleanups := 0; total_points := 0; rating := 5;
     team_created_at := isoformat (clk 0%nat);
     last_activity := isoformat (clk 1%nat) |}.

(** [auto_assign_team] *)
Definition auto_assign_team (clk : clock) (rid : string) (w : world)
    : option string * world :=
  let cleanups := load_cleanups w in
  let teams := load_teams w in
  match find_cleanup rid cleanups with
  | None => (None, w)
  | Some (i, cleanup) =>
      match py_max (λ jt, team_key jt.2) (available_teams teams) with
      | None => (None, w)
      | Some (j, best_team) =>
          let cleanup := cleanup
            |> set_assigned_team (Some (team_id best_team))
            |> set_assigned_date (Some (isoformat (clk 0%nat)))
            |> set_status CleanupStatus.IN_PROGRESS
            |> set_updated_at (Some (isoformat (clk 1%nat))) in
          let best_team := best_team
            |> set_team_status "busy"
            |> set_current_task (Some rid)
            |> set_last_activity (isoformat (clk 2%nat)) in
          (Some (team_id best_team),
           w |> save_cleanups (<[i:=cleanup]> cleanups)
             |> save_teams (<[j:=best_team]> teams))
      end
  end.

(** [f"cleanup_{datetime.now().strftime('%Y%m%d_%H%M%S')}_{rnd}"], and the
    same with ["team_"]. *)
Definition new_id (prefix : string) (clk : clock) (rnd : Z) : string :=
  prefix +:+ strftime_compact (clk 0%nat) +:+ "_" +:+ str_int rnd.

(** [create_cleanup_report]; [rnd] is the draw of
    [random.randint(1000, 9999)]. *)
Definition create_cleanup_report (clk : clock) (rnd : Z) (r : report)
    (w : world) : string * world :=
  let cleanups := load_cleanups w in
  let rid := new_id "cleanup_" clk rnd in
  let cleanup_report := new_cleanup (later 1 clk) rid r in
  let w := save_cleanups (cleanups ++ [cleanup_report]) w in
  let '(_, w) := auto_assign_team (later 3 clk) rid w in
  (rid, w).

(** [create_team]; [mem] is [None] when the argument is left out. *)
Definition create_team (clk : clock) (rnd : Z) (nm leader : string)
    (mem : option (list string)) (w : world) : string * world :=
  let teams := load_teams w in
  let tid := new_id "team_" clk rnd in
  let mem := match mem with
             | Some (m :: ms) => m :: ms
             | _ => [leader]
             end in
  let t := new_team (later 1 clk) tid nm leader mem in
  (tid, save_teams (teams ++ [t]) w).

(** The block under [# Free up the team], the same text in
    [update_cleanup_status] and [submit_cleanup_verification]; [now] is the
    clock reading of its last line. *)
Definition free_up_team (now : datetime) (cleanup : cleanup)
    (teams : list team) : list team :=
  match assigned_team cleanup with
  | Some tid =>
      if truthy (Some tid) then
        match find_team tid teams with
        | Some (j, t) =>
            <[j := t
              |> set_team_status "available"
              |> set_current_task None
              |> set_total_cleanups (total_cleanups t + 1)
              |> set_total_points (total_points t + cleanup_points cleanup)
              |> set_last_activity (isoformat now)]> teams
        | None => teams
        end
      else teams
  | None => teams
  end.

(** [update_cleanup_status]; [photos] is [None] when the argument is left
    out. *)
Definition update_cleanup_status (clk : clock) (rid st notes : string)
    (photos : option (list string)) (w : world) : bool * world :=
  let cleanups := load_cleanups w in
  let teams := load_teams w in
  match find_cleanup rid cleanups with
  | None => (false, w)
  | Some (i, cleanup) =>
      let cleanup := cleanup
        |> set_status st
        |> set_cleanup_notes notes
        |> set_updated_at (Some (isoformat (clk 0%nat))) in
      let cleanup :=
        match photos with
        | Some (p :: ps) =>
            set_verification_photos
              (verification_photos cleanup ++ p :: ps) cleanup
        | _ => cleanup
        end in
      let '(cleanup, teams) :=
        if String.eqb st CleanupStatus.IN_PROGRESS
           && negb (truthy (start_date cleanup))
        then (set_start_date (Some (isoformat (clk 1%nat))) cleanup, teams)
        else if String.eqb st CleanupStatus.CLEANED then
          let cleanup := cleanup
            |> set_completion_date (Some (isoformat (clk 1%nat))) in
          let cleanup := cleanup
            |> set_cleanup_points (_calculate_cleanup_points cleanup) in
          (cleanup, free_up_team (clk 2%nat) cleanup teams)
        else (* VERIFIED: [_award_reporter_points] is [pass] *)
          (cleanup, teams) in
      (true, w |> save_cleanups (<[i:=cleanup]> cleanups)
               |> save_teams teams)
  end.

(** The dictionary returned by [submit_cleanup_verification]; the keys
    ["status"], ["points_awarded"] and ["score"] are [None] when absent. *)
Record response := {
  success : bool;
  message : string;
  response_status : option string;
  points_awarded : option Z;
  response_score : option Z
}.

Definition reply (ok : bool) (msg : string) : response :=
  {| success := ok; message := msg; response_status := None;
     points_awarded := None; response_score := None |}.

(** The test under [# Verify team assignment]: [true] when the call is
    turned away. *)
Definition not_assigned_to (team_email : string) (cleanup : cleanup)
    (teams : list team) : bool :=
  match assigned_team cleanup with
  | Some tid =>
      truthy (Some tid) &&
      match find_team tid teams with
      | None => true
      | Some (_, t) => negb (bool_decide (team_email ∈ members t))
      end
  | None => false
  end.

(** [submit_cleanup_verification]; [cleanup_score] is [None] when the
    argument is left out. *)
Definition submit_cleanup_verification (clk : clock)
    (rid team_email notes : string) (photos : list string)
    (cleanup_score : option Z) (w : world) : response * world :=
  let cleanups := load_cleanups w in
  let teams := load_teams w in
  match find_cleanup rid cleanups with
  | None => (reply false "Cleanup report not found", w)
  | Some (i, cleanup) =>
      if not_assigned_to team_email cleanup teams then
        (reply false
           "Unauthorized: You are not assigned to this cleanup task", w)
      else
        let cleanup := cleanup
          |> set_cleanup_notes notes
          |> set_verification_photos photos
          |> set_updated_at (Some (isoformat (clk 0%nat))) in
        match cleanup_score with
        | Some sc =>
            if sc <=? 30 then
              let cleanup := cleanup
                |> set_status CleanupStatus.CLEANED
                |> set_completion_date (Some (isoformat (clk 1%nat))) in
              let cleanup := cleanup
                |> set_cleanup_points (_calculate_cleanup_points cleanup) in
              let teams := free_up_team (clk 2%nat) cleanup teams in
              ({| success := true;
                  message := "Cleanup verified successfully! Task completed.";
                  response_status := Some CleanupStatus.CLEANED;
                  points_awarded := Some (cleanup_points cleanup);
                  response_score := None |},
               w |> save_cleanups (<[i:=cleanup]> cleanups)
                 |> save_teams teams)
            else
              let cleanup := cleanup
                |> set_status CleanupStatus.IN_PROGRESS in
              let cleanup := cleanup
                |> set_cleanup_notes
                     (cleanup_notes cleanup +:+ newline
                      +:+ "[VERIFICATION FAILED] Score: " +:+ str_int sc
                      +:+ ". Cleanup incomplete, task continues.") in
              ({| success := false;
                  message := "Cleanup verification failed. Task continues.";
                  response_status := Some CleanupStatus.IN_PROGRESS;
                  points_awarded := None;
                  response_score := Some sc |},
               w |> save_cleanups (<[i:=cleanup]> cleanups))
        | None =>
            (reply true "Verification submitted successfully",
             w |> save_cleanups (<[i:=cleanup]> cleanups))
        end
  end.

(** ** The handlers of [routes/cleanup.py] that write the collections

    A handler answers with a flashed message and a redirect; the model
    keeps which message it was.  The rewards ledger that [verify_cleanup]
    and [mark_completed] credit lives in files of its own and is not part
    of [world]. *)

Inductive flashed :=
  | TeamSelectionRequired   (* "Team selection is required" *)
  | ReportOrTeamNotFound    (* "Report or team not found" *)
  | TeamNotAvailable        (* "Selected team is not available" *)
  | TeamAssigned            (* "Team '...' assigned successfully!" *)
  | ReportNotFound          (* "Cleanup report not found" *)
  | NoTeamAssigned          (* "No team assigned to this cleanup" *)
  | AssignedTeamNotFound    (* "Assigned team not found" *)
  | NotATeamMember          (* "Email must be a member of the assigned
                               cleanup team" *)
  | PhotoRequired           (* "At least one verification photo is
                               required" *)
  | VerificationSuccessful  (* "... Cleanup verification successful! ..." *)
  | StillNeedsWork          (* "... area still needs work ..." *)
  | NoResponse              (* the handler falls off its end *)
  | MarkedCompleted.        (* "... Cleanup marked as completed! ..." *)

(** [assign_team]; [tid] is [request.form.get("team_id")]. *)
Definition assign_team (clk : clock) (rid : string) (tid : option string)
    (w : world) : flashed * world :=
  if negb (truthy tid) then (TeamSelectionRequired, w)
  else
    let tid := default "" tid in
    let cleanups := load_cleanups w in
    let teams := load_teams w in
    match find_cleanup rid cleanups, find_team tid teams with
    | Some (i, cleanup), Some (j, t) =>
        if negb (String.eqb (team_status t) "available")
        then (TeamNotAvailable, w)
        else
          let cleanup := cleanup
            |> set_assigned_team (Some tid)
            |> set_assigned_date (Some (isoformat (clk 0%nat)))
            |> set_status CleanupStatus.IN_PROGRESS
            |> set_updated_at (Some (isoformat (clk 1%nat))) in
          let t := t
            |> set_team_status "busy"
            |> set_current_task (Some rid)
            |> set_last_activity (isoformat (clk 2%nat)) in
          (TeamAssigned,
           w |> save_cleanups (<[i:=cleanup]> cleanups)
             |> save_teams (<[j:=t]> teams))
    | _, _ => (ReportOrTeamNotFound, w)
    end.

(** [sum(result.get("score", 0) for result in analysis_results)
     / len(analysis_results)], kept as the exact quotient that the float
    division rounds.  The handler compares and stores the double nearest
    to this quotient: the number stored under "cleanup_score" is that
    double, and the test against 30 comes out the same for both, an exact
    mean below 30 being at least 1/len below it. *)
Definition avg_score (results : list analysis_result) : Q :=
  Qdiv (inject_Z (foldr Z.add 0 (result_score <$> results)))
       (inject_Z (Z.of_nat (length results))).

(** The loop under [# Save verification photos]: the stored name of each
    upload that has a file name. *)
Definition save_photos (ext : collaborators) (rid : string)
    (uploads : list string) : list string :=
  (λ f, secure_filename ext ("verification_" +:+ rid +:+ "_" +:+ f))
  <$> filter (λ f, f ≠ "") uploads.

(** [verify_cleanup], method POST.  [email] and [notes] are the stripped
    form fields, [uploads] the file names of the uploaded photos (empty
    for a part without a file). *)
Definition verify_cleanup (ext : collaborators) (clk : clock)
    (rid email notes : string) (uploads : list string) (w : world)
    : flashed * world :=
  let cleanups := load_cleanups w in
  let teams := load_teams w in
  match find_cleanup rid cleanups with
  | None => (ReportNotFound, w)
  | Some (i, cleanup) =>
      match assigned_team cleanup with
      | None => (NoTeamAssigned, w)
      | Some tid =>
          if negb (truthy (Some tid)) then (NoTeamAssigned, w)
          else
            match find_team tid teams with
            | None => (AssignedTeamNotFound, w)
            | Some (j, t) =>
                if negb (bool_decide (email ∈ members t))
                then (NotATeamMember, w)
                else if negb (truthy (head uploads))
                then (PhotoRequired, w)
                else
                  let photo_paths := save_photos ext rid uploads in
                  let analysis_results :=
                    analyze_cleanup_verification ext <$> photo_paths in
                  match analysis_results with
                  | [] => (NoResponse, w)
                  | _ :: _ =>
                      let avg := avg_score analysis_results in
                      if negb (Qle_bool 30 avg) then
                        let cleanup := cleanup
                          |> set_status CleanupStatus.CLEANED
                          |> set_completion_date
                               (Some (isoformat (clk 0%nat)))
                          |> set_updated_at (Some (isoformat (clk 1%nat))) in
                        let t := t
                          |> set_team_status "available"
                          |> set_current_task None
                          |> set_last_activity (isoformat (clk 2%nat))
                          |> set_total_cleanups (total_cleanups t + 1) in
                        let cleanup := cleanup
                          |> set_verification_photos photo_paths
                          |> set_cleanup_notes notes
                          |> set_verification_analysis
                               (Some analysis_results)
                          |> set_cleanup_score (Some avg) in
                        (VerificationSuccessful,
                         w |> save_cleanups (<[i:=cleanup]> cleanups)
                           |> save_teams (<[j:=t]> teams))
                      else
                        let cleanup := cleanup
                          |> set_verification_photos photo_paths
                          |> set_cleanup_notes notes
                          |> set_verification_analysis
                               (Some analysis_results)
                          |> set_cleanup_score (Some avg)
                          |> set_updated_at (Some (isoformat (clk 0%nat))) in
                        (StillNeedsWork,
                         w |> save_cleanups (<[i:=cleanup]> cleanups))
                  end
            end
      end
  end.

(** [mark_completed] *)
Definition mark_completed (clk : clock) (rid : string) (w : world)
    : flashed * world :=
  let cleanups := load_cleanups w in
  let teams := load_teams w in
  match find_cleanup rid cleanups with
  | None => (ReportNotFound, w)
  | Some (i, cleanup) =>
      match assigned_team cleanup with
      | None => (NoTeamAssigned, w)
      | Some tid =>
          if negb (truthy (Some tid)) then (NoTeamAssigned, w)
          else
            match find_team tid teams with
            | None => (AssignedTeamNotFound, w)
            | Some (j, t) =>
                let cleanup := cleanup
                  |> set_status CleanupStatus.CLEANED
                  |> set_completion_date (Some (isoformat (clk 0%nat)))
                  |> set_updated_at (Some (isoformat (clk 1%nat))) in
                let t := t
                  |> set_team_status "available"
                  |> set_current_task None
                  |> set_last_activity (isoformat (clk 2%nat))
                  |> set_total_cleanups (total_cleanups t + 1) in
                (MarkedCompleted,
                 w |> save_cleanups (<[i:=cleanup]> cleanups)
                   |> save_teams (<[j:=t]> teams))
            end
      end
  end.

(** ** The storage forms: [to_dict] and [from_dict]

    Here the dictionaries are what Python has: keys with dynamically typed
    values, in insertion order.  Attributes of the class instances hold
    such values too. *)

Module Storage.

#[local] Set Warnings "-register-all".

Inductive value :=
  | VNone
  | VStr (s : string)
  | VInt (n : Z)
  | VFloat (q : Q)
  | VList (l : list value)
  | VDict (d : list (string * value)).

Definition dict := list (string * value).

(** [d[k]], [None] for [KeyError]. *)
Fixpoint item (k : string) (d : dict) : option value :=
  match d with
  | [] => None
  | (k', v) :: d' => if String.eqb k k' then Some v else item k d'
  end.

(** [d.get(k, dflt)] and [d.get(k)] *)
Definition get (k : string) (dflt : value) (d : dict) : value :=
  default dflt (item k d).
Definition get_none (k : string) (d : dict) : value := get k VNone d.

(** Truthiness, for [x or y]. *)
Definition is_true (v : value) : bool :=
  match v with
  | VNone => false
  | VStr s => negb (String.eqb s "")
  | VInt n => negb (n =? 0)
  | VFloat q => negb (Qeq_bool q 0)
  | VList l => match l with [] => false | _ => true end
  | VDict d => match d with [] => false | _ => true end
  end.
Definition py_or (x y : value) : value := if is_true x then x else y.

(** *** [models/report.py]: [Report] *)

Record Report := {
  filename : value; latitude : value; longitude : value;
  location_name : value; score : value; analysis : value;
  reporter_name : value; reporter_email : value; points : value;
  timestamp : value
}.

(** [Report.__init__] *)
Definition Report_init (clk : clock)
    (filename latitude longitude location_name score analysis
     reporter_name reporter_email points : value) : Report :=
  {| filename := filename; latitude := latitude; longitude := longitude;
     location_name := location_name; score := score;
     analysis := analysis; reporter_name := reporter_name;
     reporter_email := reporter_email; points := points;
     timestamp := VStr (isoformat (clk 0%nat)) |}.

Definition Report_to_dict (self : Report) : dict :=
  [ ("filename", filename self);
    ("latitude", latitude self);
    ("longitude", longitude self);
    ("location_name", location_name self);
    ("score", score self);
    ("analysis", analysis self);
    ("reporter_name", reporter_name self);
    ("reporter_email", reporter_email self);
    ("points", points self);
    ("timestamp", timestamp self) ].

Definition Report_from_dict (clk : clock) (data : dict) : Report :=
  Report_init clk
    (get "filename" (VStr "") data)
    (get "latitude" (VStr "") data)
    (get "longitude" (VStr "") data)
    (get "location_name" (VStr "") data)
    (get "score" (VInt 0) data)
    (get "analysis" (VStr "") data)
    (get "reporter_name" (VStr "") data)
    (get "reporter_email" (VStr "") data)
    (get "points" (VInt 0) data).

(** *** [models/cleanup.py]: [CleanupReport] *)

Record CleanupReport := {
  report_id : value; pollution_report : value; status : value;
  assigned_team : value; assigned_date : value; start_date : value;
  completion_date : value; cleanup_notes : value;
  verification_photos : value; cleanup_points : value;
  created_at : value; updated_at : value
}.

(** [CleanupReport.__init__] *)
Definition CleanupReport_init (clk : clock)
    (report_id pollution_report status : value) : CleanupReport :=
  {| report_id := report_id; pollution_report := pollution_report;
     status := status;
     assigned_team := VNone; assigned_date := VNone;
     start_date := VNone; completion_date := VNone;
     cleanup_notes := VStr ""; verification_photos := VList [];
     cleanup_points := VInt 0;
     created_at := VStr (isoformat (clk 0%nat));
     updated_at := VStr (isoformat (clk 1%nat)) |}.

Definition CleanupReport_to_dict (self : CleanupReport) : dict :=
  [ ("report_id", report_id self);
    ("pollution_report", pollution_report self);
    ("status", status self);
    ("assigned_team", assigned_team self);
    ("assigned_date", assigned_date self);
    ("start_date", start_date self);
    ("completion_date", completion_date self);
    ("cleanup_notes", cleanup_notes self);
    ("verification_photos", verification_photos self);
    ("cleanup_points", cleanup_points self);
    ("created_at", created_at self);
    ("updated_at", updated_at self) ].

(** [CleanupReport.from_dict]: the instance is built by [__init__] and
    its attributes are then assigned one by one.  [None] is a
    [KeyError]. *)
Definition CleanupReport_from_dict (clk : clock) (data : dict)
    : option CleanupReport :=
  rid ← item "report_id" data;
  rep ← item "pollution_report" data;
  st ← item "status" data;
  let instance := CleanupReport_init clk rid rep st in
  Some {| report_id := report_id instance;
          pollution_report := pollution_report instance;
          status := status instance;
          assigned_team := get_none "assigned_team" data;
          assigned_date := get_none "assigned_date" data;
          start_date := get_none "start_date" data;
          completion_date := get_none "completion_date" data;
          cleanup_notes := get "cleanup_notes" (VStr "") data;
          verification_photos := get "verification_photos" (VList []) data;
          cleanup_points := get "cleanup_points" (VInt 0) data;
          created_at := get_none "created_at" data;
          updated_at := get_none "updated_at" data |}.

(** *** [models/cleanup.py]: [CleanupTeam] *)

Record CleanupTeam := {
  team_id : value; name : value; leader_email : value; members : value;
  team_status : value;       (* [self.status] *)
  current_task : value; total_cleanups : value; total_points : value;
  rating : value;
  team_created_at : value;   (* [self.created_at] *)
  last_activity : value
}.

(** [CleanupTeam.__init__] *)
Definition CleanupTeam_init (clk : clock)
    (team_id name leader_email members : value) : CleanupTeam :=
  {| team_id := team_id; name := name; leader_email := leader_email;
     members := py_or members (VList []);
     team_status := VStr "available"; current_task := VNone;
     total_cleanups := VInt 0; total_points := VInt 0;
     rating := VFloat 5;
     team_created_at := VStr (isoformat (clk 0%nat));
     last_activity := VStr (isoformat (clk 1%nat)) |}.

Definition CleanupTeam_to_dict (self : CleanupTeam) : dict :=
  [ ("team_id", team_id self);
    ("name", name self);
    ("leader_email", leader_email self);
    ("members", members self);
    ("status", team_status self);
    ("current_task", current_task self);
    ("total_cleanups", total_cleanups self);
    ("total_points", total_points self);
    ("rating", rating self);
    ("created_at", team_created_at self);
    ("last_activity", last_activity self) ].

Definition CleanupTeam_from_dict (clk : clock) (data : dict)
    : option CleanupTeam :=
  tid ← item "team_id" data;
  nm ← item "name" data;
  leader ← item "leader_email" data;
  let instance :=
    CleanupTeam_init clk tid nm leader (get "members" (VList []) data) in
  Some {| team_id := team_id instance; name := name instance;
          leader_email := leader_email instance;
          members := members instance;
          team_status := get "status" (VStr "available") data;
          current_task := get_none "current_task" data;
          total_cleanups := get "total_cleanups" (VInt 0) data;
          total_points := get "total_points" (VInt 0) data;
          rating := get "rating" (VFloat 5) data;
          team_created_at := get_none "created_at" data;
          last_activity := get_none "last_activity" data |}.

End Storage.

(** ** Runs of the engine *)

(** The calls that write the collections, each with the environment it
    runs in. *)
Inductive request :=
  | CreateCleanupReport (clk : clock) (rnd : Z) (r : report)
  | CreateTeam (clk : clock) (rnd : Z) (nm leader : string)
      (mem : option (list string))
  | AutoAssignTeam (clk : clock) (rid : string)
  | UpdateCleanupStatus (clk : clock) (rid st notes : string)
      (photos : option (list string))
  | SubmitCleanupVerification (clk : clock) (rid team_email notes : string)
      (photos : list string) (cleanup_score : option Z)
  | AssignTeam (clk : clock) (rid : string) (tid : option string)
  | VerifyCleanup (ext : collaborators) (clk : clock)
      (rid email notes : string) (uploads : list string)
  | MarkCompleted (clk : clock) (rid : string).

Definition handle (q : request) (w : world) : world :=
  match q with
  | CreateCleanupReport clk rnd r => (create_cleanup_report clk rnd r w).2
  | CreateTeam clk rnd nm leader mem => (create_team clk rnd nm leader mem w).2
  | AutoAssignTeam clk rid => (auto_assign_team clk rid w).2
  | UpdateCleanupStatus clk rid st notes photos =>
      (update_cleanup_status clk rid st notes photos w).2
  | SubmitCleanupVerification clk rid team_email notes photos sc =>
      (submit_cleanup_verification clk rid team_email notes photos sc w).2
  | AssignTeam clk rid tid => (assign_team clk rid tid w).2
  | VerifyCleanup ext clk rid email notes uploads =>
      (verify_cleanup ext clk rid email notes uploads w).2
  | MarkCompleted clk rid => (mark_completed clk rid w).2
  end.

Definition run (qs : list request) (w : world) : world :=
  foldl (λ w q, handle q w) w qs.

(** [_ensure_files_exist]: both files start as the empty list. *)
Definition initial : world := {| cleanups_file := []; teams_file := [] |}.

(** The order of the sort keys, as propositions. *)
Definition key_lt (a b : Q * Z) : Prop :=
  (a.1 < b.1)%Q ∨ ((a.1 == b.1)%Q ∧ a.2 < b.2).
Definition key_le (a b : Q * Z) : Prop :=
  (a.1 < b.1)%Q ∨ ((a.1 == b.1)%Q ∧ a.2 ≤ b.2).

(** ** Runs along the lifecycle

    The lifecycle the engine is built for is
    pending -> in_progress -> cleaned -> verified, with a verification that
    fails leaving the task in progress.  The engine does not enforce it;
    the tests below say of a request that it keeps to it: identifiers
    drawn for new records are not yet in use, a team is assigned to a
    pending task, a verification or completion concerns a task in
    progress, and a status update follows one of the edges. *)

Definition lifecycle_edge (old new : string) : bool :=
  String.eqb old "pending" && String.eqb new "in_progress"
  || String.eqb old "in_progress" && String.eqb new "in_progress"
  || String.eqb old "in_progress" && String.eqb new "cleaned"
  || String.eqb old "cleaned" && String.eqb new "verified".

Definition task_in (st rid : string) (w : world) : bool :=
  match find_cleanup rid (cleanups_file w) with
  | Some (_, c) => String.eqb (status c) st
  | None => true
  end.

Definition on_lifecycle (q : request) (w : world) : bool :=
  match q with
  | CreateCleanupReport clk rnd _ =>
      match find_cleanup (new_id "cleanup_" clk rnd) (cleanups_file w) with
      | None => true
      | Some _ => false
      end
  | CreateTeam clk rnd _ _ _ =>
      match find_team (new_id "team_" clk rnd) (teams_file w) with
      | None => true
      | Some _ => false
      end
  | AutoAssignTeam _ rid | AssignTeam _ rid _ => task_in "pending" rid w
  | UpdateCleanupStatus _ rid st _ _ =>
      match find_cleanup rid (cleanups_file w) with
      | Some (_, c) => lifecycle_edge (status c) st
      | None => true
      end
  | SubmitCleanupVerification _ rid _ _ _ _
  | VerifyCleanup _ _ rid _ _ _
  | MarkCompleted _ rid => task_in "in_progress" rid w
  end.

Fixpoint all_on_lifecycle (qs : list request) (w : world) : bool :=
  match qs with
  | [] => true
  | q :: qs => on_lifecycle q w && all_on_lifecycle qs (handle q w)
  end.

(** ** Sample data *)

(** A clock whose [k]-th reading is [base + k] microseconds into a fixed
    second. *)
Definition sample_clock (base : nat) : clock := λ k,
  {| isoformat := "2025-06-01T10:00:00." +:+ pretty (base + k)%nat;
     strftime_compact := "20250601_100000" |}.

Definition sample_report (s : Z) : report :=
  {| filename := "ann_beach.jpg"; latitude := "12.9"; longitude := "80.2";
     location_name := "Marina"; score := s; analysis := "plastic waste";
     reporter_name := "ann"; reporter_email := "ann@example.org";
     points := 20; timestamp := "2025-06-01T09:59:00.000000" |}.

Definition sample_team (tid : string) (r : Q) (n : Z) (st : string)
    (task : option string) : team :=
  {| team_id := tid; name := tid; leader_email := "lea@example.org";
     members := ["lea@example.org"; "bob@example.org"];
     team_status := st; current_task := task;
     total_cleanups := n; total_points := 0; rating := r;
     team_created_at := "2025-05-01T08:00:00.000000";
     last_activity := "2025-05-01T08:00:00.000000" |}.

Definition sample_task (rid st : string) (tid : option string)
    (notes : string) (photos : list string) : cleanup :=
  {| report_id := rid; pollution_report := sample_report 82;
     status := st; assigned_team := tid;
     assigned_date := None; start_date := None; completion_date := None;
     cleanup_notes := notes; verification_photos := photos;
     cleanup_points := 0;
     created_at := Some "2025-06-01T09:59:01.000000";
     updated_at := Some "2025-06-01T09:59:01.000000";
     verification_analysis := None; cleanup_score := None |}.

(** The pool of the selection example: A(5, 10), B(5, 20), C(4, 100). *)
Definition pool_ABC : list team :=
  [ sample_team "A" 5 10 "available" None;
    sample_team "B" 5 20 "available" None;
    sample_team "C" 4 100 "available" None ].

(** A run along the lifecycle: a team is formed, a report of score 82
    comes in and is assigned to it, a member's verification scores 18, and
    the closed task is then marked verified. *)
Definition sample_task_id : string := "cleanup_20250601_100000_2222".

Definition sample_run : list request :=
  [ CreateTeam (sample_clock 0) 1111 "Tide" "lea@example.org"
      (Some ["lea@example.org"; "bob@example.org"]);
    CreateCleanupReport (sample_clock 10) 2222 (sample_report 82);
    SubmitCleanupVerification (sample_clock 20) sample_task_id
      "bob@example.org" "swept" ["after.jpg"] (Some 18);
    UpdateCleanupStatus (sample_clock 30) sample_task_id "verified" "" None ].

(** Collaborators for the examples: file names are kept as they are, and
    the scoring service finds one photo clean. *)
Definition sample_ext : collaborators :=
  {| secure_filename := λ f, f;
     analyze_cleanup_verification := λ f,
       {| result_score := if String.eqb f "verification_t1_clean.jpg"
                          then 12 else 64;
          result_analysis := "" |} |}.

(** A run that leaves two available teams: the sample run, after which
    its team has one cleanup, and then a second team is formed. *)
Definition sample_run_two_teams : list request :=
  sample_run ++
  [ CreateTeam (sample_clock 40) 4444 "Reef" "kim@example.org" None ].

(** ** What the properties speak of *)

(** The order of the file, on teams paired with their positions. *)
Definition by_position (a b : nat * team) : Prop := (a.1 < b.1)%nat.

(** [photos or []] *)
Definition given (photos : option (list string)) : list string :=
  default [] photos.

(** What a task and its team look like after the manager has closed the
    task with the notes [notes] at the clock reading [now]. *)
Definition closed_by_manager (now : datetime) (notes : string)
    (c c' : cleanup) (t t' : team) : Prop :=
  status c' = "cleaned" ∧
  completion_date c' = Some (isoformat now) ∧
  cleanup_points c' = 25 + score (pollution_report c) `div` 10 ∧
  cleanup_notes c' = notes ∧
  team_id t' = team_id t ∧
  team_status t' = "available" ∧
  current_task t' = None ∧
  total_cleanups t' = total_cleanups t + 1 ∧
  total_points t' = total_points t + cleanup_points c'.

(** What every way into "cleaned" does to a task and its team, at the
    clock reading [now]. *)
Definition closed (now : datetime) (c' : cleanup) (t t' : team) : Prop :=
  status c' = "cleaned" ∧
  completion_date c' = Some (isoformat now) ∧
  team_id t' = team_id t ∧
  team_status t' = "available" ∧
  current_task t' = None ∧
  total_cleanups t' = total_cleanups t + 1.

(** The annotation that a failed verification adds after the notes. *)
Definition failure_note (sc : Z) : string :=
  newline +:+ "[VERIFICATION FAILED] Score: " +:+ str_int sc
  +:+ ". Cleanup incomplete, task continues.".

(** The two answers of [submit_cleanup_verification] that turn a call
    away. *)
Definition not_found : response := reply false "Cleanup report not found".
Definition unauthorized : response :=
  reply false "Unauthorized: You are not assigned to this cleanup task".

(** A team is busy exactly when it has a current task. *)
Definition busy_iff_task (t : team) : Prop :=
  team_status t = "busy" ↔ is_Some (current_task t).

(** A cleaned task has a completion date. *)
Definition cleaned_has_date (c : cleanup) : Prop :=
  status c = "cleaned" → is_Some (completion_date c).

(** A task has a completion date exactly when it is cleaned or
    verified. *)
Definition done_iff_dated (c : cleanup) : Prop :=
  (status c = "cleaned" ∨ status c = "verified") ↔
  is_Some (completion_date c).

(** What an assignment sets up: the task found under [rid] is in progress
    with the team [tid], and a team of that id is busy with [rid]. *)
Definition assigned_to (rid tid : string) (w : world) : Prop :=
  ∃ i c j t,
    find_cleanup rid (cleanups_file w) = Some (i, c) ∧
    assigned_team c = Some tid ∧ status c = "in_progress" ∧
    teams_file w !! j = Some t ∧ team_id t = tid ∧
    team_status t = "busy" ∧ current_task t = Some rid.

(** The two files agree: identifiers are not repeated, a pending task has
    no team, the current task of a team is in progress and names the team,
    and the team of a task in progress has that task as its current
    one. *)
Record linked (cs : list cleanup) (ts : list team) : Prop := {
  teams_nodup : NoDup (team_id <$> ts);
  teams_named : ∀ j t, ts !! j = Some t → team_id t ≠ "";
  tasks_nodup : NoDup (report_id <$> cs);
  pending_free : ∀ i c,
    cs !! i = Some c → status c = "pending" → assigned_team c = None;
  team_task : ∀ j t rid,
    ts !! j = Some t → current_task t = Some rid →
    ∃ i c, cs !! i = Some c ∧ report_id c = rid ∧
           assigned_team c = Some (team_id t) ∧ status c = "in_progress";
  task_team : ∀ i c tid,
    cs !! i = Some c → status c = "in_progress" →
    assigned_team c = Some tid →
    ∃ j t, ts !! j = Some t ∧ team_id t = tid ∧
           current_task t = Some (report_id c)
}.

(** How closing a task assigned to [a] may change the team file: the team
    of that id, if there is one, loses its current task. *)
Definition releases (a : option string) (ts ts' : list team) : Prop :=
  match a with
  | Some tid =>
      if truthy (Some tid) then
        match find_team tid ts with
        | Some (j, t) =>
            ∃ t', ts' = <[j:=t']> ts ∧ team_id t' = team_id t ∧
                  current_task t' = None
        | None => ts' = ts
        end
      else ts' = ts
  | None => ts' = ts
  end.

(** A team has a current task exactly when it is busy, and that task is in
    progress, names the team, and is the only task in progress that
    does. *)
Definition serves_its_task (w : world) (t : team) : Prop :=
  busy_iff_task t ∧
  ∀ rid, current_task t = Some rid →
    ∃ i c, find_cleanup rid (cleanups_file w) = Some (i, c) ∧
      assigned_team c = Some (team_id t) ∧ status c = "in_progress" ∧
      ∀ k c', cleanups_file w !! k = Some c' →
              status c' = "in_progress" →
              assigned_team c' = Some (team_id t) → k = i.

(** ** More of the manager and of the handlers *)

(** The test of [get_team_cleanup_tasks]: the task has an assigned team,
    the first team on file under that id exists and has [team_email] among
    its members. *)
Definition is_task_of (team_email : string) (teams : list team)
    (cleanup : cleanup) : bool :=
  match assigned_team cleanup with
  | Some tid =>
      truthy (Some tid) &&
      match find_team tid teams with
      | Some (_, t) => bool_decide (team_email ∈ members t)
      | None => false
      end
  | None => false
  end.

(** [get_team_cleanup_tasks] *)
Definition get_team_cleanup_tasks (team_email : string) (w : world)
    : list cleanup :=
  let cleanups := load_cleanups w in
  let teams := load_teams w in
  filter (λ c, is_task_of team_email teams c = true) cleanups.

(** The dictionary returned by [get_cleanup_stats]. *)
Record stats := {
  total_reports : nat;
  pending : nat;
  in_progress : nat;
  cleaned : nat;
  verified : nat;
  total_teams : nat;
  stat_available_teams : nat;   (* "available_teams" *)
  busy_teams : nat
}.

(** [len([c for c in cleanups if c["status"] == st])] *)
Definition count_status (st : string) (cleanups : list cleanup) : nat :=
  length (filter (λ c, status c = st) cleanups).

Definition count_team_status (st : string) (teams : list team) : nat :=
  length (filter (λ t, team_status t = st) teams).

(** [get_cleanup_stats] *)
Definition get_cleanup_stats (w : world) : stats :=
  let cleanups := load_cleanups w in
  let teams := load_teams w in
  {| total_reports := length cleanups;
     pending := count_status CleanupStatus.PENDING cleanups;
     in_progress := count_status CleanupStatus.IN_PROGRESS cleanups;
     cleaned := count_status CleanupStatus.CLEANED cleanups;
     verified := count_status CleanupStatus.VERIFIED cleanups;
     total_teams := length teams;
     stat_available_teams := count_team_status "available" teams;
     busy_teams := count_team_status "busy" teams |}.

(** The list returned by the handler [api_available_teams]. *)
Definition api_available_teams (w : world) : list team :=
  filter (λ t, team_status t = "available") (load_teams w).

(** The tasks shown by the handler [team_details] for a team on file:
    [[c for c in cleanups if c.get("assigned_team") == team_id]]. *)
Definition team_details_cleanups (tid : string) (w : world)
    : list cleanup :=
  filter (λ c, assigned_team c = Some tid) (load_cleanups w).

(** What the handlers [create_team] and [update_status] flash. *)
Inductive form_outcome :=
  | NameAndLeaderRequired   (* "Team name and leader email are required" *)
  | TooFewMembers           (* "Team must have at least 2 members
                               (including leader)" *)
  | TeamCreated             (* "Team '...' created successfully ..." *)
  | StatusRequired          (* "Status is required" *)
  | StatusUpdated           (* "Status updated successfully!" *)
  | StatusNotUpdated.       (* "Error updating status" *)

(** The member list that the handler [create_team] builds from the form:
    the stripped non-empty entries, and the leader at the end when not
    among them.  [strip] is Python's [str.strip]. *)
Definition member_list (strip : string → string) (leader_email : string)
    (members : list string) : list string :=
  let member_list := strip <$> filter (λ e, strip e ≠ "") members in
  if bool_decide (leader_email ∈ member_list) then member_list
  else member_list ++ [leader_email].

(** The handler [create_team], method POST; [nm] and [leader] are the
    form fields before stripping, [members] is
    [request.form.getlist("members[]")]. *)
Definition create_team_form (strip : string → string) (clk : clock)
    (rnd : Z) (nm leader : string) (members : list string) (w : world)
    : form_outcome * world :=
  let nm := strip nm in
  let leader_email := strip leader in
  if negb (truthy (Some nm)) || negb (truthy (Some leader_email))
  then (NameAndLeaderRequired, w)
  else
    let member_list := member_list strip leader_email members in
    if (length member_list <? 2)%nat then (TooFewMembers, w)
    else
      let '(_, w) :=
        create_team clk rnd nm leader_email (Some member_list) w in
      (TeamCreated, w).

(** The handler [update_status]; [st] is [request.form.get("status")]. *)
Definition update_status (strip : string → string) (clk : clock)
    (rid : string) (st : option string) (notes : string) (w : world)
    : form_outcome * world :=
  let notes := strip notes in
  if negb (truthy st) then (StatusRequired, w)
  else
    let '(ok, w) :=
      update_cleanup_status clk rid (default "" st) notes None w in
    (if ok then StatusUpdated else StatusNotUpdated, w).

(** What no request changes in a task: its id, the embedded report, its
    creation stamp, and its start date once it has one. *)
Definition same_task (c c' : cleanup) : Prop :=
  report_id c' = report_id c ∧
  pollution_report c' = pollution_report c ∧
  created_at c' = created_at c ∧
  (truthy (start_date c) = true → start_date c' = start_date c).

(** What no request changes in a team: id, name, leader, members, rating
    and creation stamp; its cleanup count does not go down. *)
Definition same_team (t t' : team) : Prop :=
  team_id t' = team_id t ∧ name t' = name t ∧
  leader_email t' = leader_email t ∧ members t' = members t ∧
  rating t' = rating t ∧ team_created_at t' = team_created_at t ∧
  total_cleanups t ≤ total_cleanups t'.

(** Every record of [w] is still at its place in [w']. *)
Definition keeps (w w' : world) : Prop :=
  (∀ i c, cleanups_file w !! i = Some c →
          ∃ c', cleanups_file w' !! i = Some c' ∧ same_task c c') ∧
  (∀ j t, teams_file w !! j = Some t →
          ∃ t', teams_file w' !! j = Some t' ∧ same_team t t').

(** What holds of every team the engine has on file. *)
Definition team_as_created (t : team) : Prop :=
  rating t = 5%Q ∧
  (team_status t = "available" ∨ team_status t = "busy") ∧
  members t ≠ [].

(** * The books beside the engine

    [utils/analysis.py] turns a severity score into points,
    [models/report.py] keeps reports.json with one entry per reporter, and
    [models/rewards.py] keeps the rewards ledger: the users' points, levels
    and badges, and the badges on offer. *)

(** ** [PollutionAnalyzer]: the static methods *)

Module PollutionAnalyzer.

(** [calculate_points] *)
Definition calculate_points (score : Z) : Z :=
  if score <? 30 then 5
  else if score <? 50 then 10
  else if score <? 70 then 15
  else if score <? 90 then 20
  else 25.

(** [get_severity_level] *)
Definition get_severity_level (score : Z) : string :=
  if score <? 30 then "Low"
  else if score <? 50 then "Moderate"
  else if score <? 70 then "High"
  else if score <? 90 then "Very High"
  else "Critical".

(** [get_color_class] *)
Definition get_color_class (score : Z) : string :=
  if score <? 30 then "success"
  else if score <? 50 then "warning"
  else if score <? 70 then "danger"
  else if score <? 90 then "danger"
  else "critical".

End PollutionAnalyzer.

(** ** [ReportManager] *)

Module Reports.

(** One entry of reports.json. *)
Record user := {
  name : string;
  email : string;
  reports : list report;
  total_points : Z
}.

(** [next((u for u in reports if u.get("email") == email), None)], with
    the position of the entry found. *)
Definition find_user (e : string) (book : list user)
    : option (nat * user) :=
  list_find (λ u, email u = e) book.

(** [add_report]; [r] is [report.to_dict()].  The entry found is changed
    in place; the total returned is read from the list after the change. *)
Definition add_report (r : report) (book : list user) : Z * list user :=
  let book :=
    match find_user (reporter_email r) book with
    | Some (i, u) =>
        <[i := {| name := name u; email := email u;
                  reports := reports u ++ [r];
                  total_points := total_points u + points r |}]> book
    | None =>
        book ++ [{| name := reporter_name r; email := reporter_email r;
                    reports := [r]; total_points := points r |}]
    end in
  let user_total_points :=
    match find_user (reporter_email r) book with
    | Some (_, u) => total_points u
    | None => points r
    end in
  (user_total_points, book).

(** [get_user_reports] *)
Definition get_user_reports (e : string) (book : list user) : list report :=
  match find_user e book with
  | Some (_, u) => reports u
  | None => []
  end.

(** [get_user_total_points] *)
Definition get_user_total_points (e : string) (book : list user) : Z :=
  match find_user e book with
  | Some (_, u) => total_points u
  | None => 0
  end.

(** The reports added one after the other. *)
Definition add_reports (rs : list report) (book : list user) : list user :=
  foldl (λ book r, (add_report r book).2) book rs.

End Reports.

(** ** [RewardsManager] *)

Module Rewards.

(** A badge on offer, in the form [Badge.to_dict] writes. *)
Record badge := {
  badge_id : string;
  name : string;
  description : string;
  icon : string;
  points_required : Z;
  category : string;
  rarity : string
}.

(** [Badge._calculate_rarity] *)
Definition _calculate_rarity (points : Z) : string :=
  if points <=? 50 then "common"
  else if points <=? 150 then "uncommon"
  else if points <=? 300 then "rare"
  else if points <=? 500 then "epic"
  else "legendary".

(** [Badge(...).to_dict()] *)
Definition Badge (id nm descr ic : string) (required : Z) (cat : string)
    : badge :=
  {| badge_id := id; name := nm; description := descr; icon := ic;
     points_required := required; category := cat;
     rarity := _calculate_rarity required |}.

(** The list written by [_initialize_default_badges]. *)
Definition default_badges : list badge :=
  [ Badge "first_report" "First Report"
      "Submitted your first pollution report" "📝" 10 "reporter";
    Badge "reporter_10" "Dedicated Reporter"
      "Submitted 10 pollution reports" "📊" 50 "reporter";
    Badge "reporter_50" "Expert Reporter"
      "Submitted 50 pollution reports" "🏆" 150 "reporter";
    Badge "first_cleanup" "First Cleanup"
      "Completed your first cleanup task" "🧹" 25 "cleanup";
    Badge "cleanup_10" "Cleanup Veteran"
      "Completed 10 cleanup tasks" "🌟" 100 "cleanup";
    Badge "cleanup_50" "Cleanup Master"
      "Completed 50 cleanup tasks" "👑" 300 "cleanup";
    Badge "high_severity" "Crisis Responder"
      "Reported high-severity pollution" "🚨" 75 "reporter";
    Badge "team_leader" "Team Leader"
      "Led a cleanup team" "👥" 50 "cleanup";
    Badge "verification" "Verification Expert"
      "Verified 5 cleanup tasks" "✅" 100 "cleanup";
    Badge "environmentalist" "Environmentalist"
      "Earned 500 total points" "🌍" 500 "general" ].

(** An entry of a user's achievements: the keys "type", "badges" and
    "date". *)
Record achievement := {
  type : string;
  achievement_badges : list string;
  date : string
}.

(** A user of the ledger, in the form [UserRewards.to_dict] writes. *)
Record user_rewards := {
  email : string;
  badges : list string;
  total_points : Z;
  reporter_points : Z;
  cleanup_points : Z;
  level : Z;
  title : string;
  achievements : list achievement;
  created_at : string;
  last_updated : string
}.

Definition set_badges v (u : user_rewards) : user_rewards :=
  {| email := email u; badges := v; total_points := total_points u;
     reporter_points := reporter_points u;
     cleanup_points := cleanup_points u; level := level u;
     title := title u; achievements := achievements u;
     created_at := created_at u; last_updated := last_updated u |}.
Definition set_total_points v (u : user_rewards) : user_rewards :=
  {| email := email u; badges := badges u; total_points := v;
     reporter_points := reporter_points u;
     cleanup_points := cleanup_points u; level := level u;
     title := title u; achievements := achievements u;
     created_at := created_at u; last_updated := last_updated u |}.
Definition set_reporter_points v (u : user_rewards) : user_rewards :=
  {| email := email u; badges := badges u; total_points := total_points u;
     reporter_points := v;
     cleanup_points := cleanup_points u; level := level u;
     title := title u; achievements := achievements u;
     created_at := created_at u; last_updated := last_updated u |}.
Definition set_cleanup_points v (u : user_rewards) : user_rewards :=
  {| email := email u; badges := badges u; total_points := total_points u;
     reporter_points := reporter_points u;
     cleanup_points := v; level := level u;
     title := title u; achievements := achievements u;
     created_at := created_at u; last_updated := last_updated u |}.
Definition set_level v (u : user_rewards) : user_rewards :=
  {| email := email u; badges := badges u; total_points := total_points u;
     reporter_points := reporter_points u;
     cleanup_points := cleanup_points u; level := v;
     title := title u; achievements := achievements u;
     created_at := created_at u; last_updated := last_updated u |}.
Definition set_title v (u : user_rewards) : user_rewards :=
  {| email := email u; badges := badges u; total_points := total_points u;
     reporter_points := reporter_points u;
     cleanup_points := cleanup_points u; level := level u;
     title := v; achievements := achievements u;
     created_at := created_at u; last_updated := last_updated u |}.
Definition set_achievements v (u : user_rewards) : user_rewards :=
  {| email := email u; badges := badges u; total_points := total_points u;
     reporter_points := reporter_points u;
     cleanup_points := cleanup_points u; level := level u;
     title := title u; achievements := v;
     created_at := created_at u; last_updated := last_updated u |}.
Definition set_last_updated v (u : user_rewards) : user_rewards :=
  {| email := email u; badges := badges u; total_points := total_points u;
     reporter_points := reporter_points u;
     cleanup_points := cleanup_points u; level := level u;
     title := title u; achievements := achievements u;
     created_at := created_at u; last_updated := v |}.

(** The two files of the manager. *)
Record ledger := {
  rewards_file : list user_rewards;
  badges_file : list badge
}.

Definition load_rewards (l : ledger) : list user_rewards := rewards_file l.
Definition load_badges (l : ledger) : list badge := badges_file l.
Definition save_rewards (rewards : list user_rewards) (l : ledger)
    : ledger :=
  {| rewards_file := rewards; badges_file := badges_file l |}.
Definition save_badges (bs : list badge) (l : ledger) : ledger :=
  {| rewards_file := rewards_file l; badges_file := bs |}.

(** [UserRewards(email)] *)
Definition UserRewards (clk : clock) (e : string) : user_rewards :=
  {| email := e; badges := []; total_points := 0; reporter_points := 0;
     cleanup_points := 0; level := 1; title := "Beach Guardian";
     achievements := [];
     created_at := isoformat (clk 0%nat);
     last_updated := isoformat (clk 1%nat) |}.

(** [_initialize_default_badges] *)
Definition _initialize_default_badges (l : ledger) : ledger :=
  match load_badges l with
  | [] => save_badges default_badges l
  | _ :: _ => l
  end.

(** [_ensure_files_exist], then [_initialize_default_badges]. *)
Definition initial : ledger :=
  _initialize_default_badges {| rewards_file := []; badges_file := [] |}.

(** [next((r for r in rewards if r["email"] == email), None)], with the
    position of the entry found. *)
Definition find_user (e : string) (rewards : list user_rewards)
    : option (nat * user_rewards) :=
  list_find (λ r, email r = e) rewards.

(** [get_or_create_user].  [UserRewards.from_dict] of a stored entry gives
    the entry back: it overwrites every attribute the constructor set. *)
Definition get_or_create_user (clk : clock) (e : string) (l : ledger)
    : user_rewards * ledger :=
  let rewards := load_rewards l in
  match find_user e rewards with
  | None =>
      let user := UserRewards clk e in
      (user, save_rewards (rewards ++ [user]) l)
  | Some (_, user) => (user, l)
  end.

(** [_get_title_for_level] *)
Definition _get_title_for_level (level : Z) : string :=
  match level with
  | 1 => "Beach Guardian"
  | 2 => "Coastal Protector"
  | 3 => "Ocean Defender"
  | 4 => "Marine Conservationist"
  | 5 => "Environmental Champion"
  | 6 => "Eco Warrior"
  | 7 => "Nature Guardian"
  | 8 => "Planet Protector"
  | 9 => "Earth Defender"
  | 10 => "Legendary Guardian"
  | _ => "Legendary Guardian"
  end.

(** [_qualifies_for_badge] *)
Definition _qualifies_for_badge (user : user_rewards) (b : badge) : bool :=
  let badge_id := badge_id b in
  if String.eqb badge_id "first_report" && (10 <=? reporter_points user)
  then true
  else if String.eqb badge_id "reporter_10" && (50 <=? reporter_points user)
  then true
  else if String.eqb badge_id "reporter_50"
          && (150 <=? reporter_points user)
  then true
  else if String.eqb badge_id "first_cleanup"
          && (25 <=? cleanup_points user)
  then true
  else if String.eqb badge_id "cleanup_10" && (100 <=? cleanup_points user)
  then true
  else if String.eqb badge_id "cleanup_50" && (300 <=? cleanup_points user)
  then true
  else if String.eqb badge_id "environmentalist"
          && (500 <=? total_points user)
  then true
  else false.

(** [_check_for_new_badges]: the loop tests each badge on offer against
    the badges the user had when it started. *)
Definition _check_for_new_badges (user : user_rewards) (l : ledger)
    : list string :=
  badge_id <$>
    filter (λ b, (badge_id b ∉ badges user) ∧
                 _qualifies_for_badge user b = true)
           (load_badges l).

(** [award_points] *)
Definition award_points (clk : clock) (e : string) (points : Z)
    (category : string) (l : ledger) : user_rewards * ledger :=
  let rewards := load_rewards l in
  let user_data := find_user e rewards in
  let user := match user_data with
              | None => UserRewards clk e
              | Some (_, d) => d
              end in
  let user := set_total_points (total_points user + points) user in
  let user :=
    if String.eqb category "reporter"
    then set_reporter_points (reporter_points user + points) user
    else if String.eqb category "cleanup"
    then set_cleanup_points (cleanup_points user + points) user
    else user in
  let user := set_level (total_points user `div` 100 + 1) user in
  let user := set_title (_get_title_for_level (level user)) user in
  let user := set_last_updated (isoformat (clk 2%nat)) user in
  let new_badges := _check_for_new_badges user l in
  let user :=
    match new_badges with
    | [] => user
    | _ :: _ =>
        user
        |> set_badges (badges user ++ new_badges)
        |> set_achievements
             (achievements user ++
              [{| type := "badge_earned";
                  achievement_badges := new_badges;
                  date := isoformat (clk 3%nat) |}])
    end in
  let rewards :=
    match user_data with
    | Some (i, _) => <[i:=user]> rewards
    | None => rewards ++ [user]
    end in
  (user, save_rewards rewards l).

(** The dictionary returned by [get_user_stats]. *)
Record user_stats := {
  stats_email : string;
  stats_total_points : Z;
  stats_reporter_points : Z;
  stats_cleanup_points : Z;
  stats_level : Z;
  stats_title : string;
  stats_badges : list badge;
  stats_achievements : list achievement;
  next_level_points : Z;
  progress_to_next : Q
}.

(** [get_user_stats]; the quotient of [progress_to_next] is kept exact. *)
Definition get_user_stats (clk : clock) (e : string) (l : ledger)
    : user_stats * ledger :=
  let '(user, l) := get_or_create_user clk e l in
  let bs := load_badges l in
  let user_badges := filter (λ b, badge_id b ∈ badges user) bs in
  ({| stats_email := email user;
      stats_total_points := total_points user;
      stats_reporter_points := reporter_points user;
      stats_cleanup_points := cleanup_points user;
      stats_level := level user;
      stats_title := title user;
      stats_badges := user_badges;
      stats_achievements := achievements user;
      next_level_points := level user * 100 - total_points user;
      progress_to_next :=
        Qdiv (inject_Z (total_points user `mod` 100)) (inject_Z 100) |},
   l).

(** The loop of [verify_cleanup] and [mark_completed]:
    [for member_email in team["members"]:
       rewards_manager.award_points(member_email, team_points, "cleanup")]
    with [team_points = 25]; [clks k] is the clock of the [k]-th call. *)
Fixpoint award_members (clks : nat → clock) (ms : list string) (l : ledger)
    : ledger :=
  match ms with
  | [] => l
  | member_email :: ms =>
      award_members (λ k, clks (S k)) ms
        (award_points (clks 0%nat) member_email 25 "cleanup" l).2
  end.

(** The calls that reach the ledger. *)
Inductive request :=
  | AwardPoints (clk : clock) (e : string) (points : Z) (category : string)
  | GetUserStats (clk : clock) (e : string).

Definition handle (q : request) (l : ledger) : ledger :=
  match q with
  | AwardPoints clk e points category =>
      (award_points clk e points category l).2
  | GetUserStats clk e => (get_user_stats clk e l).2
  end.

Definition run (qs : list request) (l : ledger) : ledger :=
  foldl (λ l q, handle q l) l qs.

(** The points a request awards. *)
Definition awarded (q : request) : Z :=
  match q with
  | AwardPoints _ _ points _ => points
  | GetUserStats _ _ => 0
  end.

(** The categories the handlers award in. *)
Definition in_a_category (q : request) : bool :=
  match q with
  | AwardPoints _ _ _ category =>
      String.eqb category "reporter" || String.eqb category "cleanup"
  | GetUserStats _ _ => true
  end.

End Rewards.

(** * The accounts ([models/auth.py], [routes/auth.py])

    users.json is a list of dictionaries with the keys below; the
    password is kept under "password_hash" as it was typed. *)

Module Auth.

(** One reading of [datetime.now()], in the two renderings the accounts
    use. *)
Record datetime := {
  isoformat : string;        (* .isoformat() *)
  strftime_micro : string    (* .strftime('%Y%m%d_%H%M%S_%f') *)
}.

Definition clock := nat → datetime.

(** An entry of users.json. *)
Record account := {
  user_id : string;
  username : string;
  email : string;
  password_hash : string;
  user_type : string;
  created_at : string;
  last_login : string;
  is_active : bool
}.

Definition set_last_login (v : string) (a : account) : account :=
  {| user_id := user_id a; username := username a; email := email a;
     password_hash := password_hash a; user_type := user_type a;
     created_at := created_at a; last_login := v;
     is_active := is_active a |}.

(** The class [User]: an account without its password. *)
Module User.
Record t := {
  user_id : string;
  username : string;
  email : string;
  user_type : string;
  created_at : string;
  last_login : string;
  is_active : bool
}.
End User.

(** [User.from_dict] *)
Definition from_dict (data : account) : User.t :=
  {| User.user_id := user_id data; User.username := username data;
     User.email := email data; User.user_type := user_type data;
     User.created_at := created_at data;
     User.last_login := last_login data;
     User.is_active := is_active data |}.

(** [_create_default_users] *)
Definition _create_default_users (clk : clock) : list account :=
  [ {| user_id := "user_20250823_000000_0001"; username := "admin";
       email := "admin@example.com"; password_hash := "admin123";
       user_type := "admin";
       created_at := isoformat (clk 0%nat);
       last_login := isoformat (clk 1%nat); is_active := true |};
    {| user_id := "user_20250823_000000_0002"; username := "sairam";
       email := "sairampanchak@gmail.com"; password_hash := "sairam123";
       user_type := "user";
       created_at := isoformat (clk 2%nat);
       last_login := isoformat (clk 3%nat); is_active := true |} ].

(** [authenticate_user]: the first entry with the e-mail, the password
    and the active flag is stamped in place and returned. *)
Definition authenticate_user (clk : clock) (e password : string)
    (users : list account) : option User.t * list account :=
  match list_find (λ a, email a = e ∧ password_hash a = password ∧
                        is_active a = true) users with
  | Some (i, user_data) =>
      let user_data := set_last_login (isoformat (clk 0%nat)) user_data in
      (Some (from_dict user_data), <[i:=user_data]> users)
  | None => (None, users)
  end.

(** [get_user_by_email] *)
Definition get_user_by_email (e : string) (users : list account)
    : option User.t :=
  match list_find (λ a, email a = e ∧ is_active a = true) users with
  | Some (_, user_data) => Some (from_dict user_data)
  | None => None
  end.

(** [create_user]; [ut] is "user" when the argument is left out. *)
Definition create_user (clk : clock) (un e password ut : string)
    (users : list account) : option User.t * list account :=
  match list_find (λ a, email a = e) users with
  | Some _ => (None, users)
  | None =>
      let new_user :=
        {| user_id := "user_" +:+ strftime_micro (clk 0%nat);
           username := un; email := e; password_hash := password;
           user_type := ut;
           created_at := isoformat (clk 1%nat);
           last_login := isoformat (clk 2%nat); is_active := true |} in
      (Some (from_dict new_user), users ++ [new_user])
  end.

(** [update_user_last_login] *)
Definition update_user_last_login (clk : clock) (e : string)
    (users : list account) : list account :=
  match list_find (λ a, email a = e) users with
  | Some (i, user_data) =>
      <[i := set_last_login (isoformat (clk 0%nat)) user_data]> users
  | None => users
  end.

(** What the handlers of [routes/auth.py] flash. *)
Inductive flashed :=
  | EmailAndPasswordRequired  (* "Email and password are required" *)
  | WelcomeBack (u : User.t)  (* "Welcome back, ...!" *)
  | InvalidEmailOrPassword    (* "Invalid email or password" *)
  | AllFieldsRequired         (* "All fields are required" *)
  | PasswordsDoNotMatch       (* "Passwords do not match" *)
  | PasswordTooShort          (* "Password must be at least 6 characters
                                 long" *)
  | UserAlreadyExists         (* "User with this email already exists" *)
  | RegistrationSuccessful    (* "Registration successful! Please log
                                 in." *)
  | RegistrationFailed.       (* "Registration failed. Please try
                                 again." *)

(** [login], method POST; the arguments are the form fields as sent. *)
Definition login (strip : string → string) (clk : clock)
    (e password : string) (users : list account)
    : flashed * list account :=
  let e := strip e in
  let password := strip password in
  if negb (truthy (Some e)) || negb (truthy (Some password))
  then (EmailAndPasswordRequired, users)
  else
    match authenticate_user clk e password users with
    | (Some user, users) => (WelcomeBack user, users)
    | (None, users) => (InvalidEmailOrPassword, users)
    end.

(** [register], method POST; [len] is Python's [len] on strings, which
    counts code points. *)
Definition register (strip : string → string) (len : string → nat)
    (clk : clock) (un e password confirm_password : string)
    (users : list account) : flashed * list account :=
  let un := strip un in
  let e := strip e in
  let password := strip password in
  let confirm_password := strip confirm_password in
  if negb (truthy (Some un) && truthy (Some e) && truthy (Some password)
           && truthy (Some confirm_password))
  then (AllFieldsRequired, users)
  else if negb (String.eqb password confirm_password)
  then (PasswordsDoNotMatch, users)
  else if (len password <? 6)%nat then (PasswordTooShort, users)
  else
    match get_user_by_email e users with
    | Some _ => (UserAlreadyExists, users)
    | None =>
        match create_user clk un e password "user" users with
        | (Some _, users) => (RegistrationSuccessful, users)
        | (None, users) => (RegistrationFailed, users)
        end
    end.

(** The calls that write users.json. *)
Inductive request :=
  | AuthenticateUser (clk : clock) (e password : string)
  | CreateUser (clk : clock) (un e password ut : string)
  | UpdateUserLastLogin (clk : clock) (e : string)
  | Login (strip : string → string) (clk : clock) (e password : string)
  | Register (strip : string → string) (len : string → nat) (clk : clock)
      (un e password confirm_password : string).

Definition handle (q : request) (users : list account) : list account :=
  match q with
  | AuthenticateUser clk e password =>
      (authenticate_user clk e password users).2
  | CreateUser clk un e password ut =>
      (create_user clk un e password ut users).2
  | UpdateUserLastLogin clk e => update_user_last_login clk e users
  | Login strip clk e password => (login strip clk e password users).2
  | Register strip len clk un e password confirm_password =>
      (register strip len clk un e password confirm_password users).2
  end.

Definition run (qs : list request) (users : list account) : list account :=
  foldl (λ users q, handle q users) users qs.

(** What no call changes in an account: everything but the last login. *)
Definition same_account (a a' : account) : Prop :=
  user_id a' = user_id a ∧ username a' = username a ∧
  email a' = email a ∧ password_hash a' = password_hash a ∧
  user_type a' = user_type a ∧ created_at a' = created_at a ∧
  is_active a' = is_active a.

(** A clock for the examples. *)
Definition sample_clock : clock := λ k,
  {| isoformat := "2025-06-01T10:00:00." +:+ pretty k;
     strftime_micro := "20250601_100000_" +:+ pretty k |}.

(** Calls for the examples: a registration, a log-in and a stamp. *)
Definition sample_run : list request :=
  [ Register (λ s, s) String.length sample_clock "kim" "kim@example.org"
      "secret1" "secret1";
    Login (λ s, s) sample_clock "kim@example.org" "secret1";
    UpdateUserLastLogin sample_clock "admin@example.com" ].

End Auth.

(** * The site: the handlers over the three books

    [routes/main.py] and [routes/cleanup.py] work on one report book, one
    rewards ledger and one engine. *)

Record site := {
  reports_file : list Reports.user;
  rewards : Rewards.ledger;
  engine : world
}.

(** What [upload] hands to its template, of what it computed. *)
Record upload_result := {
  result_points : Z;
  result_total_points : Z;
  cleanup_report_id : string
}.

(** [Report(...).to_dict()] *)
Definition new_report (clk : clock) (fname lat lon loc : string) (sc : Z)
    (text nm em : string) (pts : Z) : report :=
  {| filename := fname; latitude := lat; longitude := lon;
     location_name := loc; score := sc; analysis := text;
     reporter_name := nm; reporter_email := em; points := pts;
     timestamp := isoformat (clk 0%nat) |}.

(** The part of [upload] that writes: what the handler does, from
    [# Calculate points] on, once the form is validated, the file saved
    and the image scored.  [clk_r] is the clock of [Report(...)], [clk_a]
    that of [award_points], [clk_c] and [rnd] are those of
    [create_cleanup_report]. *)
Definition upload (clk_r clk_a clk_c : clock) (rnd : Z)
    (fname nm em lat lon loc : string) (sc : Z) (text : string) (s : site)
    : upload_result * site :=
  let pts := PollutionAnalyzer.calculate_points sc in
  let report := new_report clk_r fname lat lon loc sc text nm em pts in
  let '(total, book) := Reports.add_report report (reports_file s) in
  let '(_, ledger) :=
    Rewards.award_points clk_a em pts "reporter" (rewards s) in
  let '(rid, w) := create_cleanup_report clk_c rnd report (engine s) in
  ({| result_points := pts; result_total_points := total;
      cleanup_report_id := rid |},
   {| reports_file := book; rewards := ledger; engine := w |}).

(** The team of a task, as [verify_cleanup] and [mark_completed] look it
    up. *)
Definition team_of_task (rid : string) (w : world) : option team :=
  match find_cleanup rid (load_cleanups w) with
  | Some (_, cleanup) =>
      match assigned_team cleanup with
      | Some tid => snd <$> find_team tid (load_teams w)
      | None => None
      end
  | None => None
  end.

(** [# Award points to team members], for the team of the task. *)
Definition reward_team (clks : nat → clock) (rid : string) (w : world)
    (l : Rewards.ledger) : Rewards.ledger :=
  match team_of_task rid w with
  | Some t => Rewards.award_members clks (members t) l
  | None => l
  end.

(** The requests that write one of the books: the form handlers, and the
    two pages that call [get_user_stats] ([dashboard] and
    [user_rewards]). *)
Inductive visit :=
  | Upload (clk_r clk_a clk_c : clock) (rnd : Z)
      (fname nm em lat lon loc : string) (sc : Z) (text : string)
  | UserRewardsPage (clk : clock) (em : string)
  | CreateTeamForm (strip : string → string) (clk : clock) (rnd : Z)
      (nm leader : string) (entries : list string)
  | UpdateStatusForm (strip : string → string) (clk : clock)
      (rid : string) (st : option string) (notes : string)
  | AssignTeamForm (clk : clock) (rid : string) (tid : option string)
  | VerifyCleanupForm (ext : collaborators) (clk : clock)
      (clks : nat → clock) (rid em notes : string) (uploads : list string)
  | MarkCompletedForm (clk : clock) (clks : nat → clock) (rid : string).

Definition serve (v : visit) (s : site) : site :=
  match v with
  | Upload clk_r clk_a clk_c rnd fname nm em lat lon loc sc text =>
      (upload clk_r clk_a clk_c rnd fname nm em lat lon loc sc text s).2
  | UserRewardsPage clk em =>
      {| reports_file := reports_file s;
         rewards := (Rewards.get_user_stats clk em (rewards s)).2;
         engine := engine s |}
  | CreateTeamForm strip clk rnd nm leader entries =>
      {| reports_file := reports_file s; rewards := rewards s;
         engine :=
           (create_team_form strip clk rnd nm leader entries (engine s)).2 |}
  | UpdateStatusForm strip clk rid st notes =>
      {| reports_file := reports_file s; rewards := rewards s;
         engine := (update_status strip clk rid st notes (engine s)).2 |}
  | AssignTeamForm clk rid tid =>
      {| reports_file := reports_file s; rewards := rewards s;
         engine := (assign_team clk rid tid (engine s)).2 |}
  | VerifyCleanupForm ext clk clks rid em notes uploads =>
      let '(answer, w) :=
        verify_cleanup ext clk rid em notes uploads (engine s) in
      {| reports_file := reports_file s;
         rewards := match answer with
                    | VerificationSuccessful =>
                        reward_team clks rid (engine s) (rewards s)
                    | _ => rewards s
                    end;
         engine := w |}
  | MarkCompletedForm clk clks rid =>
      let '(answer, w) := mark_completed clk rid (engine s) in
      {| reports_file := reports_file s;
         rewards := match answer with
                    | MarkedCompleted =>
                        reward_team clks rid (engine s) (rewards s)
                    | _ => rewards s
                    end;
         engine := w |}
  end.

Definition visits (vs : list visit) (s : site) : site :=
  foldl (λ s v, serve v s) s vs.

(** The reports a visit files. *)
Definition uploaded (v : visit) : list report :=
  match v with
  | Upload clk_r _ _ _ fname nm em lat lon loc sc text =>
      [new_report clk_r fname lat lon loc sc text nm em
         (PollutionAnalyzer.calculate_points sc)]
  | _ => []
  end.

(** The books when the application starts on empty files. *)
Definition new_site : site :=
  {| reports_file := []; rewards := Rewards.initial; engine := initial |}.

(** Visits for the examples: a team is formed and a report of score 82
    is uploaded, which the engine assigns to the team. *)
Definition sample_visits : list visit :=
  [ CreateTeamForm (λ s, s) (sample_clock 0) 1111 "Tide" "lea@example.org"
      ["lea@example.org"; "bob@example.org"];
    Upload (sample_clock 10) (sample_clock 11) (sample_clock 12) 2222
      "ann_beach.jpg" "ann" "ann@example.org" "12.9" "80.2" "Marina" 82
      "plastic waste" ].

(** ** What the properties of the books speak of *)

(** What holds of every entry the manager writes. *)
Definition entry_adds_up (u : Reports.user) : Prop :=
  Reports.total_points u = foldr Z.add 0 (points <$> Reports.reports u) ∧
  Forall (λ r, reporter_email r = Reports.email u) (Reports.reports u) ∧
  Reports.reports u ≠ [].

(** The level and the title are those of the points. *)
Definition level_in_step (u : Rewards.user_rewards) : Prop :=
  Rewards.level u = Rewards.total_points u `div` 100 + 1 ∧
  Rewards.title u = Rewards._get_title_for_level (Rewards.level u).

(** The total is the sum of the two categories. *)
Definition sums_up (u : Rewards.user_rewards) : Prop :=
  Rewards.total_points u =
    Rewards.reporter_points u + Rewards.cleanup_points u.

(** The user holds the badges on offer that they qualify for, and no
    other. *)
Definition holds_what_qualifies (u : Rewards.user_rewards) : Prop :=
  ∀ b, b ∈ Rewards.default_badges →
    Rewards.badge_id b ∈ Rewards.badges u ↔
    Rewards._qualifies_for_badge u b = true.

(** The same, badge by badge: the thresholds of [_qualifies_for_badge]. *)
Definition holds_at_threshold (u : Rewards.user_rewards) : Prop :=
  ("first_report" ∈ Rewards.badges u ↔ 10 ≤ Rewards.reporter_points u) ∧
  ("reporter_10" ∈ Rewards.badges u ↔ 50 ≤ Rewards.reporter_points u) ∧
  ("reporter_50" ∈ Rewards.badges u ↔ 150 ≤ Rewards.reporter_points u) ∧
  ("first_cleanup" ∈ Rewards.badges u ↔ 25 ≤ Rewards.cleanup_points u) ∧
  ("cleanup_10" ∈ Rewards.badges u ↔ 100 ≤ Rewards.cleanup_points u) ∧
  ("cleanup_50" ∈ Rewards.badges u ↔ 300 ≤ Rewards.cleanup_points u) ∧
  ("environmentalist" ∈ Rewards.badges u ↔ 500 ≤ Rewards.total_points u).

(** What holds of every user of the ledger of a site. *)
Definition in_order (u : Rewards.user_rewards) : Prop :=
  sums_up u ∧ holds_at_threshold u ∧ level_in_step u ∧
  1 ≤ Rewards.level u ∧
  0 ≤ Rewards.reporter_points u ∧ 0 ≤ Rewards.cleanup_points u.

(** What [create_user] answers: nothing when an account has the e-mail,
    and otherwise the new account, added at the end. *)
Definition create_user_result (clk : Auth.clock) (un e pw ut : string)
    (users : list Auth.account) : Prop :=
  (Auth.create_user clk un e pw ut users = (None, users) ∧
   ∃ a, a ∈ users ∧ Auth.email a = e) ∨
  ((∀ a, a ∈ users → Auth.email a ≠ e) ∧
   ∃ a, Auth.create_user clk un e pw ut users
          = (Some (Auth.from_dict a), users ++ [a]) ∧
     a = {| Auth.user_id := "user_" +:+ Auth.strftime_micro (clk 0%nat);
            Auth.username := un; Auth.email := e;
            Auth.password_hash := pw; Auth.user_type := ut;
            Auth.created_at := Auth.isoformat (clk 1%nat);
            Auth.last_login := Auth.isoformat (clk 2%nat);
            Auth.is_active := true |}).

(** Every account of [users] is still at its place in [users']. *)
Definition accounts_kept (users users' : list Auth.account) : Prop :=
  ∀ i a, users !! i = Some a →
    ∃ a', users' !! i = Some a' ∧ Auth.same_account a a'.

(** The task [rid] of the site [s] has its team on file, and in [s'] every
    member of that team is in the ledger with at least 25 cleanup points
    and the badge "first_cleanup". *)
Definition team_rewarded (rid : string) (s s' : site) : Prop :=
  ∃ i c tid j t,
    find_cleanup rid (cleanups_file (engine s)) = Some (i, c) ∧
    assigned_team c = Some tid ∧
    find_team tid (teams_file (engine s)) = Some (j, t) ∧
    ∀ m, m ∈ members t →
      ∃ u, u ∈ Rewards.rewards_file (rewards s') ∧
        Rewards.email u = m ∧ 25 ≤ Rewards.cleanup_points u ∧
        "first_cleanup" ∈ Rewards.badges u.

(** * Properties *)

(** ** The order of the keys *)

Lemma key_gt_true a b : key_gt a b = true ↔ key_lt b a.
Proof.
  unfold key_gt, key_lt. destruct (Qeq_bool a.1 b.1) eqn:E.
  - apply Qeq_bool_iff in E. rewrite Z.ltb_lt. split.
    + intros H. right. split; [by symmetry | done].
    + intros [H | [_ H]]; [| done].
      rewrite E in H. by apply Qlt_irrefl in H.
  - apply Qeq_bool_neq in E. rewrite negb_true_iff.
    split.
    + intros H. left. apply Qnot_le_lt. intros Hle.
      apply Qle_bool_iff in Hle. congruence.
    + intros [H | [H _]]; [| by destruct E].
      destruct (Qle_bool a.1 b.1) eqn:Hle; [| done].
      apply Qle_bool_iff in Hle. by apply Qlt_not_le in H.
Qed.

Lemma key_gt_false a b : key_gt a b = false ↔ key_le a b.
Proof.
  rewrite <- not_true_iff_false, key_gt_true. unfold key_lt, key_le.
  destruct (Q_dec a.1 b.1) as [[H | H] | H].
  - split; [by left |]. intros _ [H' | [H' _]].
    + by apply (Qlt_irrefl a.1), (Qlt_trans _ b.1).
    + rewrite H' in H. by apply Qlt_irrefl in H.
  - split; [| intros [H' | [H' _]]].
    + intros Hn. destruct Hn. by left.
    + by destruct (Qlt_irrefl a.1); apply (Qlt_trans _ b.1).
    + rewrite H' in H. by apply Qlt_irrefl in H.
  - split.
    + intros Hn. right. split; [done |].
      destruct (Z_le_gt_dec a.2 b.2); [done |].
      destruct Hn. right. split; [by symmetry | lia].
    + intros [H' | [_ H']] [H'' | [_ H'']]; try lia.
      * rewrite H in H'. by apply Qlt_irrefl in H'.
      * rewrite H in H'. by apply Qlt_irrefl in H'.
      * rewrite H in H''. by apply Qlt_irrefl in H''.
Qed.

Lemma key_lt_le a b : key_lt a b → key_le a b.
Proof. intros [H | [H1 H2]]; [by left | right; split; [done | lia]]. Qed.

Lemma key_le_refl a : key_le a a.
Proof. right. split; [reflexivity | lia]. Qed.

Lemma key_le_lt_trans a b c : key_le a b → key_lt b c → key_lt a c.
Proof.
  intros [H | [H1 H2]] [H' | [H1' H2']].
  - left. by apply (Qlt_trans _ b.1).
  - left. by rewrite <- H1'.
  - left. by rewrite H1.
  - right. split; [by rewrite H1 | lia].
Qed.

Lemma key_lt_trans a b c : key_lt a b → key_lt b c → key_lt a c.
Proof. intros H. apply key_le_lt_trans. by apply key_lt_le. Qed.

(** ** [max] returns the first item with the greatest key *)

Lemma max_from_split {A} (key : A → Q * Z) items :
  ∀ pre best post,
    (∀ y, y ∈ pre → key_lt (key y) (key best)) →
    (∀ y, y ∈ post → key_le (key y) (key best)) →
    ∃ l1 l2,
      pre ++ best :: post ++ items = l1 ++ max_from key best items :: l2 ∧
      (∀ y, y ∈ l1 → key_lt (key y) (key (max_from key best items))) ∧
      (∀ y, y ∈ l2 → key_le (key y) (key (max_from key best items))).
Proof.
  induction items as [| x items IH]; intros pre best post Hpre Hpost; simpl.
  - exists pre, post. by rewrite app_nil_r.
  - destruct (key_gt (key x) (key best)) eqn:Hx.
    + apply key_gt_true in Hx.
      destruct (IH (pre ++ best :: post) x []) as (l1 & l2 & Heq & H1 & H2).
      * intros y [Hy | Hy]%elem_of_app.
        -- by apply (key_lt_trans _ (key best)); [apply Hpre |].
        -- apply elem_of_cons in Hy as [-> | Hy]; [done |].
           by apply (key_le_lt_trans _ (key best)); [apply Hpost |].
      * by intros y Hy%elem_of_nil.
      * exists l1, l2. split; [| done].
        rewrite <- Heq. by rewrite <- !app_assoc.
    + apply key_gt_false in Hx.
      destruct (IH pre best (post ++ [x])) as (l1 & l2 & Heq & H1 & H2).
      * done.
      * intros y [Hy | Hy]%elem_of_app; [by apply Hpost |].
        by apply list_elem_of_singleton in Hy as ->.
      * exists l1, l2. split; [| done].
        rewrite <- Heq. by rewrite <- !app_assoc.
Qed.

Lemma py_max_split {A} (key : A → Q * Z) items m :
  py_max key items = Some m →
  ∃ l1 l2, items = l1 ++ m :: l2 ∧
    (∀ y, y ∈ l1 → key_lt (key y) (key m)) ∧
    (∀ y, y ∈ l2 → key_le (key y) (key m)).
Proof.
  destruct items as [| x rest]; [done |]. intros [= <-].
  destruct (max_from_split key rest [] x []) as (l1 & l2 & Heq & H1 & H2);
    [by intros y Hy%elem_of_nil.. |].
  by exists l1, l2.
Qed.

(** ** The available teams, in the order of the file *)

Lemma elem_of_available_teams teams j t :
  (j, t) ∈ available_teams teams ↔
  teams !! j = Some t ∧ team_status t = "available".
Proof.
  unfold available_teams. rewrite list_elem_of_filter, elem_of_lookup_imap.
  split.
  - intros [Hst (i & x & [= -> ->] & Hl)]. done.
  - intros [Hl Hst]. split; [done |]. by exists j, t.
Qed.

Lemma available_teams_sorted teams :
  StronglySorted by_position (available_teams teams).
Proof.
  unfold available_teams.
  assert (∀ k, StronglySorted by_position
    (filter (λ jt : nat * team, team_status jt.2 = "available")
       (imap (λ i t, ((k + i)%nat, t)) teams))) as H.
  { induction teams as [| t teams IH]; intros k; [constructor |].
    rewrite imap_cons.
    assert (imap ((λ i t0, ((k + i)%nat, t0)) ∘ S) teams
            = imap (λ i t0, ((S k + i)%nat, t0)) teams) as ->.
    { apply imap_ext. intros i x _. simpl. f_equal. lia. }
    rewrite filter_cons. case_decide.
    - constructor; [apply IH |].
      apply Forall_forall. intros [j x] [_ Hin]%list_elem_of_filter.
      apply elem_of_lookup_imap in Hin as (i & y & [= -> ->] & _).
      unfold by_position. simpl. lia.
    - apply IH. }
  apply (H 0%nat).
Qed.

Lemma available_teams_before teams l1 j b l2 i t :
  available_teams teams = l1 ++ (j, b) :: l2 →
  teams !! i = Some t → team_status t = "available" → (i < j)%nat →
  (i, t) ∈ l1.
Proof.
  intros Heq Hl Hst Hlt.
  assert ((i, t) ∈ available_teams teams) as Hin
    by by apply elem_of_available_teams.
  pose proof (available_teams_sorted teams) as Hs.
  rewrite Heq in Hin, Hs.
  apply elem_of_app in Hin as [Hin | Hin]; [done |].
  apply StronglySorted_app in Hs as (_ & _ & Hs).
  apply StronglySorted_cons in Hs as [Hs _].
  apply elem_of_cons in Hin as [[= -> ->] | Hin]; [lia |].
  rewrite Forall_forall in Hs. apply Hs in Hin.
  unfold by_position in Hin. simpl in Hin. lia.
Qed.

(** ** Auto-assignment *)

Lemma available_teams_nil teams :
  (∀ t, t ∈ teams → team_status t ≠ "available") →
  available_teams teams = [].
Proof.
  intros Hno. destruct (available_teams teams) as [| [j t] l] eqn:E; [done |].
  assert ((j, t) ∈ available_teams teams) as Hin by (rewrite E; left).
  apply elem_of_available_teams in Hin as [Hl Hst].
  by apply list_elem_of_lookup_2, Hno in Hl.
Qed.

Lemma auto_assign_team_no_team clk rid w :
  available_teams (teams_file w) = [] →
  auto_assign_team clk rid w = (None, w).
Proof.
  intros E. unfold auto_assign_team, load_teams, load_cleanups.
  rewrite E. simpl. by destruct (find_cleanup _ _) as [[]|].
Qed.

Lemma auto_assign_team_found clk rid w i c j b :
  find_cleanup rid (cleanups_file w) = Some (i, c) →
  py_max (λ jt : nat * team, team_key jt.2)
    (available_teams (teams_file w)) = Some (j, b) →
  auto_assign_team clk rid w =
    (Some (team_id b),
     {| cleanups_file :=
          <[i := c |> set_assigned_team (Some (team_id b))
                   |> set_assigned_date (Some (isoformat (clk 0%nat)))
                   |> set_status CleanupStatus.IN_PROGRESS
                   |> set_updated_at (Some (isoformat (clk 1%nat)))]>
            (cleanups_file w);
        teams_file :=
          <[j := b |> set_team_status "busy"
                   |> set_current_task (Some rid)
                   |> set_last_activity (isoformat (clk 2%nat))]>
            (teams_file w) |}).
Proof.
  intros Hc Hm. unfold auto_assign_team, load_teams, load_cleanups.
  by rewrite Hc, Hm.
Qed.

(** C3.  Auto-assignment picks, among the teams whose status is
    "available", one whose key (rating, total_cleanups) is greatest in the
    lexicographic order, and of those the first in the file; the task
    goes to "in_progress" with that team, the team to "busy" with that
    task.  With no available team the call returns [None] and leaves both
    files as they were, so a pending task stays pending.  On the pool
    A(5,10), B(5,20), C(4,100) the choice is B. *)
Theorem auto_assign_team_selects_greatest_key clk rid w :
  ((∀ t, t ∈ teams_file w → team_status t ≠ "available") →
     auto_assign_team clk rid w = (None, w)) ∧
  (∀ i c t0,
     find_cleanup rid (cleanups_file w) = Some (i, c) →
     t0 ∈ teams_file w → team_status t0 = "available" →
     ∃ j b c' b',
       teams_file w !! j = Some b ∧ team_status b = "available" ∧
       (∀ k t, teams_file w !! k = Some t → team_status t = "available" →
               key_le (team_key t) (team_key b)) ∧
       (∀ k t, teams_file w !! k = Some t → team_status t = "available" →
               (k < j)%nat → key_lt (team_key t) (team_key b)) ∧
       (auto_assign_team clk rid w).1 = Some (team_id b) ∧
       cleanups_file (auto_assign_team clk rid w).2 !! i = Some c' ∧
       status c' = "in_progress" ∧ assigned_team c' = Some (team_id b) ∧
       teams_file (auto_assign_team clk rid w).2 !! j = Some b' ∧
       team_id b' = team_id b ∧
       team_status b' = "busy" ∧ current_task b' = Some rid) ∧
  (auto_assign_team (sample_clock 0) "t1"
     {| cleanups_file := [sample_task "t1" "pending" None "" []];
        teams_file := pool_ABC |}).1 = Some "B".
Proof.
  split; [| split].
  - intros Hno. by apply auto_assign_team_no_team, available_teams_nil.
  - intros i c t0 Hc Ht0 Hst0.
    destruct (py_max (λ jt : nat * team, team_key jt.2)
                (available_teams (teams_file w))) as [[j b] |] eqn:Hm.
    2:{ destruct (available_teams (teams_file w)) as [| x l] eqn:E; [| done].
        apply list_elem_of_lookup_1 in Ht0 as [k Hk].
        assert ((k, t0) ∈ available_teams (teams_file w)) as Hin
          by by apply elem_of_available_teams.
        rewrite E in Hin. by apply elem_of_nil in Hin. }
    destruct (py_max_split _ _ _ Hm) as (l1 & l2 & Heq & H1 & H2).
    assert ((j, b) ∈ available_teams (teams_file w)) as Hin.
    { rewrite Heq. apply elem_of_app. right. left. }
    apply elem_of_available_teams in Hin as [Hj Hb].
    apply list_find_Some in Hc as Hc'. destruct Hc' as (Hi & _ & _).
    rewrite (auto_assign_team_found clk rid w i c j b Hc Hm). simpl.
    exists j, b,
      (c |> set_assigned_team (Some (team_id b))
         |> set_assigned_date (Some (isoformat (clk 0%nat)))
         |> set_status CleanupStatus.IN_PROGRESS
         |> set_updated_at (Some (isoformat (clk 1%nat)))),
      (b |> set_team_status "busy"
         |> set_current_task (Some rid)
         |> set_last_activity (isoformat (clk 2%nat))).
    split_and!; try done.
    + intros k t Hk Hst.
      assert ((k, t) ∈ available_teams (teams_file w)) as Hkt
        by by apply elem_of_available_teams.
      rewrite Heq in Hkt. apply elem_of_app in Hkt as [Hkt | Hkt].
      * apply key_lt_le. by apply (H1 (k, t)).
      * apply elem_of_cons in Hkt as [[= -> ->] | Hkt];
          [apply key_le_refl | by apply (H2 (k, t))].
    + intros k t Hk Hst Hlt. apply (H1 (k, t)).
      by eapply available_teams_before.
    + apply list_lookup_insert_eq. by eapply lookup_lt_Some.
    + apply list_lookup_insert_eq. by eapply lookup_lt_Some.
  - vm_compute. reflexivity.
Qed.

Lemma auto_assign_team_selects_greatest_key_witness :
  auto_assign_team (sample_clock 0) "t1"
    {| cleanups_file := [sample_task "t1" "pending" None "" []];
       teams_file := [sample_team "A" 5 10 "busy" (Some "t0")] |}
  = (None,
     {| cleanups_file := [sample_task "t1" "pending" None "" []];
        teams_file := [sample_team "A" 5 10 "busy" (Some "t0")] |}) ∧
  ∃ j b, pool_ABC !! j = Some b ∧ team_id b = "B" ∧
    (auto_assign_team (sample_clock 0) "t1"
       {| cleanups_file := [sample_task "t1" "pending" None "" []];
          teams_file := pool_ABC |}).1 = Some (team_id b).
Proof.
  split.
  - apply (auto_assign_team_selects_greatest_key (sample_clock 0) "t1").
    simpl. intros t Ht. apply list_elem_of_singleton in Ht as ->. done.
  - destruct (auto_assign_team_selects_greatest_key (sample_clock 0) "t1"
      {| cleanups_file := [sample_task "t1" "pending" None "" []];
         teams_file := pool_ABC |}) as (_ & H & _).
    destruct (H 0%nat (sample_task "t1" "pending" None "" [])
                (sample_team "A" 5 10 "available" None))
      as (j & b & c' & b' & Hj & Hb & Hle & Hlt & Hr & _).
    + reflexivity.
    + simpl. left.
    + reflexivity.
    + exists j, b. split; [done |]. split; [| done].
      vm_compute in Hr. injection Hr as Hr. by symmetry.
Defined.

(** ** Lookups after an update in place *)

Lemma list_find_insert_same {A} (P : A → Prop) `{∀ x, Decision (P x)}
    (l : list A) i x y :
  list_find P l = Some (i, x) → P y →
  list_find P (<[i:=y]> l) = Some (i, y).
Proof.
  intros (Hi & Hx & Hleast)%list_find_Some Hy. apply list_find_Some.
  split_and!; [| done |].
  - apply list_lookup_insert_eq. by eapply lookup_lt_Some.
  - intros k z Hk Hlt. rewrite list_lookup_insert_ne in Hk by lia.
    by eapply Hleast.
Qed.

Lemma find_cleanup_lookup rid cleanups i c :
  find_cleanup rid cleanups = Some (i, c) →
  cleanups !! i = Some c ∧ report_id c = rid.
Proof. by intros (? & ? & _)%list_find_Some. Qed.

Lemma find_team_lookup tid teams j t :
  find_team tid teams = Some (j, t) →
  teams !! j = Some t ∧ team_id t = tid.
Proof. by intros (? & ? & _)%list_find_Some. Qed.

Lemma lookup_insert_found {A} (l : list A) i x y :
  l !! i = Some x → <[i:=y]> l !! i = Some y.
Proof. intros H. apply list_lookup_insert_eq. by eapply lookup_lt_Some. Qed.

(** ** The generic status update *)

(** C7 (amended).  For an existing task the status update accepts any
    target status, whatever the current one, and answers [True]; the task
    then has the given status, its photo list is the old list followed by
    the given photos, and its notes are the given notes: the previous
    notes are replaced, not kept. *)
Theorem update_cleanup_status_any_target clk rid st notes photos w i c :
  find_cleanup rid (cleanups_file w) = Some (i, c) →
  (update_cleanup_status clk rid st notes photos w).1 = true ∧
  ∃ c', cleanups_file (update_cleanup_status clk rid st notes photos w).2
          !! i = Some c' ∧
    report_id c' = rid ∧
    status c' = st ∧
    verification_photos c' = verification_photos c ++ given photos ∧
    cleanup_notes c' = notes.
Proof.
  intros Hc. destruct (find_cleanup_lookup _ _ _ _ Hc) as [Hi Hrid].
  unfold update_cleanup_status, load_cleanups, load_teams. rewrite Hc.
  destruct (String.eqb st CleanupStatus.IN_PROGRESS && _);
    [| destruct (String.eqb st CleanupStatus.CLEANED)]; simpl;
    (split; [done |]); eexists; (split; [by eapply lookup_insert_found |]);
    destruct photos as [[| p ps] |]; simpl in *; by rewrite ?app_nil_r.
Qed.

Lemma update_cleanup_status_any_target_witness :
  ∃ c', cleanups_file
          (update_cleanup_status (sample_clock 0) "t1" "verified"
             "checked on site" (Some ["after_1.jpg"])
             {| cleanups_file :=
                  [sample_task "t1" "pending" None "reported" ["old.jpg"]];
                teams_file := [] |}).2 !! 0%nat = Some c' ∧
    status c' = "verified" ∧
    verification_photos c' = ["old.jpg"; "after_1.jpg"] ∧
    cleanup_notes c' = "checked on site".
Proof.
  destruct (update_cleanup_status_any_target (sample_clock 0) "t1" "verified"
              "checked on site" (Some ["after_1.jpg"])
              {| cleanups_file :=
                   [sample_task "t1" "pending" None "reported" ["old.jpg"]];
                 teams_file := [] |} 0%nat
              (sample_task "t1" "pending" None "reported" ["old.jpg"]))
    as (_ & c' & H1 & _ & H2 & H3 & H4); [reflexivity |].
  exists c'. done.
Defined.

(** C7, as stated, fails: a status update whose notes argument is "second
    visit" on a task whose notes were "first visit: nets removed" leaves
    only "second visit". *)
Lemma update_cleanup_status_discards_notes :
  ∃ c',
    cleanups_file
      (update_cleanup_status (sample_clock 0) "t1" "in_progress"
         "second visit" None
         {| cleanups_file :=
              [sample_task "t1" "in_progress" (Some "A")
                 "first visit: nets removed" []];
            teams_file := [sample_team "A" 5 10 "busy" (Some "t1")] |}).2
      !! 0%nat = Some c' ∧
    cleanup_notes c' = "second visit" ∧
    String.prefix "first visit: nets removed" (cleanup_notes c') = false.
Proof. eexists. split; [vm_compute; reflexivity |]. by vm_compute. Qed.

(** ** Entering "cleaned" *)

Lemma truthy_Some s : truthy (Some s) = true ↔ s ≠ "".
Proof. simpl. rewrite negb_true_iff. apply String.eqb_neq. Qed.

Lemma free_up_team_found now c teams tid j t :
  assigned_team c = Some tid → tid ≠ "" →
  find_team tid teams = Some (j, t) →
  free_up_team now c teams =
    <[j := t |> set_team_status "available"
             |> set_current_task None
             |> set_total_cleanups (total_cleanups t + 1)
             |> set_total_points (total_points t + cleanup_points c)
             |> set_last_activity (isoformat now)]> teams.
Proof.
  intros Ha Hne%truthy_Some Ht. unfold free_up_team.
  by rewrite Ha, Hne, Ht.
Qed.

Lemma update_cleanup_status_cleaned clk rid notes photos w i c tid j t :
  find_cleanup rid (cleanups_file w) = Some (i, c) →
  assigned_team c = Some tid → tid ≠ "" →
  find_team tid (teams_file w) = Some (j, t) →
  ∃ c' t',
    (update_cleanup_status clk rid "cleaned" notes photos w).2 =
      {| cleanups_file := <[i:=c']> (cleanups_file w);
         teams_file := <[j:=t']> (teams_file w) |} ∧
    closed_by_manager (clk 1%nat) notes c c' t t' ∧
    report_id c' = report_id c ∧ assigned_team c' = assigned_team c ∧
    pollution_report c' = pollution_report c ∧
    verification_photos c' = verification_photos c ++ given photos.
Proof.
  intros Hc Ha Hne Ht.
  unfold update_cleanup_status, load_cleanups, load_teams. rewrite Hc.
  simpl.
  destruct photos as [[| p ps] |]; simpl;
    (erewrite free_up_team_found; [| by simpl | done | done]);
    simpl; eexists _, _; (split; [reflexivity |]);
    unfold closed_by_manager; simpl; by rewrite ?app_nil_r.
Qed.

Lemma submit_cleanup_verification_accepted
    clk rid email notes photos sc w i c tid j t :
  find_cleanup rid (cleanups_file w) = Some (i, c) →
  assigned_team c = Some tid → tid ≠ "" →
  find_team tid (teams_file w) = Some (j, t) →
  email ∈ members t → sc ≤ 30 →
  ∃ c' t',
    cleanups_file
      (submit_cleanup_verification clk rid email notes photos (Some sc) w).2
      !! i = Some c' ∧
    teams_file
      (submit_cleanup_verification clk rid email notes photos (Some sc) w).2
      !! j = Some t' ∧
    closed_by_manager (clk 1%nat) notes c c' t t' ∧
    verification_photos c' = photos ∧
    (submit_cleanup_verification clk rid email notes photos (Some sc) w).1
    = {| success := true;
         message := "Cleanup verified successfully! Task completed.";
         response_status := Some "cleaned";
         points_awarded := Some (25 + score (pollution_report c) `div` 10);
         response_score := None |}.
Proof.
  intros Hc Ha Hne Ht Hm Hsc.
  destruct (find_cleanup_lookup _ _ _ _ Hc) as [Hi _].
  destruct (find_team_lookup _ _ _ _ Ht) as [Hj _].
  unfold submit_cleanup_verification, load_cleanups, load_teams.
  rewrite Hc. unfold not_assigned_to. rewrite Ha, Ht.
  rewrite (bool_decide_eq_true_2 _ Hm), andb_false_r.
  apply Z.leb_le in Hsc. rewrite Hsc.
  erewrite free_up_team_found; [| by simpl | done | done].
  simpl. eexists _, _.
  split; [by eapply lookup_insert_found |].
  split; [by eapply lookup_insert_found |].
  done.
Qed.

Lemma mark_completed_found clk rid w i c tid j t :
  find_cleanup rid (cleanups_file w) = Some (i, c) →
  assigned_team c = Some tid → tid ≠ "" →
  find_team tid (teams_file w) = Some (j, t) →
  mark_completed clk rid w =
    (MarkedCompleted,
     {| cleanups_file :=
          <[i := c |> set_status CleanupStatus.CLEANED
                   |> set_completion_date (Some (isoformat (clk 0%nat)))
                   |> set_updated_at (Some (isoformat (clk 1%nat)))]>
            (cleanups_file w);
        teams_file :=
          <[j := t |> set_team_status "available"
                   |> set_current_task None
                   |> set_last_activity (isoformat (clk 2%nat))
                   |> set_total_cleanups (total_cleanups t + 1)]>
            (teams_file w) |}).
Proof.
  intros Hc Ha Hne%truthy_Some Ht.
  unfold mark_completed, load_cleanups, load_teams.
  by rewrite Hc, Ha, Hne, Ht.
Qed.

(** ** Two status updates in a row *)

Lemma update_cleanup_status_cleaned_twice clk1 clk2 rid w i c tid j t :
  find_cleanup rid (cleanups_file w) = Some (i, c) →
  assigned_team c = Some tid → tid ≠ "" →
  find_team tid (teams_file w) = Some (j, t) →
  let w1 := (update_cleanup_status clk1 rid "cleaned" "" None w).2 in
  let w2 := (update_cleanup_status clk2 rid "cleaned" "" None w1).2 in
  ∃ c1 t1 c2 t2,
    cleanups_file w1 !! i = Some c1 ∧ teams_file w1 !! j = Some t1 ∧
    cleanups_file w2 !! i = Some c2 ∧ teams_file w2 !! j = Some t2 ∧
    status c2 = status c1 ∧ cleanup_notes c2 = cleanup_notes c1 ∧
    verification_photos c2 = verification_photos c1 ∧
    cleanup_points c2 = cleanup_points c1 ∧
    team_status t2 = team_status t1 ∧ current_task t2 = current_task t1 ∧
    completion_date c1 = Some (isoformat (clk1 1%nat)) ∧
    completion_date c2 = Some (isoformat (clk2 1%nat)) ∧
    total_cleanups t1 = total_cleanups t + 1 ∧
    total_cleanups t2 = total_cleanups t + 2 ∧
    total_points t1 = total_points t + cleanup_points c1 ∧
    total_points t2 = total_points t + 2 * cleanup_points c1.
Proof.
  intros Hc Ha Hne Ht w1 w2.
  destruct (find_cleanup_lookup _ _ _ _ Hc) as [Hi Hrid].
  destruct (find_team_lookup _ _ _ _ Ht) as [Hj Htid].
  destruct (update_cleanup_status_cleaned clk1 rid "" None w i c tid j t)
    as (c1 & t1 & Hw1 & Hcl1 & Hrid1 & Ha1 & Hrep1 & Hph1); try done.
  fold w1 in Hw1.
  destruct Hcl1 as (Hst1 & Hcd1 & Hpt1 & Hn1 & Hid1 & Hts1 & Hct1 & Hn1' & Hp1).
  assert (find_cleanup rid (cleanups_file w1) = Some (i, c1)) as Hc1.
  { rewrite Hw1. simpl. unfold find_cleanup.
    eapply list_find_insert_same; [exact Hc | congruence]. }
  assert (find_team tid (teams_file w1) = Some (j, t1)) as Ht1.
  { rewrite Hw1. simpl. unfold find_team.
    eapply list_find_insert_same; [exact Ht | congruence]. }
  destruct (update_cleanup_status_cleaned clk2 rid "" None w1 i c1 tid j t1)
    as (c2 & t2 & Hw2 & Hcl2 & Hrid2 & Ha2 & Hrep2 & Hph2);
    [done | congruence | done | done |].
  fold w2 in Hw2.
  destruct Hcl2 as (Hst2 & Hcd2 & Hpt2 & Hn2 & Hid2 & Hts2 & Hct2 & Hn2' & Hp2).
  exists c1, t1, c2, t2. rewrite Hw2, Hw1. simpl.
  assert (i < length (cleanups_file w))%nat by by eapply lookup_lt_Some.
  assert (j < length (teams_file w))%nat by by eapply lookup_lt_Some.
  rewrite !list_lookup_insert_eq by (rewrite ?length_insert; done).
  simpl in Hph2. rewrite app_nil_r in Hph2.
  split_and!; try done; try congruence; try lia.
  rewrite Hp2, Hp1, Hpt2, Hpt1, Hrep1. lia.
Qed.

Lemma update_cleanup_status_other_twice clk1 clk2 rid st w i c :
  find_cleanup rid (cleanups_file w) = Some (i, c) →
  st ≠ "cleaned" → isoformat (clk1 1%nat) ≠ "" →
  let w1 := (update_cleanup_status clk1 rid st "" None w).2 in
  let w2 := (update_cleanup_status clk2 rid st "" None w1).2 in
  ∃ c1, cleanups_file w1 !! i = Some c1 ∧
    cleanups_file w2 =
      <[i := set_updated_at (Some (isoformat (clk2 0%nat))) c1]>
        (cleanups_file w1) ∧
    teams_file w2 = teams_file w1.
Proof.
  intros Hc Hst Hclk w1 w2.
  destruct (find_cleanup_lookup _ _ _ _ Hc) as [Hi Hrid].
  apply String.eqb_neq in Hst. apply truthy_Some in Hclk.
  assert (∃ c1, w1 = {| cleanups_file := <[i:=c1]> (cleanups_file w);
                        teams_file := teams_file w |} ∧
            report_id c1 = rid ∧
            set_updated_at (Some (isoformat (clk2 0%nat)))
              (set_cleanup_notes "" (set_status st c1))
            = set_updated_at (Some (isoformat (clk2 0%nat))) c1 ∧
            (String.eqb st CleanupStatus.IN_PROGRESS
             && negb (truthy (start_date c1))) = false)
    as (c1 & Hw1 & Hrid1 & Hsame & Hstart).
  { subst w1. unfold update_cleanup_status, load_cleanups, load_teams.
    rewrite Hc. unfold CleanupStatus.CLEANED. rewrite Hst. simpl.
    destruct (String.eqb st CleanupStatus.IN_PROGRESS) eqn:E; simpl.
    - simpl in Hclk.
      destruct (truthy (start_date c)) eqn:Hsd; simpl;
        eexists; (split; [reflexivity |]); simpl;
        rewrite ?Hclk, ?Hsd; by split_and!.
    - eexists. split; [reflexivity |]. by split_and!. }
  exists c1. rewrite Hw1. simpl.
  split; [by eapply lookup_insert_found |].
  subst w2. unfold update_cleanup_status, load_cleanups, load_teams.
  rewrite Hw1. simpl.
  unfold find_cleanup.
  rewrite (list_find_insert_same _ _ i c c1 Hc Hrid1).
  unfold CleanupStatus.CLEANED. rewrite Hst.
  simpl set_verification_photos.
  change (start_date
            (set_updated_at (Some (isoformat (clk2 0%nat)))
               (set_cleanup_notes "" (set_status st c1))))
    with (start_date c1).
  rewrite Hstart. simpl. by rewrite Hsame.
Qed.

(** C8 (amended).  Two successive status updates with the same target and
    empty notes.  For the target "cleaned", on a task whose assigned team
    is on file: status, notes, photo list and cleanup points of the task,
    and status and current task of the team, are after the second call
    what they were after the first; but the completion date is the second
    call's clock reading, and the team's cleanup count and points have
    been increased by each call.  For any other target the second call
    changes the task's [updated_at] and nothing else. *)
Theorem update_cleanup_status_twice clk1 clk2 rid w i c :
  find_cleanup rid (cleanups_file w) = Some (i, c) →
  (∀ tid j t,
     assigned_team c = Some tid → tid ≠ "" →
     find_team tid (teams_file w) = Some (j, t) →
     let w1 := (update_cleanup_status clk1 rid "cleaned" "" None w).2 in
     let w2 := (update_cleanup_status clk2 rid "cleaned" "" None w1).2 in
     ∃ c1 t1 c2 t2,
       cleanups_file w1 !! i = Some c1 ∧ teams_file w1 !! j = Some t1 ∧
       cleanups_file w2 !! i = Some c2 ∧ teams_file w2 !! j = Some t2 ∧
       status c2 = status c1 ∧ cleanup_notes c2 = cleanup_notes c1 ∧
       verification_photos c2 = verification_photos c1 ∧
       cleanup_points c2 = cleanup_points c1 ∧
       team_status t2 = team_status t1 ∧
       current_task t2 = current_task t1 ∧
       completion_date c1 = Some (isoformat (clk1 1%nat)) ∧
       completion_date c2 = Some (isoformat (clk2 1%nat)) ∧
       total_cleanups t1 = total_cleanups t + 1 ∧
       total_cleanups t2 = total_cleanups t + 2 ∧
       total_points t1 = total_points t + cleanup_points c1 ∧
       total_points t2 = total_points t + 2 * cleanup_points c1) ∧
  (∀ st,
     st ≠ "cleaned" → isoformat (clk1 1%nat) ≠ "" →
     let w1 := (update_cleanup_status clk1 rid st "" None w).2 in
     let w2 := (update_cleanup_status clk2 rid st "" None w1).2 in
     ∃ c1, cleanups_file w1 !! i = Some c1 ∧
       cleanups_file w2 =
         <[i := set_updated_at (Some (isoformat (clk2 0%nat))) c1]>
           (cleanups_file w1) ∧
       teams_file w2 = teams_file w1).
Proof.
  intros Hc. split.
  - intros tid j t Ha Hne Ht.
    by apply (update_cleanup_status_cleaned_twice clk1 clk2 rid w i c tid j t).
  - intros st Hst Hclk.
    by apply (update_cleanup_status_other_twice clk1 clk2 rid st w i c).
Qed.

Lemma update_cleanup_status_twice_witness :
  (∃ c2 t2,
     cleanups_file
       (update_cleanup_status (sample_clock 10) "t1" "cleaned" "" None
          (update_cleanup_status (sample_clock 0) "t1" "cleaned" "" None
             {| cleanups_file :=
                  [sample_task "t1" "in_progress" (Some "A") "" []];
                teams_file := [sample_team "A" 5 10 "busy" (Some "t1")] |}).2
       ).2 !! 0%nat = Some c2 ∧
     teams_file
       (update_cleanup_status (sample_clock 10) "t1" "cleaned" "" None
          (update_cleanup_status (sample_clock 0) "t1" "cleaned" "" None
             {| cleanups_file :=
                  [sample_task "t1" "in_progress" (Some "A") "" []];
                teams_file := [sample_team "A" 5 10 "busy" (Some "t1")] |}).2
       ).2 !! 0%nat = Some t2 ∧
     completion_date c2 = Some "2025-06-01T10:00:00.11" ∧
     total_cleanups t2 = 12) ∧
  teams_file
    (update_cleanup_status (sample_clock 10) "t1" "in_progress" "" None
       (update_cleanup_status (sample_clock 0) "t1" "in_progress" "" None
          {| cleanups_file :=
               [sample_task "t1" "in_progress" (Some "A") "" []];
             teams_file := [sample_team "A" 5 10 "busy" (Some "t1")] |}).2
    ).2
  = teams_file
      (update_cleanup_status (sample_clock 0) "t1" "in_progress" "" None
         {| cleanups_file :=
              [sample_task "t1" "in_progress" (Some "A") "" []];
            teams_file := [sample_team "A" 5 10 "busy" (Some "t1")] |}).2.
Proof.
  destruct (update_cleanup_status_twice (sample_clock 0) (sample_clock 10)
              "t1"
              {| cleanups_file :=
                   [sample_task "t1" "in_progress" (Some "A") "" []];
                 teams_file := [sample_team "A" 5 10 "busy" (Some "t1")] |}
              0%nat (sample_task "t1" "in_progress" (Some "A") "" []))
    as [Hcleaned Hother]; [reflexivity |].
  split.
  - destruct (Hcleaned "A" 0%nat (sample_team "A" 5 10 "busy" (Some "t1")))
      as (c1 & t1 & c2 & t2 & _ & _ & Hc2 & Ht2 & H);
      [reflexivity | done | reflexivity |].
    exists c2, t2. split; [exact Hc2 |]. split; [exact Ht2 |].
    destruct H as (_ & _ & _ & _ & _ & _ & _ & Hcd & _ & Hn & _).
    split; [exact Hcd | exact Hn].
  - destruct (Hother "in_progress") as (c1 & _ & _ & Hteams);
      [done | done |].
    exact Hteams.
Defined.

(** C8, as stated, fails: after a second status update to "cleaned" with
    empty notes, issued 10 microseconds after the first, the completion
    date is the later reading and the team's counters stand at two
    cleanups and 66 points where one call leaves one cleanup and 33. *)
Lemma update_cleanup_status_not_idempotent :
  let w := {| cleanups_file :=
                [sample_task "t1" "in_progress" (Some "A") "" []];
              teams_file := [sample_team "A" 5 0 "busy" (Some "t1")] |} in
  let w1 := (update_cleanup_status (sample_clock 0) "t1" "cleaned" "" None
               w).2 in
  let w2 := (update_cleanup_status (sample_clock 10) "t1" "cleaned" "" None
               w1).2 in
  (completion_date <$> cleanups_file w1 !! 0%nat)
    = Some (Some "2025-06-01T10:00:00.1") ∧
  (completion_date <$> cleanups_file w2 !! 0%nat)
    = Some (Some "2025-06-01T10:00:00.11") ∧
  (total_cleanups <$> teams_file w1 !! 0%nat) = Some 1 ∧
  (total_cleanups <$> teams_file w2 !! 0%nat) = Some 2 ∧
  (total_points <$> teams_file w1 !! 0%nat) = Some 33 ∧
  (total_points <$> teams_file w2 !! 0%nat) = Some 66.
Proof. by vm_compute. Qed.

(** ** Verification *)

Lemma not_assigned_to_member email c teams tid j t :
  assigned_team c = Some tid → find_team tid teams = Some (j, t) →
  email ∈ members t → not_assigned_to email c teams = false.
Proof.
  intros Ha Ht Hm. unfold not_assigned_to. rewrite Ha, Ht.
  by rewrite (bool_decide_eq_true_2 _ Hm), andb_false_r.
Qed.

Lemma submit_cleanup_verification_rejected
    clk rid email notes photos sc w i c :
  find_cleanup rid (cleanups_file w) = Some (i, c) →
  not_assigned_to email c (teams_file w) = false →
  30 < sc →
  submit_cleanup_verification clk rid email notes photos (Some sc) w =
    ({| success := false;
        message := "Cleanup verification failed. Task continues.";
        response_status := Some "in_progress";
        points_awarded := None;
        response_score := Some sc |},
     {| cleanups_file :=
          <[i := c |> set_cleanup_notes notes
                   |> set_verification_photos photos
                   |> set_updated_at (Some (isoformat (clk 0%nat)))
                   |> set_status "in_progress"
                   |> set_cleanup_notes
                        (notes +:+ newline
                         +:+ "[VERIFICATION FAILED] Score: " +:+ str_int sc
                         +:+ ". Cleanup incomplete, task continues.")]>
            (cleanups_file w);
        teams_file := teams_file w |}).
Proof.
  intros Hc Hok Hsc.
  unfold submit_cleanup_verification, load_cleanups, load_teams.
  rewrite Hc, Hok.
  assert ((sc <=? 30) = false) as -> by by apply Z.leb_gt.
  reflexivity.
Qed.

Lemma submit_cleanup_verification_stores_photos
    clk rid email notes photos sc w i c :
  find_cleanup rid (cleanups_file w) = Some (i, c) →
  not_assigned_to email c (teams_file w) = false →
  ∃ c', cleanups_file
          (submit_cleanup_verification clk rid email notes photos sc w).2
          !! i = Some c' ∧
    verification_photos c' = photos ∧
    updated_at c' = Some (isoformat (clk 0%nat)).
Proof.
  intros Hc Hok. destruct (find_cleanup_lookup _ _ _ _ Hc) as [Hi _].
  unfold submit_cleanup_verification, load_cleanups, load_teams.
  rewrite Hc, Hok.
  destruct sc as [sc |]; [destruct (sc <=? 30) |]; simpl;
    eexists; (split; [by eapply lookup_insert_found |]); done.
Qed.

Lemma save_photos_cons ext rid f fs :
  truthy (head (f :: fs)) = true →
  save_photos ext rid (f :: fs) =
    secure_filename ext ("verification_" +:+ rid +:+ "_" +:+ f)
    :: save_photos ext rid fs.
Proof.
  intros Hf%truthy_Some. unfold save_photos.
  rewrite filter_cons. by case_decide.
Qed.

Lemma verify_cleanup_scored ext clk rid email notes uploads w i c tid j t :
  find_cleanup rid (cleanups_file w) = Some (i, c) →
  assigned_team c = Some tid → tid ≠ "" →
  find_team tid (teams_file w) = Some (j, t) →
  email ∈ members t → truthy (head uploads) = true →
  let photo_paths := save_photos ext rid uploads in
  let results := analyze_cleanup_verification ext <$> photo_paths in
  verify_cleanup ext clk rid email notes uploads w =
    if negb (Qle_bool 30 (avg_score results)) then
      (VerificationSuccessful,
       {| cleanups_file :=
            <[i := c |> set_status CleanupStatus.CLEANED
                     |> set_completion_date (Some (isoformat (clk 0%nat)))
                     |> set_updated_at (Some (isoformat (clk 1%nat)))
                     |> set_verification_photos photo_paths
                     |> set_cleanup_notes notes
                     |> set_verification_analysis (Some results)
                     |> set_cleanup_score (Some (avg_score results))]>
              (cleanups_file w);
          teams_file :=
            <[j := t |> set_team_status "available"
                     |> set_current_task None
                     |> set_last_activity (isoformat (clk 2%nat))
                     |> set_total_cleanups (total_cleanups t + 1)]>
              (teams_file w) |})
    else
      (StillNeedsWork,
       {| cleanups_file :=
            <[i := c |> set_verification_photos photo_paths
                     |> set_cleanup_notes notes
                     |> set_verification_analysis (Some results)
                     |> set_cleanup_score (Some (avg_score results))
                     |> set_updated_at (Some (isoformat (clk 0%nat)))]>
              (cleanups_file w);
          teams_file := teams_file w |}).
Proof.
  intros Hc Ha Hne%truthy_Some Ht Hm Hup photo_paths results.
  unfold verify_cleanup, load_cleanups, load_teams.
  rewrite Hc, Ha, Hne, Ht, (bool_decide_eq_true_2 _ Hm), Hup. simpl.
  destruct uploads as [| f fs]; [done |].
  subst results photo_paths. rewrite (save_photos_cons _ _ _ _ Hup).
  rewrite fmap_cons. by destruct (negb _).
Qed.

Lemma submit_cleanup_verification_by_score
    clk rid email notes photos sc w i c tid j t :
  find_cleanup rid (cleanups_file w) = Some (i, c) →
  assigned_team c = Some tid → tid ≠ "" →
  find_team tid (teams_file w) = Some (j, t) →
  email ∈ members t →
  let w' :=
    (submit_cleanup_verification clk rid email notes photos (Some sc) w).2 in
  ∃ c' t', cleanups_file w' !! i = Some c' ∧ teams_file w' !! j = Some t' ∧
    (30 < sc →
       status c' = "in_progress" ∧ teams_file w' = teams_file w ∧ t' = t ∧
       cleanup_notes c' = notes +:+ failure_note sc) ∧
    (sc ≤ 30 →
       status c' = "cleaned" ∧
       team_status t' = "available" ∧ current_task t' = None).
Proof.
  intros Hc Ha Hne Ht Hm w'.
  destruct (find_cleanup_lookup _ _ _ _ Hc) as [Hi _].
  destruct (find_team_lookup _ _ _ _ Ht) as [Hj _].
  destruct (Z_le_gt_dec sc 30) as [Hsc | Hsc].
  - destruct (submit_cleanup_verification_accepted
                clk rid email notes photos sc w i c tid j t)
      as (c' & t' & Hc' & Ht' & Hcl & _); try done.
    exists c', t'. split; [done |]. split; [done |].
    split; [lia |]. intros _.
    by destruct Hcl as (? & _ & _ & _ & _ & ? & ? & _).
  - subst w'.
    rewrite (submit_cleanup_verification_rejected
               clk rid email notes photos sc w i c) by
      (try done; try lia; by eapply not_assigned_to_member).
    simpl. eexists _, t.
    split; [by eapply lookup_insert_found |]. split; [done |].
    split; [| lia]. intros _. by split_and!.
Qed.

(** The handler [verify_cleanup] draws the line at a mean below 30; when
    it turns a verification down it leaves status and team alone and
    stores the submitted notes as they are, the mean going to the key
    ["cleanup_score"]. *)
Lemma verify_cleanup_still_needs_work
    ext clk rid email notes uploads w i c tid j t :
  find_cleanup rid (cleanups_file w) = Some (i, c) →
  assigned_team c = Some tid → tid ≠ "" →
  find_team tid (teams_file w) = Some (j, t) →
  email ∈ members t → truthy (head uploads) = true →
  let results :=
    analyze_cleanup_verification ext <$> save_photos ext rid uploads in
  (30 <= avg_score results)%Q →
  ∃ c', cleanups_file
          (verify_cleanup ext clk rid email notes uploads w).2 !! i
          = Some c' ∧
    teams_file (verify_cleanup ext clk rid email notes uploads w).2
      = teams_file w ∧
    status c' = status c ∧ cleanup_notes c' = notes ∧
    cleanup_score c' = Some (avg_score results).
Proof.
  intros Hc Ha Hne Ht Hm Hup results Havg.
  destruct (find_cleanup_lookup _ _ _ _ Hc) as [Hi _].
  rewrite (verify_cleanup_scored ext clk rid email notes uploads w i c tid j t)
    by done.
  apply Qle_bool_iff in Havg. fold results. rewrite Havg. simpl.
  eexists. split; [by eapply lookup_insert_found |]. done.
Qed.

Lemma verify_cleanup_successful
    ext clk rid email notes uploads w i c tid j t :
  find_cleanup rid (cleanups_file w) = Some (i, c) →
  assigned_team c = Some tid → tid ≠ "" →
  find_team tid (teams_file w) = Some (j, t) →
  email ∈ members t → truthy (head uploads) = true →
  let results :=
    analyze_cleanup_verification ext <$> save_photos ext rid uploads in
  (avg_score results < 30)%Q →
  ∃ c' t',
    cleanups_file (verify_cleanup ext clk rid email notes uploads w).2 !! i
      = Some c' ∧
    teams_file (verify_cleanup ext clk rid email notes uploads w).2 !! j
      = Some t' ∧
    status c' = "cleaned" ∧
    team_status t' = "available" ∧ current_task t' = None.
Proof.
  intros Hc Ha Hne Ht Hm Hup results Havg.
  destruct (find_cleanup_lookup _ _ _ _ Hc) as [Hi _].
  destruct (find_team_lookup _ _ _ _ Ht) as [Hj _].
  rewrite (verify_cleanup_scored ext clk rid email notes uploads w i c tid j t)
    by done.
  fold results.
  destruct (Qle_bool 30 (avg_score results)) eqn:E.
  { apply Qle_bool_iff in E. by apply Qlt_not_le in Havg. }
  simpl. eexists _, _.
  split; [by eapply lookup_insert_found |].
  split; [by eapply lookup_insert_found |]. done.
Qed.

(** C1.  A verification of a task whose assigned team is on file, handed
    in by a member of that team.

    In the manager, [submit_cleanup_verification] with the score [sc]: for
    [sc > 30] the task is set to "in_progress", the team file is left as
    it was, and the notes are the submitted notes followed by an
    annotation that contains the score.  For [sc <= 30], and so for
    [sc = 30] too, the task is closed and the team released: the
    acceptance test of the manager is [<= 30], where the claim and the
    handler have [< 30].

    In the handler, [verify_cleanup] with the mean [m] of the scores of the
    photos: for [m < 30] the task is closed and the team released; for
    [m >= 30] status and team file are left as they were, and the notes
    are the submitted notes without an annotation, the mean going to the
    key "cleanup_score". *)
Theorem verification_threshold clk rid email notes w i c tid j t :
  find_cleanup rid (cleanups_file w) = Some (i, c) →
  assigned_team c = Some tid → tid ≠ "" →
  find_team tid (teams_file w) = Some (j, t) →
  email ∈ members t →
  (∀ photos sc,
     let w' :=
       (submit_cleanup_verification clk rid email notes photos (Some sc) w).2
     in
     ∃ c' t', cleanups_file w' !! i = Some c' ∧ teams_file w' !! j = Some t' ∧
       (30 < sc →
          status c' = "in_progress" ∧ teams_file w' = teams_file w ∧
          t' = t ∧ cleanup_notes c' = notes +:+ failure_note sc) ∧
       (sc ≤ 30 →
          status c' = "cleaned" ∧
          team_status t' = "available" ∧ current_task t' = None)) ∧
  (∀ ext uploads,
     truthy (head uploads) = true →
     let w' := (verify_cleanup ext clk rid email notes uploads w).2 in
     let m := avg_score (analyze_cleanup_verification ext
                         <$> save_photos ext rid uploads) in
     ∃ c' t', cleanups_file w' !! i = Some c' ∧ teams_file w' !! j = Some t' ∧
       ((30 <= m)%Q →
          status c' = status c ∧ teams_file w' = teams_file w ∧ t' = t ∧
          cleanup_notes c' = notes ∧ cleanup_score c' = Some m) ∧
       ((m < 30)%Q →
          status c' = "cleaned" ∧
          team_status t' = "available" ∧ current_task t' = None)).
Proof.
  intros Hc Ha Hne Ht Hm. split.
  - intros photos sc.
    by apply (submit_cleanup_verification_by_score
                clk rid email notes photos sc w i c tid j t).
  - intros ext uploads Hup w' m.
    destruct (find_team_lookup _ _ _ _ Ht) as [Hj _].
    destruct (Qlt_le_dec m 30) as [Hlt | Hle].
    + destruct (verify_cleanup_successful
                  ext clk rid email notes uploads w i c tid j t)
        as (c' & t' & Hc' & Ht' & H); try done.
      exists c', t'. split; [done |]. split; [done |]. split; [| done].
      intros Hle. by apply Qlt_not_le in Hlt.
    + destruct (verify_cleanup_still_needs_work
                  ext clk rid email notes uploads w i c tid j t)
        as (c' & Hc' & Hts & H); try done.
      exists c', t. split; [done |]. subst w'. rewrite Hts.
      split; [done |]. split.
      * intros _. by destruct H as (? & ? & ?).
      * intros Hlt. by apply Qlt_not_le in Hlt.
Qed.

Lemma verification_threshold_witness :
  ∃ c' t',
    cleanups_file
      (submit_cleanup_verification (sample_clock 0) "t1" "bob@example.org"
         "beach swept" ["after_1.jpg"] (Some 30)
         {| cleanups_file :=
              [sample_task "t1" "in_progress" (Some "A") "" []];
            teams_file := [sample_team "A" 5 10 "busy" (Some "t1")] |}).2
      !! 0%nat = Some c' ∧
    teams_file
      (submit_cleanup_verification (sample_clock 0) "t1" "bob@example.org"
         "beach swept" ["after_1.jpg"] (Some 30)
         {| cleanups_file :=
              [sample_task "t1" "in_progress" (Some "A") "" []];
            teams_file := [sample_team "A" 5 10 "busy" (Some "t1")] |}).2
      !! 0%nat = Some t' ∧
    status c' = "cleaned" ∧
    team_status t' = "available" ∧ current_task t' = None.
Proof.
  destruct (verification_threshold (sample_clock 0) "t1"
              "bob@example.org" "beach swept"
              {| cleanups_file :=
                   [sample_task "t1" "in_progress" (Some "A") "" []];
                 teams_file := [sample_team "A" 5 10 "busy" (Some "t1")] |}
              0%nat (sample_task "t1" "in_progress" (Some "A") "" [])
              "A" 0%nat (sample_team "A" 5 10 "busy" (Some "t1")))
    as [H _];
    [reflexivity | reflexivity | done | reflexivity
    | apply list_elem_of_further, list_elem_of_here |].
  destruct (H ["after_1.jpg"] 30) as (c' & t' & Hc' & Ht' & _ & H30).
  exists c', t'. split; [exact Hc' |]. split; [exact Ht' |].
  apply H30. lia.
Defined.

(** The same call, evaluated: with the score 30 the task is closed and the
    team released; with 31 the task continues, the team stays busy and the
    notes carry the annotation; with 29 the task is closed. *)
Lemma submit_cleanup_verification_at_30 :
  let w := {| cleanups_file :=
                [sample_task "t1" "in_progress" (Some "A") "" []];
              teams_file := [sample_team "A" 5 10 "busy" (Some "t1")] |} in
  let after sc :=
    (submit_cleanup_verification (sample_clock 0) "t1" "bob@example.org"
       "beach swept" ["after_1.jpg"] (Some sc) w).2 in
  (status <$> cleanups_file (after 30) !! 0%nat) = Some "cleaned" ∧
  (team_status <$> teams_file (after 30) !! 0%nat) = Some "available" ∧
  (current_task <$> teams_file (after 30) !! 0%nat) = Some None ∧
  (status <$> cleanups_file (after 31) !! 0%nat) = Some "in_progress" ∧
  (team_status <$> teams_file (after 31) !! 0%nat) = Some "busy" ∧
  (cleanup_notes <$> cleanups_file (after 31) !! 0%nat)
    = Some ("beach swept" +:+ newline +:+
            "[VERIFICATION FAILED] Score: 31. Cleanup incomplete, task continues.") ∧
  (status <$> cleanups_file (after 29) !! 0%nat) = Some "cleaned".
Proof. by vm_compute. Qed.

(** ** Every way into "cleaned" *)

(** C4 (amended).  For a task whose assigned team is on file, each of the
    four ways into "cleaned" (a status update to "cleaned", a verification
    that [submit_cleanup_verification] accepts, a verification that the
    handler [verify_cleanup] accepts, and the handler [mark_completed])
    sets the status and the completion timestamp, sets the team to
    "available" with no current task, and adds 1 to its cleanup count.
    The three that carry notes replace the task's notes by the notes of
    the call; [mark_completed] carries none and leaves the notes.  The
    two ways through the manager store 25 + floor(s/10) cleanup points for
    a report of score s (33 for s = 82) and add them to the team's
    points. *)
Theorem entering_cleaned clk rid notes w i c tid j t :
  find_cleanup rid (cleanups_file w) = Some (i, c) →
  assigned_team c = Some tid → tid ≠ "" →
  find_team tid (teams_file w) = Some (j, t) →
  (∀ photos, ∃ c' t',
     cleanups_file
       (update_cleanup_status clk rid "cleaned" notes photos w).2 !! i
       = Some c' ∧
     teams_file
       (update_cleanup_status clk rid "cleaned" notes photos w).2 !! j
       = Some t' ∧
     closed (clk 1%nat) c' t t' ∧
     closed_by_manager (clk 1%nat) notes c c' t t' ∧
     (score (pollution_report c) = 82 → cleanup_points c' = 33)) ∧
  (∀ email photos sc, email ∈ members t → sc ≤ 30 → ∃ c' t',
     cleanups_file
       (submit_cleanup_verification clk rid email notes photos (Some sc) w).2
       !! i = Some c' ∧
     teams_file
       (submit_cleanup_verification clk rid email notes photos (Some sc) w).2
       !! j = Some t' ∧
     closed (clk 1%nat) c' t t' ∧
     closed_by_manager (clk 1%nat) notes c c' t t' ∧
     (score (pollution_report c) = 82 → cleanup_points c' = 33)) ∧
  (∀ ext email uploads,
     email ∈ members t → truthy (head uploads) = true →
     (avg_score (analyze_cleanup_verification ext
                 <$> save_photos ext rid uploads) < 30)%Q →
     ∃ c' t',
       cleanups_file (verify_cleanup ext clk rid email notes uploads w).2
         !! i = Some c' ∧
       teams_file (verify_cleanup ext clk rid email notes uploads w).2
         !! j = Some t' ∧
       closed (clk 0%nat) c' t t' ∧
       cleanup_notes c' = notes) ∧
  (∃ c' t',
     cleanups_file (mark_completed clk rid w).2 !! i = Some c' ∧
     teams_file (mark_completed clk rid w).2 !! j = Some t' ∧
     closed (clk 0%nat) c' t t' ∧
     cleanup_notes c' = cleanup_notes c).
Proof.
  intros Hc Ha Hne Ht.
  destruct (find_cleanup_lookup _ _ _ _ Hc) as [Hi _].
  destruct (find_team_lookup _ _ _ _ Ht) as [Hj _].
  split_and!.
  - intros photos.
    destruct (update_cleanup_status_cleaned clk rid notes photos w i c tid j t)
      as (c' & t' & -> & Hcl & _); try done.
    exists c', t'. simpl.
    split; [by eapply lookup_insert_found |].
    split; [by eapply lookup_insert_found |].
    split; [| split; [done |]].
    + by destruct Hcl as (? & ? & _ & _ & ? & ? & ? & ? & _).
    + intros Hs. destruct Hcl as (_ & _ & -> & _). by rewrite Hs.
  - intros email photos sc Hm Hsc.
    destruct (submit_cleanup_verification_accepted
                clk rid email notes photos sc w i c tid j t)
      as (c' & t' & Hc' & Ht' & Hcl & _); try done.
    exists c', t'. split; [done |]. split; [done |].
    split; [| split; [done |]].
    + by destruct Hcl as (? & ? & _ & _ & ? & ? & ? & ? & _).
    + intros Hs. destruct Hcl as (_ & _ & -> & _). by rewrite Hs.
  - intros ext email uploads Hm Hup Havg.
    rewrite (verify_cleanup_scored ext clk rid email notes uploads w
               i c tid j t) by done.
    destruct (Qle_bool 30 _) eqn:E.
    { apply Qle_bool_iff in E. by apply Qlt_not_le in Havg. }
    simpl. eexists _, _.
    split; [by eapply lookup_insert_found |].
    split; [by eapply lookup_insert_found |]. done.
  - rewrite (mark_completed_found clk rid w i c tid j t) by done. simpl.
    eexists _, _.
    split; [by eapply lookup_insert_found |].
    split; [by eapply lookup_insert_found |]. done.
Qed.

Lemma entering_cleaned_witness :
  ∃ c' t',
    cleanups_file
      (update_cleanup_status (sample_clock 0) "t1" "cleaned" "all clear" None
         {| cleanups_file :=
              [sample_task "t1" "in_progress" (Some "A") "" []];
            teams_file := [sample_team "A" 5 10 "busy" (Some "t1")] |}).2
      !! 0%nat = Some c' ∧
    teams_file
      (update_cleanup_status (sample_clock 0) "t1" "cleaned" "all clear" None
         {| cleanups_file :=
              [sample_task "t1" "in_progress" (Some "A") "" []];
            teams_file := [sample_team "A" 5 10 "busy" (Some "t1")] |}).2
      !! 0%nat = Some t' ∧
    cleanup_points c' = 33 ∧ total_cleanups t' = 11 ∧
    team_status t' = "available".
Proof.
  destruct (entering_cleaned (sample_clock 0) "t1" "all clear"
              {| cleanups_file :=
                   [sample_task "t1" "in_progress" (Some "A") "" []];
                 teams_file := [sample_team "A" 5 10 "busy" (Some "t1")] |}
              0%nat (sample_task "t1" "in_progress" (Some "A") "" [])
              "A" 0%nat (sample_team "A" 5 10 "busy" (Some "t1")))
    as (H & _); [reflexivity | reflexivity | done | reflexivity |].
  destruct (H None) as (c' & t' & Hc' & Ht' & Hcl & _ & H82).
  exists c', t'. destruct Hcl as (_ & _ & _ & Hst & _ & Hn).
  split_and!; try done. by apply H82.
Defined.

(** C4, as stated, fails: a status update to "cleaned" with the notes
    "all clear" on a task whose notes were "first visit: nets removed"
    leaves only "all clear". *)
Lemma entering_cleaned_replaces_notes :
  ∃ c',
    cleanups_file
      (update_cleanup_status (sample_clock 0) "t1" "cleaned" "all clear"
         None
         {| cleanups_file :=
              [sample_task "t1" "in_progress" (Some "A")
                 "first visit: nets removed" []];
            teams_file := [sample_team "A" 5 10 "busy" (Some "t1")] |}).2
      !! 0%nat = Some c' ∧
    status c' = "cleaned" ∧
    cleanup_notes c' = "all clear" ∧
    String.prefix "first visit: nets removed" (cleanup_notes c') = false.
Proof.
  eexists. split; [vm_compute; reflexivity |]. by vm_compute.
Qed.

(** The points of the task are where the ways into "cleaned" part: on a
    task of report score 82 the manager stores 33 cleanup points and adds
    them to the team's points, where [mark_completed] stores none and adds
    none (the two point formulas for the one event "cleanup completed").
    C4 as amended says nothing of the points on the handlers' side. *)
Lemma cleanup_points_manager_and_handler :
  let w := {| cleanups_file :=
                [sample_task "t1" "in_progress" (Some "A") "" []];
              teams_file := [sample_team "A" 5 10 "busy" (Some "t1")] |} in
  let by_manager :=
    (update_cleanup_status (sample_clock 0) "t1" "cleaned" "" None w).2 in
  let by_handler := (mark_completed (sample_clock 0) "t1" w).2 in
  (cleanup_points <$> cleanups_file by_manager !! 0%nat) = Some 33 ∧
  (total_points <$> teams_file by_manager !! 0%nat) = Some 33 ∧
  (cleanup_points <$> cleanups_file by_handler !! 0%nat) = Some 0 ∧
  (total_points <$> teams_file by_handler !! 0%nat) = Some 0.
Proof. by vm_compute. Qed.

(** ** Who may submit a verification *)

(** C2.  [submit_cleanup_verification] turns a call away, with a message
    and without writing either file, when the task is not on file, and
    when the task has an assigned team that is not on file or does not
    have the submitter among its members.

    A task without an assigned team is turned away by the handlers
    [verify_cleanup] and [mark_completed] ("No team assigned to this
    cleanup"), which write nothing, as the claim has it.  The manager
    does not turn it away: its test, under the comment "Verify team
    assignment", stands behind [if cleanup["assigned_team"]] and is
    skipped, so the call is not answered "Unauthorized" and the submitted
    photos are stored, whoever submits them. *)
Theorem submit_cleanup_verification_authorization
    clk rid email notes photos sc w :
  (find_cleanup rid (cleanups_file w) = None →
     submit_cleanup_verification clk rid email notes photos sc w
     = (not_found, w)) ∧
  (∀ i c tid,
     find_cleanup rid (cleanups_file w) = Some (i, c) →
     assigned_team c = Some tid → tid ≠ "" →
     (find_team tid (teams_file w) = None ∨
      ∃ j t, find_team tid (teams_file w) = Some (j, t) ∧ email ∉ members t) →
     submit_cleanup_verification clk rid email notes photos sc w
     = (unauthorized, w)) ∧
  (∀ i c ext uploads,
     find_cleanup rid (cleanups_file w) = Some (i, c) →
     assigned_team c = None →
     verify_cleanup ext clk rid email notes uploads w = (NoTeamAssigned, w) ∧
     mark_completed clk rid w = (NoTeamAssigned, w)) ∧
  (∀ i c,
     find_cleanup rid (cleanups_file w) = Some (i, c) →
     assigned_team c = None →
     ∃ c', cleanups_file
             (submit_cleanup_verification clk rid email notes photos sc w).2
             !! i = Some c' ∧
       verification_photos c' = photos ∧
       updated_at c' = Some (isoformat (clk 0%nat)) ∧
       (submit_cleanup_verification clk rid email notes photos sc w).1
       ≠ unauthorized).
Proof.
  split_and!.
  - intros Hc. unfold submit_cleanup_verification, load_cleanups.
    by rewrite Hc.
  - intros i c tid Hc Ha Hne%truthy_Some Hteam.
    unfold submit_cleanup_verification, load_cleanups, load_teams.
    rewrite Hc. unfold not_assigned_to. rewrite Ha, Hne.
    destruct Hteam as [-> | (j & t & -> & Hm)]; [done |].
    by rewrite (bool_decide_eq_false_2 _ Hm).
  - intros i c ext uploads Hc Ha.
    unfold verify_cleanup, mark_completed, load_cleanups, load_teams.
    by rewrite Hc, Ha.
  - intros i c Hc Ha.
    destruct (submit_cleanup_verification_stores_photos
                clk rid email notes photos sc w i c)
      as (c' & Hc' & Hph & Hup); [done | |].
    { unfold not_assigned_to. by rewrite Ha. }
    exists c'. split_and!; try done.
    unfold submit_cleanup_verification, load_cleanups, load_teams.
    rewrite Hc. unfold not_assigned_to. rewrite Ha.
    destruct sc as [sc |]; [destruct (sc <=? 30) |]; by simpl.
Qed.

Lemma submit_cleanup_verification_authorization_witness :
  submit_cleanup_verification (sample_clock 0) "t1" "eve@example.org"
    "done" ["x.jpg"] (Some 10)
    {| cleanups_file := [sample_task "t1" "in_progress" (Some "A") "" []];
       teams_file := [sample_team "A" 5 10 "busy" (Some "t1")] |}
  = (unauthorized,
     {| cleanups_file := [sample_task "t1" "in_progress" (Some "A") "" []];
        teams_file := [sample_team "A" 5 10 "busy" (Some "t1")] |}).
Proof.
  destruct (submit_cleanup_verification_authorization (sample_clock 0) "t1"
              "eve@example.org" "done" ["x.jpg"] (Some 10)
              {| cleanups_file :=
                   [sample_task "t1" "in_progress" (Some "A") "" []];
                 teams_file := [sample_team "A" 5 10 "busy" (Some "t1")] |})
    as (_ & H & _).
  apply (H 0%nat (sample_task "t1" "in_progress" (Some "A") "" []) "A");
    [reflexivity | reflexivity | done |].
  right. exists 0%nat, (sample_team "A" 5 10 "busy" (Some "t1")).
  split; [reflexivity |]. simpl.
  intros Hin. apply elem_of_cons in Hin as [Hin | Hin]; [done |].
  apply elem_of_cons in Hin as [Hin | Hin]; [done |].
  by apply elem_of_nil in Hin.
Defined.

(** The same, evaluated: on a pending task that has no assigned team, a
    submission by someone who belongs to no team, with the score 10, is
    answered with success by the manager and closes the task, where the
    handler [mark_completed] answers that no team is assigned and writes
    nothing. *)
Lemma submit_cleanup_verification_unassigned_task :
  let w := {| cleanups_file := [sample_task "t1" "pending" None "" []];
              teams_file := [sample_team "A" 5 10 "busy" (Some "t0")] |} in
  let r := submit_cleanup_verification (sample_clock 0) "t1"
             "eve@example.org" "done" ["x.jpg"] (Some 10) w in
  assigned_team <$> cleanups_file w !! 0%nat = Some None ∧
  success r.1 = true ∧
  r.2 ≠ w ∧
  (status <$> cleanups_file r.2 !! 0%nat) = Some "cleaned" ∧
  (verification_photos <$> cleanups_file r.2 !! 0%nat) = Some ["x.jpg"] ∧
  mark_completed (sample_clock 0) "t1" w = (NoTeamAssigned, w).
Proof.
  split_and!; by vm_compute.
Qed.

(** ** The stored photo list *)

(** C10.  A verification that is not turned away stores exactly the
    submitted photo list, whatever was stored before and whether the
    cleanup is then accepted or not: so in [submit_cleanup_verification],
    and so in the handler [verify_cleanup] with the names under which it
    saved the uploads.  The status update instead extends the stored
    list. *)
Theorem verification_replaces_photos rid w i c :
  find_cleanup rid (cleanups_file w) = Some (i, c) →
  (∀ clk email notes photos sc,
     not_assigned_to email c (teams_file w) = false →
     ∃ c', cleanups_file
             (submit_cleanup_verification clk rid email notes photos sc w).2
             !! i = Some c' ∧
       verification_photos c' = photos) ∧
  (∀ ext clk email notes uploads tid j t,
     assigned_team c = Some tid → tid ≠ "" →
     find_team tid (teams_file w) = Some (j, t) →
     email ∈ members t → truthy (head uploads) = true →
     ∃ c', cleanups_file
             (verify_cleanup ext clk rid email notes uploads w).2 !! i
             = Some c' ∧
       verification_photos c' = save_photos ext rid uploads) ∧
  (∀ clk st notes photos,
     ∃ c', cleanups_file
             (update_cleanup_status clk rid st notes photos w).2 !! i
             = Some c' ∧
       verification_photos c' = verification_photos c ++ given photos).
Proof.
  intros Hc. destruct (find_cleanup_lookup _ _ _ _ Hc) as [Hi _].
  split_and!.
  - intros clk email notes photos sc Hok.
    destruct (submit_cleanup_verification_stores_photos
                clk rid email notes photos sc w i c)
      as (c' & Hc' & Hph & _); [done.. |].
    by exists c'.
  - intros ext clk email notes uploads tid j t Ha Hne Ht Hm Hup.
    rewrite (verify_cleanup_scored ext clk rid email notes uploads w i c tid j t)
      by done.
    destruct (negb _); simpl; eexists;
      (split; [by eapply lookup_insert_found |]); done.
  - intros clk st notes photos.
    unfold update_cleanup_status, load_cleanups, load_teams. rewrite Hc.
    destruct (String.eqb st CleanupStatus.IN_PROGRESS && _);
      [| destruct (String.eqb st CleanupStatus.CLEANED)]; simpl;
      eexists; (split; [by eapply lookup_insert_found |]);
      destruct photos as [[| p ps] |]; simpl; by rewrite ?app_nil_r.
Qed.

Lemma verification_replaces_photos_witness :
  (∃ c', cleanups_file
           (submit_cleanup_verification (sample_clock 0) "t1"
              "bob@example.org" "swept" ["new.jpg"] (Some 55)
              {| cleanups_file :=
                   [sample_task "t1" "in_progress" (Some "A") ""
                      ["old_1.jpg"; "old_2.jpg"]];
                 teams_file := [sample_team "A" 5 10 "busy" (Some "t1")] |}).2
           !! 0%nat = Some c' ∧
     verification_photos c' = ["new.jpg"]) ∧
  (∃ c', cleanups_file
           (verify_cleanup sample_ext (sample_clock 0) "t1"
              "bob@example.org" "swept" ["clean.jpg"; ""]
              {| cleanups_file :=
                   [sample_task "t1" "in_progress" (Some "A") ""
                      ["old_1.jpg"; "old_2.jpg"]];
                 teams_file := [sample_team "A" 5 10 "busy" (Some "t1")] |}).2
           !! 0%nat = Some c' ∧
     verification_photos c' = ["verification_t1_clean.jpg"]).
Proof.
  destruct (verification_replaces_photos "t1"
              {| cleanups_file :=
                   [sample_task "t1" "in_progress" (Some "A") ""
                      ["old_1.jpg"; "old_2.jpg"]];
                 teams_file := [sample_team "A" 5 10 "busy" (Some "t1")] |}
              0%nat
              (sample_task "t1" "in_progress" (Some "A") ""
                 ["old_1.jpg"; "old_2.jpg"]))
    as (H1 & H2 & _); [reflexivity |].
  split.
  - apply (H1 (sample_clock 0) "bob@example.org" "swept" ["new.jpg"]
             (Some 55)). reflexivity.
  - apply (H2 sample_ext (sample_clock 0) "bob@example.org" "swept"
             ["clean.jpg"; ""] "A" 0%nat
             (sample_team "A" 5 10 "busy" (Some "t1")));
      [reflexivity | done | reflexivity
      | apply list_elem_of_further, list_elem_of_here | reflexivity].
Defined.

(** ** The storage round trip *)

Lemma CleanupReport_round_trip clk (r : Storage.CleanupReport) :
  Storage.CleanupReport_from_dict clk (Storage.CleanupReport_to_dict r)
  = Some r.
Proof. by destruct r. Qed.

Lemma CleanupTeam_round_trip clk (t : Storage.CleanupTeam) :
  Storage.CleanupTeam_from_dict clk (Storage.CleanupTeam_to_dict t)
  = Some {| Storage.team_id := Storage.team_id t;
            Storage.name := Storage.name t;
            Storage.leader_email := Storage.leader_email t;
            Storage.members :=
              Storage.py_or (Storage.members t) (Storage.VList []);
            Storage.team_status := Storage.team_status t;
            Storage.current_task := Storage.current_task t;
            Storage.total_cleanups := Storage.total_cleanups t;
            Storage.total_points := Storage.total_points t;
            Storage.rating := Storage.rating t;
            Storage.team_created_at := Storage.team_created_at t;
            Storage.last_activity := Storage.last_activity t |}.
Proof. by destruct t. Qed.

Lemma py_or_list l :
  Storage.py_or (Storage.VList l) (Storage.VList []) = Storage.VList l.
Proof. by destruct l. Qed.

Lemma Report_round_trip clk (r : Storage.Report) :
  Storage.Report_from_dict clk (Storage.Report_to_dict r)
  = {| Storage.filename := Storage.filename r;
       Storage.latitude := Storage.latitude r;
       Storage.longitude := Storage.longitude r;
       Storage.location_name := Storage.location_name r;
       Storage.score := Storage.score r;
       Storage.analysis := Storage.analysis r;
       Storage.reporter_name := Storage.reporter_name r;
       Storage.reporter_email := Storage.reporter_email r;
       Storage.points := Storage.points r;
       Storage.timestamp := Storage.VStr (isoformat (clk 0%nat)) |}.
Proof. by destruct r. Qed.

(** C9.  [from_dict (to_dict r)] gives back every attribute of a cleanup
    task, and every attribute of a team (whose members are a list).  For a
    pollution report it gives back every attribute but the timestamp:
    [Report.from_dict] does not read the key "timestamp", and the
    constructor stamps the instance with the time of the call.  A report
    stamped 09:59:00 and read back at 10:00:00 carries 10:00:00. *)
Theorem storage_round_trip clk :
  (∀ r, Storage.CleanupReport_from_dict clk (Storage.CleanupReport_to_dict r)
        = Some r) ∧
  (∀ tid nm leader l st task n p rt ca la,
     let t := {| Storage.team_id := tid; Storage.name := nm;
                 Storage.leader_email := leader;
                 Storage.members := Storage.VList l;
                 Storage.team_status := st; Storage.current_task := task;
                 Storage.total_cleanups := n; Storage.total_points := p;
                 Storage.rating := rt; Storage.team_created_at := ca;
                 Storage.last_activity := la |} in
     Storage.CleanupTeam_from_dict clk (Storage.CleanupTeam_to_dict t)
     = Some t) ∧
  (∀ r, let r' := Storage.Report_from_dict clk (Storage.Report_to_dict r) in
     Storage.filename r' = Storage.filename r ∧
     Storage.latitude r' = Storage.latitude r ∧
     Storage.longitude r' = Storage.longitude r ∧
     Storage.location_name r' = Storage.location_name r ∧
     Storage.score r' = Storage.score r ∧
     Storage.analysis r' = Storage.analysis r ∧
     Storage.reporter_name r' = Storage.reporter_name r ∧
     Storage.reporter_email r' = Storage.reporter_email r ∧
     Storage.points r' = Storage.points r ∧
     Storage.timestamp r' = Storage.VStr (isoformat (clk 0%nat))) ∧
  (let r := {| Storage.filename := Storage.VStr "ann_beach.jpg";
               Storage.latitude := Storage.VStr "12.9";
               Storage.longitude := Storage.VStr "80.2";
               Storage.location_name := Storage.VStr "Marina";
               Storage.score := Storage.VInt 82;
               Storage.analysis := Storage.VStr "plastic waste";
               Storage.reporter_name := Storage.VStr "ann";
               Storage.reporter_email := Storage.VStr "ann@example.org";
               Storage.points := Storage.VInt 20;
               Storage.timestamp :=
                 Storage.VStr "2025-06-01T09:59:00.000000" |} in
   let r' := Storage.Report_from_dict (sample_clock 0)
               (Storage.Report_to_dict r) in
   Storage.timestamp r' = Storage.VStr "2025-06-01T10:00:00.0" ∧ r' ≠ r).
Proof.
  split_and!.
  - apply CleanupReport_round_trip.
  - intros. subst t. rewrite CleanupTeam_round_trip. simpl.
    by rewrite py_or_list.
  - intros r r'. subst r'. by rewrite Report_round_trip.
  - by vm_compute.
Qed.

(** ** Invariants of the runs *)

Lemma busy_iff_task_busy t rid :
  team_status t = "busy" → current_task t = Some rid → busy_iff_task t.
Proof. intros Hs Hc. split; [by eexists | done]. Qed.

Lemma busy_iff_task_available t :
  team_status t = "available" → current_task t = None → busy_iff_task t.
Proof.
  intros Hs Hc. split; [by rewrite Hs | rewrite Hc; by intros [? ?]].
Qed.

Ltac team_inv :=
  first [ by eapply busy_iff_task_busy
        | by eapply busy_iff_task_available ].

Lemma free_up_team_busy_iff_task now c teams :
  Forall busy_iff_task teams →
  Forall busy_iff_task (free_up_team now c teams).
Proof.
  intros H. unfold free_up_team.
  destruct (assigned_team c) as [tid |]; [| done].
  destruct (truthy (Some tid)); [| done].
  destruct (find_team tid teams) as [[j t] |]; [| done].
  apply Forall_insert; [done | team_inv].
Qed.

Lemma auto_assign_team_busy_iff_task clk rid w :
  Forall busy_iff_task (teams_file w) →
  Forall busy_iff_task (teams_file (auto_assign_team clk rid w).2).
Proof.
  intros H. unfold auto_assign_team, load_cleanups, load_teams.
  destruct (find_cleanup _ _) as [[i c] |]; [| done].
  destruct (py_max _ _) as [[j b] |]; [| done]. simpl.
  apply Forall_insert; [done | team_inv].
Qed.

Lemma handle_busy_iff_task q w :
  Forall busy_iff_task (teams_file w) →
  Forall busy_iff_task (teams_file (handle q w)).
Proof.
  intros H.
  destruct q as [clk rnd r | clk rnd nm leader mem | clk rid
    | clk rid st notes photos | clk rid email notes photos sc | clk rid tid
    | ext clk rid email notes uploads | clk rid]; simpl.
  - unfold create_cleanup_report.
    destruct (auto_assign_team _ _ _) as [res w'] eqn:E. simpl.
    change w' with (res, w').2. rewrite <- E.
    by apply auto_assign_team_busy_iff_task.
  - unfold create_team, load_teams. simpl.
    apply Forall_app. split; [done |]. apply Forall_singleton.
    team_inv.
  - by apply auto_assign_team_busy_iff_task.
  - unfold update_cleanup_status, load_cleanups, load_teams.
    destruct (find_cleanup _ _) as [[i c] |]; [| done].
    destruct (String.eqb st CleanupStatus.IN_PROGRESS && _);
      [done |].
    destruct (String.eqb st CleanupStatus.CLEANED); [| done]. simpl.
    by apply free_up_team_busy_iff_task.
  - unfold submit_cleanup_verification, load_cleanups, load_teams.
    destruct (find_cleanup _ _) as [[i c] |]; [| done].
    destruct (not_assigned_to _ _ _); [done |].
    destruct sc as [sc |]; [| done].
    destruct (sc <=? 30); [| done]. simpl.
    by apply free_up_team_busy_iff_task.
  - unfold assign_team, load_cleanups, load_teams.
    destruct (negb (truthy tid)); [done |].
    destruct (find_cleanup _ _) as [[i c] |]; [| done].
    destruct (find_team _ _) as [[j t] |]; [| done].
    destruct (negb _); [done |]. simpl.
    apply Forall_insert; [done | team_inv].
  - unfold verify_cleanup, load_cleanups, load_teams.
    destruct (find_cleanup _ _) as [[i c] |]; [| done].
    destruct (assigned_team c) as [tid |]; [| done].
    destruct (negb (truthy (Some tid))); [done |].
    destruct (find_team _ _) as [[j t] |]; [| done].
    destruct (negb (bool_decide _)); [done |].
    destruct (negb (truthy (head uploads))); [done |].
    destruct (analyze_cleanup_verification ext <$> _); [done |].
    destruct (negb (Qle_bool _ _)); [| done]. simpl.
    apply Forall_insert; [done | team_inv].
  - unfold mark_completed, load_cleanups, load_teams.
    destruct (find_cleanup _ _) as [[i c] |]; [| done].
    destruct (assigned_team c) as [tid |]; [| done].
    destruct (negb (truthy (Some tid))); [done |].
    destruct (find_team _ _) as [[j t] |]; [| done]. simpl.
    apply Forall_insert; [done | team_inv].
Qed.

Lemma run_app qs q w : run (qs ++ [q]) w = handle q (run qs w).
Proof. unfold run. by rewrite foldl_app. Qed.

Lemma run_invariant (P : world → Prop) :
  P initial → (∀ q w, P w → P (handle q w)) → ∀ qs, P (run qs initial).
Proof.
  intros H0 Hstep qs. induction qs as [| q qs IH] using rev_ind; [done |].
  rewrite run_app. by apply Hstep.
Qed.

Lemma cleaned_has_date_closed c :
  is_Some (completion_date c) → cleaned_has_date c.
Proof. by intros H _. Qed.

Lemma cleaned_has_date_open c :
  status c ≠ "cleaned" → cleaned_has_date c.
Proof. by intros H ?. Qed.

Lemma cleaned_has_date_keep c c' :
  status c' = status c → completion_date c' = completion_date c →
  cleaned_has_date c → cleaned_has_date c'.
Proof. unfold cleaned_has_date. by intros -> ->. Qed.

Lemma found_has P rid (cleanups : list cleanup) i c :
  Forall P cleanups → find_cleanup rid cleanups = Some (i, c) → P c.
Proof.
  intros H [Hi _]%find_cleanup_lookup. by eapply Forall_lookup_1.
Qed.

Lemma auto_assign_team_cleaned_has_date clk rid w :
  Forall cleaned_has_date (cleanups_file w) →
  Forall cleaned_has_date (cleanups_file (auto_assign_team clk rid w).2).
Proof.
  intros H. unfold auto_assign_team, load_cleanups, load_teams.
  destruct (find_cleanup _ _) as [[i c] |]; [| done].
  destruct (py_max _ _) as [[j b] |]; [| done]. simpl.
  apply Forall_insert; [done | by apply cleaned_has_date_open].
Qed.

Lemma handle_cleaned_has_date q w :
  Forall cleaned_has_date (cleanups_file w) →
  Forall cleaned_has_date (cleanups_file (handle q w)).
Proof.
  intros H.
  destruct q as [clk rnd r | clk rnd nm leader mem | clk rid
    | clk rid st notes photos | clk rid email notes photos sc | clk rid tid
    | ext clk rid email notes uploads | clk rid]; simpl.
  - unfold create_cleanup_report.
    destruct (auto_assign_team _ _ _) as [res w'] eqn:E. simpl.
    change w' with (res, w').2. rewrite <- E.
    apply auto_assign_team_cleaned_has_date. simpl.
    apply Forall_app. split; [done |]. apply Forall_singleton.
    by apply cleaned_has_date_open.
  - done.
  - by apply auto_assign_team_cleaned_has_date.
  - unfold update_cleanup_status, load_cleanups, load_teams.
    destruct (find_cleanup _ _) as [[i c] |] eqn:Hc; [| done].
    destruct (String.eqb st CleanupStatus.IN_PROGRESS && _) eqn:E1;
      [| destruct (String.eqb st CleanupStatus.CLEANED) eqn:E2]; simpl;
      (apply Forall_insert; [done |]).
    + apply andb_true_iff in E1 as [->%String.eqb_eq _].
      apply cleaned_has_date_open. by destruct photos as [[| ? ?] |].
    + apply cleaned_has_date_closed. by destruct photos as [[| ? ?] |].
    + apply String.eqb_neq in E2.
      apply cleaned_has_date_open. by destruct photos as [[| ? ?] |].
  - unfold submit_cleanup_verification, load_cleanups, load_teams.
    destruct (find_cleanup _ _) as [[i c] |] eqn:Hc; [| done].
    destruct (not_assigned_to _ _ _); [done |].
    destruct sc as [sc |]; [destruct (sc <=? 30) |]; simpl;
      (apply Forall_insert; [done |]).
    + by apply cleaned_has_date_closed.
    + by apply cleaned_has_date_open.
    + eapply cleaned_has_date_keep; [| | by eapply found_has]; done.
  - unfold assign_team, load_cleanups, load_teams.
    destruct (negb (truthy tid)); [done |].
    destruct (find_cleanup _ _) as [[i c] |]; [| done].
    destruct (find_team _ _) as [[j t] |]; [| done].
    destruct (negb _); [done |]. simpl.
    apply Forall_insert; [done | by apply cleaned_has_date_open].
  - unfold verify_cleanup, load_cleanups, load_teams.
    destruct (find_cleanup _ _) as [[i c] |] eqn:Hc; [| done].
    destruct (assigned_team c) as [tid |]; [| done].
    destruct (negb (truthy (Some tid))); [done |].
    destruct (find_team _ _) as [[j t] |]; [| done].
    destruct (negb (bool_decide _)); [done |].
    destruct (negb (truthy (head uploads))); [done |].
    destruct (analyze_cleanup_verification ext <$> _); [done |].
    destruct (negb (Qle_bool _ _)); simpl;
      (apply Forall_insert; [done |]).
    + by apply cleaned_has_date_closed.
    + eapply cleaned_has_date_keep; [| | by eapply found_has]; done.
  - unfold mark_completed, load_cleanups, load_teams.
    destruct (find_cleanup _ _) as [[i c] |]; [| done].
    destruct (assigned_team c) as [tid |]; [| done].
    destruct (negb (truthy (Some tid))); [done |].
    destruct (find_team _ _) as [[j t] |]; [| done]. simpl.
    apply Forall_insert; [done | by apply cleaned_has_date_closed].
Qed.

(** *** Along the lifecycle: done exactly when dated *)

Lemma done_iff_dated_open c :
  status c ≠ "cleaned" → status c ≠ "verified" →
  completion_date c = None → done_iff_dated c.
Proof.
  intros H1 H2 H3. split; [by intros [? | ?] |].
  rewrite H3. by intros [? ?].
Qed.

Lemma done_iff_dated_closed c :
  status c = "cleaned" ∨ status c = "verified" →
  is_Some (completion_date c) → done_iff_dated c.
Proof. by split. Qed.

Lemma not_yet_dated c :
  done_iff_dated c → status c ≠ "cleaned" → status c ≠ "verified" →
  completion_date c = None.
Proof.
  intros [_ H] H1 H2. destruct (completion_date c) eqn:E; [| done].
  destruct H as [? | ?]; [by eexists | done..].
Qed.

Lemma task_in_found st rid w i c :
  task_in st rid w = true →
  find_cleanup rid (cleanups_file w) = Some (i, c) → status c = st.
Proof.
  unfold task_in. intros H Hc. rewrite Hc in H. by apply String.eqb_eq in H.
Qed.

Lemma auto_assign_team_done_iff_dated clk rid w :
  task_in "pending" rid w = true →
  Forall done_iff_dated (cleanups_file w) →
  Forall done_iff_dated (cleanups_file (auto_assign_team clk rid w).2).
Proof.
  intros Hg H. unfold auto_assign_team, load_cleanups, load_teams.
  destruct (find_cleanup _ _) as [[i c] |] eqn:Hc; [| done].
  destruct (py_max _ _) as [[j b] |]; [| done]. simpl.
  apply Forall_insert; [done |].
  apply done_iff_dated_open; [done.. |]. simpl.
  apply not_yet_dated; [by eapply found_has | |];
    by rewrite (task_in_found _ _ _ _ _ Hg Hc).
Qed.

Lemma find_cleanup_appended rid cleanups c :
  find_cleanup rid cleanups = None → report_id c = rid →
  find_cleanup rid (cleanups ++ [c]) = Some (length cleanups, c).
Proof.
  intros Hnone Hrid. unfold find_cleanup in *.
  rewrite list_find_app_r by done. simpl.
  by case_decide.
Qed.

Lemma lifecycle_edge_cases old new :
  lifecycle_edge old new = true →
  (old = "pending" ∧ new = "in_progress") ∨
  (old = "in_progress" ∧ new = "in_progress") ∨
  (old = "in_progress" ∧ new = "cleaned") ∨
  (old = "cleaned" ∧ new = "verified").
Proof.
  unfold lifecycle_edge. rewrite !orb_true_iff, !andb_true_iff.
  rewrite !String.eqb_eq. tauto.
Qed.

Lemma handle_done_iff_dated q w :
  on_lifecycle q w = true →
  Forall done_iff_dated (cleanups_file w) →
  Forall done_iff_dated (cleanups_file (handle q w)).
Proof.
  intros Hg H.
  destruct q as [clk rnd r | clk rnd nm leader mem | clk rid
    | clk rid st notes photos | clk rid email notes photos sc | clk rid tid
    | ext clk rid email notes uploads | clk rid]; simpl in *.
  - unfold create_cleanup_report, load_cleanups.
    destruct (find_cleanup _ (cleanups_file w)) eqn:Hfresh; [done |].
    destruct (auto_assign_team _ _ _) as [res w'] eqn:E. simpl.
    change w' with (res, w').2. rewrite <- E.
    apply auto_assign_team_done_iff_dated.
    + unfold task_in. simpl.
      by rewrite (find_cleanup_appended _ _ _ Hfresh).
    + simpl. apply Forall_app. split; [done |]. apply Forall_singleton.
      by apply done_iff_dated_open.
  - done.
  - by apply auto_assign_team_done_iff_dated.
  - unfold update_cleanup_status, load_cleanups, load_teams.
    destruct (find_cleanup _ _) as [[i c] |] eqn:Hc; [| done].
    pose proof (found_has _ _ _ _ _ H Hc) as Hdc.
    apply lifecycle_edge_cases in Hg
      as [[Ho ->] | [[Ho ->] | [[Ho ->] | [Ho ->]]]];
      destruct photos as [[| p ps] |]; simpl;
      try (destruct (negb (truthy (start_date c))));
      simpl; (apply Forall_insert; [done |]).
    all: try (apply done_iff_dated_open; [done.. |]; simpl;
              apply not_yet_dated; [done | |]; by rewrite Ho).
    all: apply done_iff_dated_closed; simpl; eauto.
    all: apply Hdc; by left.
  - unfold submit_cleanup_verification, load_cleanups, load_teams.
    destruct (find_cleanup _ _) as [[i c] |] eqn:Hc; [| done].
    pose proof (found_has _ _ _ _ _ H Hc) as Hdc.
    pose proof (task_in_found _ _ _ _ _ Hg Hc) as Hst.
    destruct (not_assigned_to _ _ _); [done |].
    destruct sc as [sc |]; [destruct (sc <=? 30) |]; simpl;
      (apply Forall_insert; [done |]).
    + apply done_iff_dated_closed; simpl; by eauto.
    + apply done_iff_dated_open; [done.. |]. simpl.
      apply not_yet_dated; [done | |]; by rewrite Hst.
    + apply done_iff_dated_open; simpl; try by rewrite Hst.
      apply not_yet_dated; [done | |]; by rewrite Hst.
  - unfold assign_team, load_cleanups, load_teams.
    destruct (negb (truthy tid)); [done |].
    destruct (find_cleanup _ _) as [[i c] |] eqn:Hc; [| done].
    pose proof (found_has _ _ _ _ _ H Hc) as Hdc.
    pose proof (task_in_found _ _ _ _ _ Hg Hc) as Hst.
    destruct (find_team _ _) as [[j t] |]; [| done].
    destruct (negb _); [done |]. simpl.
    apply Forall_insert; [done |].
    apply done_iff_dated_open; [done.. |]. simpl.
    apply not_yet_dated; [done | |]; by rewrite Hst.
  - unfold verify_cleanup, load_cleanups, load_teams.
    destruct (find_cleanup _ _) as [[i c] |] eqn:Hc; [| done].
    pose proof (found_has _ _ _ _ _ H Hc) as Hdc.
    pose proof (task_in_found _ _ _ _ _ Hg Hc) as Hst.
    destruct (assigned_team c) as [tid |]; [| done].
    destruct (negb (truthy (Some tid))); [done |].
    destruct (find_team _ _) as [[j t] |]; [| done].
    destruct (negb (bool_decide _)); [done |].
    destruct (negb (truthy (head uploads))); [done |].
    destruct (analyze_cleanup_verification ext <$> _); [done |].
    destruct (negb (Qle_bool _ _)); simpl;
      (apply Forall_insert; [done |]).
    + apply done_iff_dated_closed; simpl; by eauto.
    + apply done_iff_dated_open; simpl; try by rewrite Hst.
      apply not_yet_dated; [done | |]; by rewrite Hst.
  - unfold mark_completed, load_cleanups, load_teams.
    destruct (find_cleanup _ _) as [[i c] |] eqn:Hc; [| done].
    destruct (assigned_team c) as [tid |]; [| done].
    destruct (negb (truthy (Some tid))); [done |].
    destruct (find_team _ _) as [[j t] |]; [| done]. simpl.
    apply Forall_insert; [done |].
    apply done_iff_dated_closed; simpl; by eauto.
Qed.

Lemma run_cons q qs w : run (q :: qs) w = run qs (handle q w).
Proof. done. Qed.

Lemma run_on_lifecycle_invariant (P : world → Prop) :
  (∀ q w, on_lifecycle q w = true → P w → P (handle q w)) →
  ∀ qs w, all_on_lifecycle qs w = true → P w → P (run qs w).
Proof.
  intros Hstep qs. induction qs as [| q qs IH]; intros w Hg Hw; [done |].
  simpl in Hg. apply andb_true_iff in Hg as [Hq Hqs].
  rewrite run_cons. apply IH; [done |]. by apply Hstep.
Qed.

(** C5 (amended).  After every run of the engine from empty files, every
    task whose status is "cleaned" has a completion date.  When every
    request of the run keeps to the lifecycle, every task has a completion
    date exactly when its status is "cleaned" or "verified".  (The engine
    does not enforce the lifecycle: a status update to any value is
    carried out, and only the update to "cleaned" sets the date.) *)
Theorem completion_date_along_runs qs :
  Forall cleaned_has_date (cleanups_file (run qs initial)) ∧
  (all_on_lifecycle qs initial = true →
   Forall done_iff_dated (cleanups_file (run qs initial))).
Proof.
  split.
  - apply (run_invariant (λ w, Forall cleaned_has_date (cleanups_file w)));
      [by constructor | apply handle_cleaned_has_date].
  - intros Hg.
    apply (run_on_lifecycle_invariant
             (λ w, Forall done_iff_dated (cleanups_file w)));
      [apply handle_done_iff_dated | done | by constructor].
Qed.

Lemma completion_date_along_runs_witness :
  Forall done_iff_dated (cleanups_file (run sample_run initial)).
Proof.
  apply (completion_date_along_runs sample_run). reflexivity.
Defined.

(** C5, as stated, fails in both directions.  A status update to
    "verified" on a task just created leaves it verified without a
    completion date; a status update to "pending" on a cleaned task leaves
    it pending with one. *)
Lemma completion_date_not_iff_done :
  (∃ c, cleanups_file
          (run [ CreateCleanupReport (sample_clock 10) 2222
                   (sample_report 82);
                 UpdateCleanupStatus (sample_clock 20) sample_task_id
                   "verified" "" None ] initial) !! 0%nat = Some c ∧
        status c = "verified" ∧ completion_date c = None) ∧
  (∃ c d, cleanups_file
            (run [ CreateCleanupReport (sample_clock 10) 2222
                     (sample_report 82);
                   UpdateCleanupStatus (sample_clock 20) sample_task_id
                     "cleaned" "" None;
                   UpdateCleanupStatus (sample_clock 30) sample_task_id
                     "pending" "" None ] initial) !! 0%nat = Some c ∧
          status c = "pending" ∧ completion_date c = Some d).
Proof.
  split.
  - eexists. split; [vm_compute; reflexivity |]. by vm_compute.
  - eexists _, _. split; [vm_compute; reflexivity |]. by vm_compute.
Qed.

(** The run of the sample data, end to end: the task is closed with 33
    cleanup points and the team is available again with one cleanup. *)
Lemma sample_run_end_to_end :
  let w := run (take 3 sample_run) initial in
  (status <$> cleanups_file w !! 0%nat) = Some "cleaned" ∧
  (cleanup_points <$> cleanups_file w !! 0%nat) = Some 33 ∧
  (team_status <$> teams_file w !! 0%nat) = Some "available" ∧
  (total_cleanups <$> teams_file w !! 0%nat) = Some 1.
Proof. by vm_compute. Qed.

(** ** Teams and their current task *)

Lemma assign_team_assigned clk rid tid w i c j t :
  tid ≠ "" →
  find_cleanup rid (cleanups_file w) = Some (i, c) →
  find_team tid (teams_file w) = Some (j, t) →
  team_status t = "available" →
  assign_team clk rid (Some tid) w =
    (TeamAssigned,
     {| cleanups_file :=
          <[i := c |> set_assigned_team (Some tid)
                   |> set_assigned_date (Some (isoformat (clk 0%nat)))
                   |> set_status CleanupStatus.IN_PROGRESS
                   |> set_updated_at (Some (isoformat (clk 1%nat)))]>
            (cleanups_file w);
        teams_file :=
          <[j := t |> set_team_status "busy"
                   |> set_current_task (Some rid)
                   |> set_last_activity (isoformat (clk 2%nat))]>
            (teams_file w) |}).
Proof.
  intros Hne%truthy_Some Hc Ht Hst.
  unfold assign_team, load_cleanups, load_teams.
  rewrite Hne. simpl. by rewrite Hc, Ht, Hst.
Qed.

Lemma auto_assign_team_assigned_to clk rid w tid :
  (auto_assign_team clk rid w).1 = Some tid →
  assigned_to rid tid (auto_assign_team clk rid w).2.
Proof.
  destruct (find_cleanup rid (cleanups_file w)) as [[i c] |] eqn:Hc.
  2:{ unfold auto_assign_team, load_cleanups. by rewrite Hc. }
  destruct (py_max (λ jt : nat * team, team_key jt.2)
              (available_teams (teams_file w))) as [[j b] |] eqn:Hm.
  2:{ unfold auto_assign_team, load_cleanups, load_teams.
      by rewrite Hc, Hm. }
  rewrite (auto_assign_team_found clk rid w i c j b Hc Hm). simpl.
  intros [= <-].
  destruct (py_max_split _ _ _ Hm) as (l1 & l2 & Heq & _).
  assert ((j, b) ∈ available_teams (teams_file w)) as Hin.
  { rewrite Heq. apply elem_of_app. right. left. }
  apply elem_of_available_teams in Hin as [Hj _].
  eexists i, _, j, _. split_and!.
  - eapply list_find_insert_same; [exact Hc |].
    by apply find_cleanup_lookup in Hc as [_ ?].
  - done.
  - done.
  - by eapply lookup_insert_found.
  - done.
  - done.
  - done.
Qed.

Lemma assign_team_assigned_to clk rid tid w :
  (assign_team clk rid (Some tid) w).1 = TeamAssigned →
  assigned_to rid tid (assign_team clk rid (Some tid) w).2.
Proof.
  unfold assign_team, load_cleanups, load_teams.
  destruct (negb (truthy (Some tid))) eqn:Hne; [done |].
  simpl. destruct (find_cleanup _ _) as [[i c] |] eqn:Hc; [| done].
  destruct (find_team _ _) as [[j t] |] eqn:Ht; [| done].
  destruct (negb (String.eqb (team_status t) "available")); [done |].
  simpl. intros _.
  destruct (find_team_lookup _ _ _ _ Ht) as [Hj Htid].
  eexists i, _, j, _. split_and!.
  - eapply list_find_insert_same; [exact Hc |].
    by apply find_cleanup_lookup in Hc as [_ ?].
  - done.
  - done.
  - by eapply lookup_insert_found.
  - done.
  - done.
  - done.
Qed.

(** *** Along the lifecycle: teams and tasks name each other *)

Lemma same_id_same_place {A} (f : A → string) (l : list A) i k x y :
  NoDup (f <$> l) → l !! i = Some x → l !! k = Some y → f x = f y → i = k.
Proof.
  intros Hnd Hi Hk Heq.
  apply (NoDup_lookup (f <$> l) i k (f x)); [done | |];
    rewrite list_lookup_fmap; [by rewrite Hi | by rewrite Hk, Heq].
Qed.

Lemma insert_keeps_ids {A} (f : A → string) (l : list A) i x y :
  l !! i = Some x → f y = f x → f <$> <[i:=y]> l = f <$> l.
Proof.
  intros Hi Heq. rewrite list_fmap_insert, Heq.
  apply list_insert_id. by rewrite list_lookup_fmap, Hi.
Qed.

Lemma find_by_id {A} (f : A → string) (l : list A) id i x :
  NoDup (f <$> l) → l !! i = Some x → f x = id →
  list_find (λ y, f y = id) l = Some (i, x).
Proof.
  intros Hnd Hi Hid. apply list_find_Some. split_and!; [done.. |].
  intros k y Hk Hlt Hy.
  assert (k = i) by (eapply (same_id_same_place f); [done.. | congruence]).
  lia.
Qed.

Lemma linked_touch cs ts i c c' :
  linked cs ts → cs !! i = Some c →
  report_id c' = report_id c → assigned_team c' = assigned_team c →
  status c' = status c
  ∨ (status c = "pending" ∧ status c' ≠ "pending")
  ∨ (status c ≠ "in_progress" ∧ status c' ≠ "in_progress"
     ∧ status c' ≠ "pending") →
  linked (<[i:=c']> cs) ts.
Proof.
  intros [Htn Htnm Hcn Hpf Htt Hct] Hi Hrid Hat Hst.
  assert (i < length cs)%nat as Hlen by by eapply lookup_lt_Some.
  split; try done.
  - by rewrite (insert_keeps_ids report_id cs i c c').
  - intros k c0 [(<- & <- & _) | [Hne Hk]]%list_lookup_insert_Some Hp;
      [| by eapply Hpf].
    rewrite Hat. apply (Hpf i c Hi).
    destruct Hst as [<- | [[_ ?] | (_ & _ & ?)]]; done.
  - intros j t rid Hj Hcur.
    destruct (Htt j t rid Hj Hcur) as (k & c0 & Hk & Hid & Ha & Hs).
    destruct (decide (k = i)) as [-> | Hne].
    + assert (c0 = c) as -> by congruence.
      exists i, c'. rewrite list_lookup_insert_eq by done.
      split_and!; try congruence.
      destruct Hst as [-> | [[? _] | (? & _ & _)]]; congruence.
    + exists k, c0. by rewrite list_lookup_insert_ne.
  - intros k c0 tid [(<- & <- & _) | [Hne Hk]]%list_lookup_insert_Some Hs Ha;
      [| by eapply Hct].
    rewrite Hrid. apply (Hct i c tid Hi); [| congruence].
    destruct Hst as [<- | [[Hp _] | (_ & ? & _)]]; [done | | done].
    rewrite Hat, (Hpf i c Hi Hp) in Ha. done.
Qed.

Lemma linked_assign cs ts i c c' j t t' :
  linked cs ts → cs !! i = Some c → ts !! j = Some t →
  status c = "pending" → current_task t = None →
  report_id c' = report_id c → status c' = "in_progress" →
  assigned_team c' = Some (team_id t) →
  team_id t' = team_id t → current_task t' = Some (report_id c) →
  linked (<[i:=c']> cs) (<[j:=t']> ts).
Proof.
  intros [Htn Htnm Hcn Hpf Htt Hct] Hi Hj Hp Hfree Hrid Hs' Ha' Htid Hcur'.
  assert (i < length cs)%nat as Hlen by by eapply lookup_lt_Some.
  assert (j < length ts)%nat as Hlen' by by eapply lookup_lt_Some.
  split.
  - by rewrite (insert_keeps_ids team_id ts j t t').
  - intros k t0 [(<- & <- & _) | [Hne Hk]]%list_lookup_insert_Some;
      [rewrite Htid |]; by eauto.
  - by rewrite (insert_keeps_ids report_id cs i c c').
  - intros k c0 [(<- & <- & _) | [Hne Hk]]%list_lookup_insert_Some Hp0;
      [congruence | by eapply Hpf].
  - intros k t0 rid [(<- & <- & _) | [Hne Hk]]%list_lookup_insert_Some Hcur.
    + exists i, c'. rewrite list_lookup_insert_eq by done.
      split_and!; congruence.
    + destruct (Htt k t0 rid Hk Hcur) as (k' & c0 & Hk' & Hid & Ha & Hs).
      exists k', c0. rewrite list_lookup_insert_ne; [done |].
      intros <-. congruence.
  - intros k c0 tid [(<- & <- & _) | [Hne Hk]]%list_lookup_insert_Some Hs Ha.
    + exists j, t'. rewrite list_lookup_insert_eq by done.
      split_and!; congruence.
    + destruct (Hct k c0 tid Hk Hs Ha) as (k' & t0 & Hk' & Hid & Hcur).
      exists k', t0. rewrite list_lookup_insert_ne; [done |].
      intros <-. congruence.
Qed.

Lemma free_up_team_releases now c c0 ts :
  assigned_team c0 = assigned_team c →
  releases (assigned_team c) ts (free_up_team now c0 ts).
Proof.
  intros Ha. unfold releases, free_up_team. rewrite Ha.
  destruct (assigned_team c) as [tid |]; [| done].
  destruct (truthy (Some tid)); [| done].
  destruct (find_team tid ts) as [[j t] |]; [| done].
  by eexists.
Qed.

Lemma linked_close cs ts i c c' ts' :
  linked cs ts → cs !! i = Some c → status c = "in_progress" →
  report_id c' = report_id c → status c' = "cleaned" →
  releases (assigned_team c) ts ts' →
  linked (<[i:=c']> cs) ts'.
Proof.
  intros [Htn Htnm Hcn Hpf Htt Hct] Hi Hs Hrid Hs' Hrel.
  assert (i < length cs)%nat as Hlen by by eapply lookup_lt_Some.
  (* no team other than the one released has [c] as its current task *)
  assert (∀ k t0, ts !! k = Some t0 →
            current_task t0 = Some (report_id c) →
            assigned_team c = Some (team_id t0) ∧ team_id t0 ≠ "" ∧
            find_team (team_id t0) ts = Some (k, t0)) as Hown.
  { intros k t0 Hk Hcur.
    destruct (Htt k t0 _ Hk Hcur) as (i0 & c0 & Hi0 & Hid & Ha & _).
    assert (i0 = i) as -> by by eapply (same_id_same_place report_id).
    assert (c0 = c) as -> by congruence.
    split_and!; [done | by eauto |].
    by apply (find_by_id team_id). }
  unfold releases in Hrel.
  destruct (assigned_team c) as [tid |] eqn:Ha.
  2:{ subst ts'. split; try done.
      - by rewrite (insert_keeps_ids report_id cs i c c').
      - intros k c0 [(<- & <- & _) | [Hne Hk]]%list_lookup_insert_Some Hp0;
          [congruence | by eapply Hpf].
      - intros k t0 rid Hk Hcur.
        destruct (Htt k t0 rid Hk Hcur) as (k' & c0 & Hk' & Hid & Ha0 & Hs0).
        exists k', c0. rewrite list_lookup_insert_ne; [done |].
        intros <-. assert (c0 = c) as -> by congruence.
        subst rid. by destruct (Hown k t0 Hk Hcur) as [? _].
      - intros k c0 tid
          [(<- & <- & _) | [Hne Hk]]%list_lookup_insert_Some Hs0 Ha0;
          [congruence | by eapply Hct]. }
  destruct (truthy (Some tid)) eqn:Htr.
  2:{ subst ts'. split; try done.
      - by rewrite (insert_keeps_ids report_id cs i c c').
      - intros k c0 [(<- & <- & _) | [Hne Hk]]%list_lookup_insert_Some Hp0;
          [congruence | by eapply Hpf].
      - intros k t0 rid Hk Hcur.
        destruct (Htt k t0 rid Hk Hcur) as (k' & c0 & Hk' & Hid & Ha0 & Hs0).
        exists k', c0. rewrite list_lookup_insert_ne; [done |].
        intros <-. assert (c0 = c) as -> by congruence.
        subst rid. destruct (Hown k t0 Hk Hcur) as ([= ->] & Hne & _).
        by apply truthy_Some in Hne; congruence.
      - intros k c0 tid0
          [(<- & <- & _) | [Hne Hk]]%list_lookup_insert_Some Hs0 Ha0;
          [congruence | by eapply Hct]. }
  destruct (find_team tid ts) as [[j t] |] eqn:Hft.
  2:{ subst ts'. split; try done.
      - by rewrite (insert_keeps_ids report_id cs i c c').
      - intros k c0 [(<- & <- & _) | [Hne Hk]]%list_lookup_insert_Some Hp0;
          [congruence | by eapply Hpf].
      - intros k t0 rid Hk Hcur.
        destruct (Htt k t0 rid Hk Hcur) as (k' & c0 & Hk' & Hid & Ha0 & Hs0).
        exists k', c0. rewrite list_lookup_insert_ne; [done |].
        intros <-. assert (c0 = c) as -> by congruence.
        subst rid. destruct (Hown k t0 Hk Hcur) as ([= ->] & _ & Hf).
        congruence.
      - intros k c0 tid0
          [(<- & <- & _) | [Hne Hk]]%list_lookup_insert_Some Hs0 Ha0;
          [congruence | by eapply Hct]. }
  destruct Hrel as (t' & -> & Htid & Hcur').
  destruct (find_team_lookup _ _ _ _ Hft) as [Hj Hjid].
  assert (j < length ts)%nat as Hlen' by by eapply lookup_lt_Some.
  split.
  - by rewrite (insert_keeps_ids team_id ts j t t').
  - intros k t0 [(<- & <- & _) | [Hne Hk]]%list_lookup_insert_Some;
      [rewrite Htid |]; by eauto.
  - by rewrite (insert_keeps_ids report_id cs i c c').
  - intros k c0 [(<- & <- & _) | [Hne Hk]]%list_lookup_insert_Some Hp0;
      [congruence | by eapply Hpf].
  - intros k t0 rid [(<- & <- & _) | [Hne Hk]]%list_lookup_insert_Some Hcur;
      [congruence |].
    destruct (Htt k t0 rid Hk Hcur) as (k' & c0 & Hk' & Hid & Ha0 & Hs0).
    exists k', c0. rewrite list_lookup_insert_ne; [done |].
    intros <-. assert (c0 = c) as -> by congruence.
    subst rid. destruct (Hown k t0 Hk Hcur) as ([= ->] & _ & Hf).
    congruence.
  - intros k c0 tid0
      [(<- & <- & _) | [Hne Hk]]%list_lookup_insert_Some Hs0 Ha0;
      [congruence |].
    destruct (Hct k c0 tid0 Hk Hs0 Ha0) as (k' & t0 & Hk' & Hid & Hcur).
    exists k', t0. rewrite list_lookup_insert_ne; [done |].
    intros <-. assert (t0 = t) as -> by congruence.
    (* the released team was busy with [c], so [c0] is [c] *)
    destruct (Hct i c tid Hi Hs Ha) as (j1 & t1 & Hj1 & Hid1 & Hcur1).
    assert (j1 = j) as ->
      by (eapply (same_id_same_place team_id); [done.. | congruence]).
    assert (t1 = t) as -> by congruence.
    assert (report_id c0 = report_id c) as Hsame by congruence.
    apply Hne. symmetry. by eapply (same_id_same_place report_id).
Qed.

Lemma linked_new_task cs ts c :
  linked cs ts → status c = "pending" → assigned_team c = None →
  find_cleanup (report_id c) cs = None →
  linked (cs ++ [c]) ts.
Proof.
  intros [Htn Htnm Hcn Hpf Htt Hct] Hp Ha Hfresh.
  split; try done.
  - rewrite fmap_app. apply NoDup_app. split_and!; [done | |].
    + intros id (c0 & -> & Hin)%list_elem_of_fmap Hin'.
      apply list_elem_of_singleton in Hin'.
      unfold find_cleanup in Hfresh.
      rewrite list_find_None, Forall_forall in Hfresh.
      by apply (Hfresh c0).
    + apply NoDup_singleton.
  - intros k c0 [[_ Hk] | [_ <-]]%lookup_snoc_Some Hp0; [by eapply Hpf | done].
  - intros j t rid Hj Hcur.
    destruct (Htt j t rid Hj Hcur) as (k & c0 & Hk & H).
    exists k, c0. split; [| done]. by apply lookup_app_l_Some.
  - intros k c0 tid [[_ Hk] | [_ <-]]%lookup_snoc_Some Hs Ha0;
      [by eapply Hct | congruence].
Qed.

Lemma linked_new_team cs ts t :
  linked cs ts → current_task t = None → team_id t ≠ "" →
  find_team (team_id t) ts = None →
  linked cs (ts ++ [t]).
Proof.
  intros [Htn Htnm Hcn Hpf Htt Hct] Hcur Hne Hfresh.
  split; try done.
  - rewrite fmap_app. apply NoDup_app. split_and!; [done | |].
    + intros id (t0 & -> & Hin)%list_elem_of_fmap Hin'.
      apply list_elem_of_singleton in Hin'.
      unfold find_team in Hfresh.
      rewrite list_find_None, Forall_forall in Hfresh.
      by apply (Hfresh t0).
    + apply NoDup_singleton.
  - intros j t0 [[_ Hj] | [_ <-]]%lookup_snoc_Some; by eauto.
  - intros j t0 rid [[_ Hj] | [_ <-]]%lookup_snoc_Some Hcur0;
      [by eapply Htt | congruence].
  - intros k c0 tid Hk Hs Ha.
    destruct (Hct k c0 tid Hk Hs Ha) as (j & t0 & Hj & H).
    exists j, t0. split; [| done]. by apply lookup_app_l_Some.
Qed.

Lemma available_has_no_task (ts : list team) j t :
  Forall busy_iff_task ts → ts !! j = Some t →
  team_status t = "available" → current_task t = None.
Proof.
  intros Hb Hj Hst. pose proof (Forall_lookup_1 _ _ _ _ Hb Hj) as [_ H].
  destruct (current_task t); [| done].
  rewrite Hst in H. by discriminate H.
Qed.

Lemma auto_assign_team_linked clk rid w :
  task_in "pending" rid w = true →
  Forall busy_iff_task (teams_file w) →
  linked (cleanups_file w) (teams_file w) →
  linked (cleanups_file (auto_assign_team clk rid w).2)
         (teams_file (auto_assign_team clk rid w).2).
Proof.
  intros Hg Hb Hl. unfold auto_assign_team, load_cleanups, load_teams.
  destruct (find_cleanup _ _) as [[i c] |] eqn:Hc; [| done].
  destruct (py_max _ _) as [[j b] |] eqn:Hm; [| done]. simpl.
  destruct (py_max_split _ _ _ Hm) as (l1 & l2 & Heq & _).
  assert ((j, b) ∈ available_teams (teams_file w)) as Hin.
  { rewrite Heq. apply elem_of_app. right. left. }
  apply elem_of_available_teams in Hin as [Hj Hst].
  destruct (find_cleanup_lookup _ _ _ _ Hc) as [Hi Hrid].
  eapply linked_assign; try done.
  - by eapply task_in_found.
  - by eapply available_has_no_task.
  - simpl. by rewrite Hrid.
Qed.

Lemma handle_linked q w :
  on_lifecycle q w = true →
  Forall busy_iff_task (teams_file w) →
  linked (cleanups_file w) (teams_file w) →
  linked (cleanups_file (handle q w)) (teams_file (handle q w)).
Proof.
  intros Hg Hb Hl.
  destruct q as [clk rnd r | clk rnd nm leader mem | clk rid
    | clk rid st notes photos | clk rid email notes photos sc | clk rid tid
    | ext clk rid email notes uploads | clk rid]; simpl in *.
  - unfold create_cleanup_report, load_cleanups.
    destruct (find_cleanup _ (cleanups_file w)) eqn:Hfresh; [done |].
    destruct (auto_assign_team _ _ _) as [res w'] eqn:E. simpl.
    change w' with (res, w').2. rewrite <- E.
    apply auto_assign_team_linked; simpl.
    + unfold task_in. simpl.
      by rewrite (find_cleanup_appended _ _ _ Hfresh).
    + done.
    + by apply linked_new_task.
  - unfold create_team, load_teams. simpl.
    destruct (find_team _ (teams_file w)) eqn:Hfresh; [done |].
    by apply linked_new_team.
  - by apply auto_assign_team_linked.
  - unfold update_cleanup_status, load_cleanups, load_teams.
    destruct (find_cleanup _ _) as [[i c] |] eqn:Hc; [| done].
    destruct (find_cleanup_lookup _ _ _ _ Hc) as [Hi Hrid].
    apply lifecycle_edge_cases in Hg
      as [[Ho ->] | [[Ho ->] | [[Ho ->] | [Ho ->]]]];
      destruct photos as [[| p ps] |]; simpl;
      try (destruct (negb (truthy (start_date c))));
      simpl.
    all: try (eapply linked_touch; [done.. |]; simpl; rewrite Ho;
              first [ by left | by right; left | by right; right ]).
    all: eapply linked_close; [done.. |]; by apply free_up_team_releases.
  - unfold submit_cleanup_verification, load_cleanups, load_teams.
    destruct (find_cleanup _ _) as [[i c] |] eqn:Hc; [| done].
    destruct (find_cleanup_lookup _ _ _ _ Hc) as [Hi Hrid].
    pose proof (task_in_found _ _ _ _ _ Hg Hc) as Hst.
    destruct (not_assigned_to _ _ _); [done |].
    destruct sc as [sc |]; [destruct (sc <=? 30) |]; simpl.
    + eapply linked_close; [done.. |]. by apply free_up_team_releases.
    + eapply linked_touch; [done.. |]. by left.
    + eapply linked_touch; [done.. |]. by left.
  - unfold assign_team, load_cleanups, load_teams.
    destruct (negb (truthy tid)) eqn:Htr; [done |].
    destruct tid as [tid |]; [| done]. simpl.
    destruct (find_cleanup _ _) as [[i c] |] eqn:Hc; [| done].
    destruct (find_cleanup_lookup _ _ _ _ Hc) as [Hi Hrid].
    pose proof (task_in_found _ _ _ _ _ Hg Hc) as Hst.
    destruct (find_team _ _) as [[j t] |] eqn:Ht; [| done].
    destruct (find_team_lookup _ _ _ _ Ht) as [Hj Htid].
    destruct (String.eqb (team_status t) "available") eqn:Hav; [| done].
    apply String.eqb_eq in Hav. simpl.
    eapply linked_assign; try done.
    + by eapply available_has_no_task.
    + simpl. by rewrite Htid.
    + simpl. by rewrite Hrid.
  - unfold verify_cleanup, load_cleanups, load_teams.
    destruct (find_cleanup _ _) as [[i c] |] eqn:Hc; [| done].
    destruct (find_cleanup_lookup _ _ _ _ Hc) as [Hi Hrid].
    pose proof (task_in_found _ _ _ _ _ Hg Hc) as Hst.
    destruct (assigned_team c) as [tid |] eqn:Ha; [| done].
    destruct (truthy (Some tid)) eqn:Htr; [| done]. simpl negb. cbv iota.
    destruct (find_team _ _) as [[j t] |] eqn:Ht; [| done].
    destruct (negb (bool_decide _)); [done |].
    destruct (negb (truthy (head uploads))); [done |].
    destruct (analyze_cleanup_verification ext <$> _); [done |].
    destruct (negb (Qle_bool _ _)); simpl.
    + eapply linked_close; [done.. |].
      unfold releases. rewrite Ha, Htr, Ht. by eexists.
    + eapply linked_touch; [done.. |]. by left.
  - unfold mark_completed, load_cleanups, load_teams.
    destruct (find_cleanup _ _) as [[i c] |] eqn:Hc; [| done].
    destruct (find_cleanup_lookup _ _ _ _ Hc) as [Hi Hrid].
    pose proof (task_in_found _ _ _ _ _ Hg Hc) as Hst.
    destruct (assigned_team c) as [tid |] eqn:Ha; [| done].
    destruct (truthy (Some tid)) eqn:Htr; [| done]. simpl negb. cbv iota.
    destruct (find_team _ _) as [[j t] |] eqn:Ht; [| done]. simpl.
    eapply linked_close; [done.. |].
    unfold releases. rewrite Ha, Htr, Ht. by eexists.
Qed.

Lemma linked_serves w :
  linked (cleanups_file w) (teams_file w) →
  Forall busy_iff_task (teams_file w) →
  Forall (serves_its_task w) (teams_file w).
Proof.
  intros [Htn Htnm Hcn Hpf Htt Hct] Hb. apply Forall_lookup.
  intros j t Hj. split; [by eapply Forall_lookup_1 |].
  intros rid Hcur.
  destruct (Htt j t rid Hj Hcur) as (i & c & Hi & Hrid & Ha & Hs).
  exists i, c. split_and!; try done.
  - by apply (find_by_id report_id).
  - intros k c' Hk Hs' Ha'.
    destruct (Hct k c' _ Hk Hs' Ha') as (j' & t' & Hj' & Hid & Hcur').
    assert (j' = j) as ->
      by by eapply (same_id_same_place team_id).
    assert (t' = t) as -> by congruence.
    eapply (same_id_same_place report_id); [done.. |]. congruence.
Qed.

(** C6 (amended).  After every run of the engine from empty files, a team
    is busy exactly when it has a current task.  When every request of the
    run keeps to the lifecycle, the current task of a team is moreover in
    progress, has the team as its assigned team, and is the only task in
    progress that has.  Outside the lifecycle an assignment, automatic or
    manual, still leaves the team busy with the task and the task in
    progress with that team, but later requests do not keep this back
    reference: a manual assignment of the same task to a second team
    leaves the first one busy with it. *)
Theorem busy_iff_current_task qs :
  Forall busy_iff_task (teams_file (run qs initial)) ∧
  (all_on_lifecycle qs initial = true →
   Forall (serves_its_task (run qs initial)) (teams_file (run qs initial))) ∧
  (∀ clk rid tid,
     (auto_assign_team clk rid (run qs initial)).1 = Some tid →
     assigned_to rid tid (auto_assign_team clk rid (run qs initial)).2) ∧
  (∀ clk rid tid,
     (assign_team clk rid (Some tid) (run qs initial)).1 = TeamAssigned →
     assigned_to rid tid (assign_team clk rid (Some tid) (run qs initial)).2).
Proof.
  split_and!.
  - apply (run_invariant (λ w, Forall busy_iff_task (teams_file w)));
      [by constructor | apply handle_busy_iff_task].
  - intros Hg.
    assert (Forall busy_iff_task (teams_file (run qs initial)) ∧
            linked (cleanups_file (run qs initial))
                   (teams_file (run qs initial))) as [Hb Hl].
    { apply (run_on_lifecycle_invariant
               (λ w, Forall busy_iff_task (teams_file w) ∧
                     linked (cleanups_file w) (teams_file w))); [| done |].
      - intros q w Hq [Hb Hl]. split;
          [by apply handle_busy_iff_task | by apply handle_linked].
      - split; [by constructor |].
        split; simpl; try done; by constructor. }
    by apply linked_serves.
  - intros. by apply auto_assign_team_assigned_to.
  - intros. by apply assign_team_assigned_to.
Qed.

Lemma busy_iff_current_task_witness :
  Forall (serves_its_task (run (take 2 sample_run) initial))
    (teams_file (run (take 2 sample_run) initial)) ∧
  assigned_to sample_task_id "team_20250601_100000_1111"
    (auto_assign_team (sample_clock 50) sample_task_id
       (run sample_run initial)).2.
Proof.
  split.
  - apply (busy_iff_current_task (take 2 sample_run)). reflexivity.
  - apply (busy_iff_current_task sample_run). reflexivity.
Defined.

(** C6, as stated, fails: two teams are formed, a report comes in and goes
    to the first, and the task is then assigned by hand to the second.
    The first team is still busy with the task, which now names the
    second. *)
Lemma busy_team_without_its_task :
  let w := run [ CreateTeam (sample_clock 0) 1111 "Tide" "lea@example.org"
                   None;
                 CreateTeam (sample_clock 5) 4444 "Reef" "kim@example.org"
                   None;
                 CreateCleanupReport (sample_clock 10) 2222
                   (sample_report 82);
                 AssignTeam (sample_clock 20) sample_task_id
                   (Some "team_20250601_100000_4444") ] initial in
  ∃ t c i,
    teams_file w !! 0%nat = Some t ∧
    team_id t = "team_20250601_100000_1111" ∧
    team_status t = "busy" ∧ current_task t = Some sample_task_id ∧
    find_cleanup sample_task_id (cleanups_file w) = Some (i, c) ∧
    assigned_team c = Some "team_20250601_100000_4444" ∧
    assigned_team c ≠ Some (team_id t).
Proof.
  eexists _, _, _. split; [vm_compute; reflexivity |].
  split; [by vm_compute |]. split; [by vm_compute |].
  split; [by vm_compute |]. split; [vm_compute; reflexivity |].
  split; by vm_compute.
Qed.

(** * More properties of the engine *)

(** ** Nothing is deleted *)

Lemma same_task_refl c : same_task c c.
Proof. by repeat split. Qed.

Lemma same_task_trans c1 c2 c3 :
  same_task c1 c2 → same_task c2 c3 → same_task c1 c3.
Proof.
  intros (H1 & H2 & H3 & H4) (H1' & H2' & H3' & H4').
  split_and!; try congruence.
  intros Hs. rewrite <- (H4 Hs). apply H4'. by rewrite (H4 Hs).
Qed.

Lemma same_team_refl t : same_team t t.
Proof. by repeat split. Qed.

Lemma same_team_trans t1 t2 t3 :
  same_team t1 t2 → same_team t2 t3 → same_team t1 t3.
Proof.
  intros (? & ? & ? & ? & ? & ? & ?) (? & ? & ? & ? & ? & ? & ?).
  split_and!; try congruence. lia.
Qed.

Lemma keeps_refl w : keeps w w.
Proof.
  split; intros k x Hk; exists x;
    (split; [done | apply same_task_refl || apply same_team_refl]).
Qed.

Lemma keeps_trans w1 w2 w3 : keeps w1 w2 → keeps w2 w3 → keeps w1 w3.
Proof.
  intros [Hc Ht] [Hc' Ht']. split.
  - intros i c Hi. destruct (Hc i c Hi) as (c2 & Hi2 & Hs).
    destruct (Hc' i c2 Hi2) as (c3 & Hi3 & Hs').
    exists c3. split; [done |]. by eapply same_task_trans.
  - intros j t Hj. destruct (Ht j t Hj) as (t2 & Hj2 & Hs).
    destruct (Ht' j t2 Hj2) as (t3 & Hj3 & Hs').
    exists t3. split; [done |]. by eapply same_team_trans.
Qed.

Lemma keeps_insert_task w i c c' ts' :
  cleanups_file w !! i = Some c → same_task c c' →
  (∀ j t, teams_file w !! j = Some t →
          ∃ t', ts' !! j = Some t' ∧ same_team t t') →
  keeps w {| cleanups_file := <[i:=c']> (cleanups_file w);
             teams_file := ts' |}.
Proof.
  intros Hi Hs Ht. split; [| done]. simpl. intros k x Hk.
  destruct (decide (k = i)) as [-> | Hne].
  - exists c'. split; [by eapply lookup_insert_found |]. congruence.
  - exists x. rewrite list_lookup_insert_ne by done.
    split; [done | apply same_task_refl].
Qed.

Lemma keeps_teams_refl (ts : list team) :
  ∀ j t, ts !! j = Some t → ∃ t', ts !! j = Some t' ∧ same_team t t'.
Proof. intros j t Hj. exists t. split; [done | apply same_team_refl]. Qed.

Lemma keeps_teams_insert (ts : list team) j t t' :
  ts !! j = Some t → same_team t t' →
  ∀ k x, ts !! k = Some x →
         ∃ x', <[j:=t']> ts !! k = Some x' ∧ same_team x x'.
Proof.
  intros Hj Hs k x Hk. destruct (decide (k = j)) as [-> | Hne].
  - exists t'. split; [by eapply lookup_insert_found |]. congruence.
  - exists x. rewrite list_lookup_insert_ne by done.
    split; [done | apply same_team_refl].
Qed.

Lemma keeps_teams_free_up now c (ts : list team) :
  ∀ k x, ts !! k = Some x →
         ∃ x', free_up_team now c ts !! k = Some x' ∧ same_team x x'.
Proof.
  unfold free_up_team.
  destruct (assigned_team c) as [tid |]; [| apply keeps_teams_refl].
  destruct (truthy (Some tid)); [| apply keeps_teams_refl].
  destruct (find_team tid ts) as [[j t] |] eqn:Ht;
    [| apply keeps_teams_refl].
  apply find_team_lookup in Ht as [Hj _].
  eapply keeps_teams_insert; [done |].
  split_and!; simpl; try done. lia.
Qed.

Lemma auto_assign_team_keeps clk rid w :
  keeps w (auto_assign_team clk rid w).2.
Proof.
  unfold auto_assign_team, load_cleanups, load_teams.
  destruct (find_cleanup _ _) as [[i c] |] eqn:Hc; [| apply keeps_refl].
  destruct (py_max _ _) as [[j b] |] eqn:Hm; [| apply keeps_refl].
  destruct (find_cleanup_lookup _ _ _ _ Hc) as [Hi _].
  destruct (py_max_split _ _ _ Hm) as (l1 & l2 & Heq & _).
  assert ((j, b) ∈ available_teams (teams_file w)) as Hin.
  { rewrite Heq. apply elem_of_app. right. left. }
  apply elem_of_available_teams in Hin as [Hj _].
  simpl. apply (keeps_insert_task _ _ c); [done | by repeat split |].
  eapply keeps_teams_insert; [done |]. by repeat split.
Qed.

Lemma keeps_append_task w c :
  keeps w (save_cleanups (cleanups_file w ++ [c]) w).
Proof.
  split; simpl; [| apply keeps_teams_refl].
  intros i x Hi. exists x. split; [by apply lookup_app_l_Some |].
  apply same_task_refl.
Qed.

Lemma handle_keeps q w : keeps w (handle q w).
Proof.
  destruct q as [clk rnd r | clk rnd nm leader mem | clk rid
    | clk rid st notes photos | clk rid email notes photos sc | clk rid tid
    | ext clk rid email notes uploads | clk rid]; simpl.
  - unfold create_cleanup_report, load_cleanups.
    destruct (auto_assign_team _ _ _) as [res w'] eqn:E. simpl.
    change w' with (res, w').2. rewrite <- E.
    eapply keeps_trans; [apply keeps_append_task |].
    apply auto_assign_team_keeps.
  - unfold create_team, load_teams. split; simpl.
    + intros i c Hi. exists c. split; [done | apply same_task_refl].
    + intros j t Hj. exists t. split; [by apply lookup_app_l_Some |].
      apply same_team_refl.
  - apply auto_assign_team_keeps.
  - unfold update_cleanup_status, load_cleanups, load_teams.
    destruct (find_cleanup _ _) as [[i c] |] eqn:Hc; [| apply keeps_refl].
    destruct (find_cleanup_lookup _ _ _ _ Hc) as [Hi _].
    destruct (String.eqb st CleanupStatus.IN_PROGRESS && _) eqn:E1;
      [| destruct (String.eqb st CleanupStatus.CLEANED) eqn:E2]; simpl.
    + apply andb_true_iff in E1 as [_ E1]. apply negb_true_iff in E1.
      apply (keeps_insert_task _ _ c); [done | | apply keeps_teams_refl].
      destruct photos as [[| p ps] |]; simpl in *;
        split_and!; try done; intros; congruence.
    + apply (keeps_insert_task _ _ c);
        [done | | apply keeps_teams_free_up].
      destruct photos as [[| p ps] |]; by repeat split.
    + apply (keeps_insert_task _ _ c); [done | | apply keeps_teams_refl].
      destruct photos as [[| p ps] |]; by repeat split.
  - unfold submit_cleanup_verification, load_cleanups, load_teams.
    destruct (find_cleanup _ _) as [[i c] |] eqn:Hc; [| apply keeps_refl].
    destruct (find_cleanup_lookup _ _ _ _ Hc) as [Hi _].
    destruct (not_assigned_to _ _ _); [apply keeps_refl |].
    destruct sc as [sc |]; [destruct (sc <=? 30) |]; simpl;
      (apply (keeps_insert_task _ _ c);
        [done | by repeat split
        | first [apply keeps_teams_free_up | apply keeps_teams_refl]]).
  - unfold assign_team, load_cleanups, load_teams.
    destruct (negb (truthy tid)); [apply keeps_refl |].
    destruct (find_cleanup _ _) as [[i c] |] eqn:Hc; [| apply keeps_refl].
    destruct (find_cleanup_lookup _ _ _ _ Hc) as [Hi _].
    destruct (find_team _ _) as [[j t] |] eqn:Ht; [| apply keeps_refl].
    destruct (find_team_lookup _ _ _ _ Ht) as [Hj _].
    destruct (negb (String.eqb (team_status t) "available"));
      [apply keeps_refl |].
    simpl. apply (keeps_insert_task _ _ c); [done | by repeat split |].
    eapply keeps_teams_insert; [done |]. by repeat split.
  - unfold verify_cleanup, load_cleanups, load_teams.
    destruct (find_cleanup _ _) as [[i c] |] eqn:Hc; [| apply keeps_refl].
    destruct (find_cleanup_lookup _ _ _ _ Hc) as [Hi _].
    destruct (assigned_team c) as [tid |]; [| apply keeps_refl].
    destruct (negb (truthy (Some tid))); [apply keeps_refl |].
    destruct (find_team _ _) as [[j t] |] eqn:Ht; [| apply keeps_refl].
    destruct (find_team_lookup _ _ _ _ Ht) as [Hj _].
    destruct (negb (bool_decide _)); [apply keeps_refl |].
    destruct (negb (truthy (head uploads))); [apply keeps_refl |].
    destruct (analyze_cleanup_verification ext <$> _); [apply keeps_refl |].
    destruct (negb (Qle_bool _ _)); simpl;
      (apply (keeps_insert_task _ _ c); [done | by repeat split |]).
    + eapply keeps_teams_insert; [done |].
      split_and!; simpl; try done. lia.
    + apply keeps_teams_refl.
  - unfold mark_completed, load_cleanups, load_teams.
    destruct (find_cleanup _ _) as [[i c] |] eqn:Hc; [| apply keeps_refl].
    destruct (find_cleanup_lookup _ _ _ _ Hc) as [Hi _].
    destruct (assigned_team c) as [tid |]; [| apply keeps_refl].
    destruct (negb (truthy (Some tid))); [apply keeps_refl |].
    destruct (find_team _ _) as [[j t] |] eqn:Ht; [| apply keeps_refl].
    destruct (find_team_lookup _ _ _ _ Ht) as [Hj _].
    simpl. apply (keeps_insert_task _ _ c); [done | by repeat split |].
    eapply keeps_teams_insert; [done |].
    split_and!; simpl; try done. lia.
Qed.

(** X1.  No request deletes, moves or renames a record.  After any run,
    from any state of the two files, every task is at the place it had,
    with the id, the embedded report and the creation stamp it had, and
    with the start date it had if it had one; every team is at its place
    with the id, name, leader, members, rating and creation stamp it had,
    and with a cleanup count that is not smaller. *)
Theorem run_keeps_records qs w : keeps w (run qs w).
Proof.
  revert w. induction qs as [| q qs IH]; intros w; [apply keeps_refl |].
  rewrite run_cons. eapply keeps_trans; [apply handle_keeps | apply IH].
Qed.

(** ** The teams on file *)

Lemma Forall_insert_from {A} (P : A → Prop) (l : list A) j x y :
  Forall P l → l !! j = Some x → (P x → P y) → Forall P (<[j:=y]> l).
Proof.
  intros Hl Hj Hxy. apply Forall_insert; [done |].
  apply Hxy. by eapply Forall_lookup_1.
Qed.

Lemma team_as_created_release t n p a :
  team_as_created t →
  team_as_created (t |> set_team_status "available" |> set_current_task None
                     |> set_total_cleanups n |> set_total_points p
                     |> set_last_activity a).
Proof. intros (? & ? & ?). split_and!; simpl; auto. Qed.

Lemma free_up_team_as_created now c teams :
  Forall team_as_created teams →
  Forall team_as_created (free_up_team now c teams).
Proof.
  intros H. unfold free_up_team.
  destruct (assigned_team c) as [tid |]; [| done].
  destruct (truthy (Some tid)); [| done].
  destruct (find_team tid teams) as [[j t] |] eqn:Ht; [| done].
  apply find_team_lookup in Ht as [Hj _].
  eapply Forall_insert_from; [done.. |]. apply team_as_created_release.
Qed.

Lemma auto_assign_team_as_created clk rid w :
  Forall team_as_created (teams_file w) →
  Forall team_as_created (teams_file (auto_assign_team clk rid w).2).
Proof.
  intros H. unfold auto_assign_team, load_cleanups, load_teams.
  destruct (find_cleanup _ _) as [[i c] |]; [| done].
  destruct (py_max _ _) as [[j b] |] eqn:Hm; [| done]. simpl.
  destruct (py_max_split _ _ _ Hm) as (l1 & l2 & Heq & _).
  assert ((j, b) ∈ available_teams (teams_file w)) as Hin.
  { rewrite Heq. apply elem_of_app. right. left. }
  apply elem_of_available_teams in Hin as [Hj _].
  eapply Forall_insert_from; [done.. |].
  intros (? & ? & ?). split_and!; simpl; auto.
Qed.

Lemma handle_team_as_created q w :
  Forall team_as_created (teams_file w) →
  Forall team_as_created (teams_file (handle q w)).
Proof.
  intros H.
  destruct q as [clk rnd r | clk rnd nm leader mem | clk rid
    | clk rid st notes photos | clk rid email notes photos sc | clk rid tid
    | ext clk rid email notes uploads | clk rid]; simpl.
  - unfold create_cleanup_report.
    destruct (auto_assign_team _ _ _) as [res w'] eqn:E. simpl.
    change w' with (res, w').2. rewrite <- E.
    by apply auto_assign_team_as_created.
  - unfold create_team, load_teams. simpl.
    apply Forall_app. split; [done |]. apply Forall_singleton.
    split_and!; simpl; [done | by left |].
    by destruct mem as [[| m ms] |].
  - by apply auto_assign_team_as_created.
  - unfold update_cleanup_status, load_cleanups, load_teams.
    destruct (find_cleanup _ _) as [[i c] |]; [| done].
    destruct (String.eqb st CleanupStatus.IN_PROGRESS && _); [done |].
    destruct (String.eqb st CleanupStatus.CLEANED); [| done]. simpl.
    by apply free_up_team_as_created.
  - unfold submit_cleanup_verification, load_cleanups, load_teams.
    destruct (find_cleanup _ _) as [[i c] |]; [| done].
    destruct (not_assigned_to _ _ _); [done |].
    destruct sc as [sc |]; [| done].
    destruct (sc <=? 30); [| done]. simpl.
    by apply free_up_team_as_created.
  - unfold assign_team, load_cleanups, load_teams.
    destruct (negb (truthy tid)); [done |].
    destruct (find_cleanup _ _) as [[i c] |]; [| done].
    destruct (find_team _ _) as [[j t] |] eqn:Ht; [| done].
    apply find_team_lookup in Ht as [Hj _].
    destruct (negb (String.eqb (team_status t) "available")); [done |].
    simpl. eapply Forall_insert_from; [done.. |].
    intros (? & ? & ?). split_and!; simpl; auto.
  - unfold verify_cleanup, load_cleanups, load_teams.
    destruct (find_cleanup _ _) as [[i c] |]; [| done].
    destruct (assigned_team c) as [tid |]; [| done].
    destruct (negb (truthy (Some tid))); [done |].
    destruct (find_team _ _) as [[j t] |] eqn:Ht; [| done].
    apply find_team_lookup in Ht as [Hj _].
    destruct (negb (bool_decide _)); [done |].
    destruct (negb (truthy (head uploads))); [done |].
    destruct (analyze_cleanup_verification ext <$> _); [done |].
    destruct (negb (Qle_bool _ _)); [| done]. simpl.
    eapply Forall_insert_from; [done.. |].
    intros (? & ? & ?). split_and!; simpl; auto.
  - unfold mark_completed, load_cleanups, load_teams.
    destruct (find_cleanup _ _) as [[i c] |]; [| done].
    destruct (assigned_team c) as [tid |]; [| done].
    destruct (negb (truthy (Some tid))); [done |].
    destruct (find_team _ _) as [[j t] |] eqn:Ht; [| done].
    apply find_team_lookup in Ht as [Hj _]. simpl.
    eapply Forall_insert_from; [done.. |].
    intros (? & ? & ?). split_and!; simpl; auto.
Qed.

Lemma run_team_as_created qs :
  Forall team_as_created (teams_file (run qs initial)).
Proof.
  apply (run_invariant (λ w, Forall team_as_created (teams_file w)));
    [by constructor | apply handle_team_as_created].
Qed.

(** ** The statistics *)

Lemma status_counts (cleanups : list cleanup) :
  (count_status "pending" cleanups + count_status "in_progress" cleanups
   + count_status "cleaned" cleanups + count_status "verified" cleanups
   ≤ length cleanups)%nat ∧
  ((count_status "pending" cleanups + count_status "in_progress" cleanups
    + count_status "cleaned" cleanups + count_status "verified" cleanups
    = length cleanups)%nat ↔
   Forall (λ c, status c ∈ ["pending"; "in_progress"; "cleaned"; "verified"])
     cleanups).
Proof.
  unfold count_status.
  induction cleanups as [| c l [IH1 IH2]]; [by split |].
  rewrite !filter_cons, Forall_cons, <- IH2.
  assert (status c ∈ ["pending"; "in_progress"; "cleaned"; "verified"] ↔
          status c = "pending" ∨ status c = "in_progress" ∨
          status c = "cleaned" ∨ status c = "verified") as ->.
  { rewrite !elem_of_cons, elem_of_nil. tauto. }
  repeat case_decide; simpl; try congruence; split; try lia.
  all: split;
    [ intros Heq; first [split; [tauto | lia] | exfalso; lia]
    | intros [Hd Heq]; first [lia | tauto] ].
Qed.

Lemma team_status_counts (teams : list team) :
  Forall (λ t, team_status t = "available" ∨ team_status t = "busy") teams →
  (count_team_status "available" teams + count_team_status "busy" teams
   = length teams)%nat.
Proof.
  unfold count_team_status.
  induction 1 as [| t l Ht _ IH]; [done |].
  rewrite !filter_cons.
  repeat case_decide; simpl; try congruence; try lia.
  by destruct Ht.
Qed.

(** X2.  The figures of [get_cleanup_stats].  In any state of the files
    the four status counts add up to at most the number of tasks, and to
    exactly that number when, and only when, every task has one of the
    four statuses (a status update can store any other string).  After
    any run of the engine from empty files the available and the busy
    teams add up to the number of teams, each team has the rating 5 it was
    created with, and no team is without members. *)
Theorem cleanup_stats_add_up :
  (∀ w, let s := get_cleanup_stats w in
     (pending s + in_progress s + cleaned s + verified s
      ≤ total_reports s)%nat ∧
     ((pending s + in_progress s + cleaned s + verified s
       = total_reports s)%nat ↔
      Forall (λ c, status c ∈
                ["pending"; "in_progress"; "cleaned"; "verified"])
        (cleanups_file w))) ∧
  (∀ qs, let s := get_cleanup_stats (run qs initial) in
     (stat_available_teams s + busy_teams s = total_teams s)%nat ∧
     Forall (λ t, rating t = 5%Q ∧ members t ≠ [])
       (teams_file (run qs initial))).
Proof.
  split.
  - intros w. apply status_counts.
  - intros qs. pose proof (run_team_as_created qs) as H. split.
    + simpl. apply team_status_counts.
      eapply Forall_impl; [exact H |]. by intros t (_ & ? & _).
    + eapply Forall_impl; [exact H |]. by intros t (? & _ & ?).
Qed.

(** ** Which team the engine picks in practice *)

Lemma key_le_same_rating r a b : key_le (r, a) (r, b) ↔ a ≤ b.
Proof.
  unfold key_le. simpl. split.
  - intros [H | [_ H]]; [by apply Qlt_irrefl in H | done].
  - intros H. right. split; [reflexivity | done].
Qed.

Lemma key_lt_same_rating r a b : key_lt (r, a) (r, b) ↔ a < b.
Proof.
  unfold key_lt. simpl. split.
  - intros [H | [_ H]]; [by apply Qlt_irrefl in H | done].
  - intros H. right. split; [reflexivity | done].
Qed.

(** X3.  After any run of the engine from empty files all ratings are
    equal, so auto-assignment of a task on file picks, among the available
    teams, the one that has completed the most cleanups, and of several
    such the first on file. *)
Theorem auto_assign_team_most_cleanups qs clk rid i c t0 :
  find_cleanup rid (cleanups_file (run qs initial)) = Some (i, c) →
  t0 ∈ teams_file (run qs initial) → team_status t0 = "available" →
  ∃ j b,
    teams_file (run qs initial) !! j = Some b ∧
    team_status b = "available" ∧
    (auto_assign_team clk rid (run qs initial)).1 = Some (team_id b) ∧
    (∀ k t, teams_file (run qs initial) !! k = Some t →
            team_status t = "available" →
            total_cleanups t ≤ total_cleanups b) ∧
    (∀ k t, teams_file (run qs initial) !! k = Some t →
            team_status t = "available" → (k < j)%nat →
            total_cleanups t < total_cleanups b).
Proof.
  intros Hc Ht0 Hst0. set (w := run qs initial) in *.
  pose proof (run_team_as_created qs) as Hr. fold w in Hr.
  assert (∀ k t, teams_file w !! k = Some t → team_key t = (5%Q, total_cleanups t))
    as Hkey.
  { intros k t Hk. unfold team_key.
    by destruct (Forall_lookup_1 _ _ _ _ Hr Hk) as (-> & _). }
  destruct (py_max (λ jt : nat * team, team_key jt.2)
              (available_teams (teams_file w))) as [[j b] |] eqn:Hm.
  2:{ destruct (available_teams (teams_file w)) as [| x l] eqn:E; [| done].
      apply list_elem_of_lookup_1 in Ht0 as [k Hk].
      assert ((k, t0) ∈ available_teams (teams_file w)) as Hin
        by by apply elem_of_available_teams.
      rewrite E in Hin. by apply elem_of_nil in Hin. }
  destruct (py_max_split _ _ _ Hm) as (l1 & l2 & Heq & H1 & H2).
  assert ((j, b) ∈ available_teams (teams_file w)) as Hin.
  { rewrite Heq. apply elem_of_app. right. left. }
  apply elem_of_available_teams in Hin as [Hj Hb].
  rewrite (auto_assign_team_found clk rid w i c j b Hc Hm). simpl.
  exists j, b. split_and!; try done.
  - intros k t Hk Hst.
    assert ((k, t) ∈ available_teams (teams_file w)) as Hkt
      by by apply elem_of_available_teams.
    rewrite Heq in Hkt. apply elem_of_app in Hkt as [Hkt | Hkt].
    + apply H1 in Hkt. simpl in Hkt.
      rewrite (Hkey _ _ Hk), (Hkey _ _ Hj) in Hkt.
      apply key_lt_same_rating in Hkt. lia.
    + apply elem_of_cons in Hkt as [[= -> ->] | Hkt]; [lia |].
      apply H2 in Hkt. simpl in Hkt.
      rewrite (Hkey _ _ Hk), (Hkey _ _ Hj) in Hkt.
      by apply key_le_same_rating in Hkt.
  - intros k t Hk Hst Hlt.
    assert ((k, t) ∈ l1) as Hkt by by eapply available_teams_before.
    apply H1 in Hkt. simpl in Hkt.
    rewrite (Hkey _ _ Hk), (Hkey _ _ Hj) in Hkt.
    by apply key_lt_same_rating in Hkt.
Qed.

Lemma auto_assign_team_most_cleanups_witness :
  ∃ j b,
    teams_file (run sample_run_two_teams initial) !! j = Some b ∧
    team_status b = "available" ∧
    (auto_assign_team (sample_clock 50) sample_task_id
       (run sample_run_two_teams initial)).1 = Some (team_id b) ∧
    (∀ k t, teams_file (run sample_run_two_teams initial) !! k = Some t →
            team_status t = "available" →
            total_cleanups t ≤ total_cleanups b) ∧
    (∀ k t, teams_file (run sample_run_two_teams initial) !! k = Some t →
            team_status t = "available" → (k < j)%nat →
            total_cleanups t < total_cleanups b).
Proof.
  eapply (auto_assign_team_most_cleanups sample_run_two_teams
            (sample_clock 50) sample_task_id 0%nat).
  - vm_compute. reflexivity.
  - apply list_elem_of_lookup_2 with 1%nat. vm_compute. reflexivity.
  - reflexivity.
Defined.

(** ** Calls that fail write nothing *)

(** X4.  [update_cleanup_status] answers [False] exactly when the task is
    not on file, and then leaves both files as they were; an
    [auto_assign_team] that returns [None] leaves both files as they
    were, and it returns [None] exactly when the task is not on file or no
    team is available. *)
Theorem manager_failures_write_nothing clk rid w :
  (∀ st notes photos,
     ((update_cleanup_status clk rid st notes photos w).1 = false ↔
      find_cleanup rid (cleanups_file w) = None) ∧
     ((update_cleanup_status clk rid st notes photos w).1 = false →
      (update_cleanup_status clk rid st notes photos w).2 = w)) ∧
  ((auto_assign_team clk rid w).1 = None ↔
   find_cleanup rid (cleanups_file w) = None ∨
   ∀ t, t ∈ teams_file w → team_status t ≠ "available") ∧
  ((auto_assign_team clk rid w).1 = None →
   (auto_assign_team clk rid w).2 = w).
Proof.
  split_and!.
  - intros st notes photos.
    unfold update_cleanup_status, load_cleanups, load_teams.
    destruct (find_cleanup _ _) as [[i c] |]; [| done].
    destruct (String.eqb st CleanupStatus.IN_PROGRESS && _);
      [| destruct (String.eqb st CleanupStatus.CLEANED)]; by simpl.
  - unfold auto_assign_team, load_cleanups, load_teams.
    destruct (find_cleanup _ _) as [[i c] |]; [| by split; [left |]].
    destruct (py_max _ _) as [[j b] |] eqn:Hm; simpl.
    + split; [done |]. intros [? | Hno]; [done |].
      destruct (py_max_split _ _ _ Hm) as (l1 & l2 & Heq & _).
      assert ((j, b) ∈ available_teams (teams_file w)) as Hin.
      { rewrite Heq. apply elem_of_app. right. left. }
      apply elem_of_available_teams in Hin as [Hj Hst].
      by apply list_elem_of_lookup_2, Hno in Hj.
    + split; [| done]. intros _. right. intros t Ht Hst.
      destruct (available_teams (teams_file w)) as [| x l] eqn:E; [| done].
      apply list_elem_of_lookup_1 in Ht as [k Hk].
      assert ((k, t) ∈ available_teams (teams_file w)) as Hin
        by by apply elem_of_available_teams.
      rewrite E in Hin. by apply elem_of_nil in Hin.
  - unfold auto_assign_team, load_cleanups, load_teams.
    destruct (find_cleanup _ _) as [[i c] |]; [| done].
    by destruct (py_max _ _) as [[j b] |].
Qed.

Lemma manager_failures_write_nothing_witness :
  (update_cleanup_status (sample_clock 0) "t9" "cleaned" "" None
     {| cleanups_file := [sample_task "t1" "pending" None "" []];
        teams_file := pool_ABC |}).2
  = {| cleanups_file := [sample_task "t1" "pending" None "" []];
       teams_file := pool_ABC |}.
Proof.
  destruct (manager_failures_write_nothing (sample_clock 0) "t9"
              {| cleanups_file := [sample_task "t1" "pending" None "" []];
                 teams_file := pool_ABC |}) as [H _].
  destruct (H "cleaned" "" None) as [_ H']. apply H'. reflexivity.
Defined.

(** X5.  The handlers write nothing unless they succeed.  [assign_team]
    changes the files only when it flashes that the team was assigned,
    which it does exactly when a team id was sent, the task and a team of
    that id are on file, and that team is available.  [mark_completed]
    changes the files only when it flashes completion, which it does
    exactly when the task is on file and has an assigned team that is on
    file, whatever the task's status and whoever asks.  [verify_cleanup]
    changes the files only when it has scored the photos. *)
Theorem handler_failures_write_nothing clk rid w :
  (∀ tid,
     ((assign_team clk rid tid w).1 = TeamAssigned ↔
      ∃ id i c j t, tid = Some id ∧ id ≠ "" ∧
        find_cleanup rid (cleanups_file w) = Some (i, c) ∧
        find_team id (teams_file w) = Some (j, t) ∧
        team_status t = "available") ∧
     ((assign_team clk rid tid w).1 ≠ TeamAssigned →
      (assign_team clk rid tid w).2 = w)) ∧
  (((mark_completed clk rid w).1 = MarkedCompleted ↔
    ∃ i c tid j t,
      find_cleanup rid (cleanups_file w) = Some (i, c) ∧
      assigned_team c = Some tid ∧ tid ≠ "" ∧
      find_team tid (teams_file w) = Some (j, t)) ∧
   ((mark_completed clk rid w).1 ≠ MarkedCompleted →
    (mark_completed clk rid w).2 = w)) ∧
  (∀ ext email notes uploads,
     (verify_cleanup ext clk rid email notes uploads w).1
       ≠ VerificationSuccessful →
     (verify_cleanup ext clk rid email notes uploads w).1
       ≠ StillNeedsWork →
     (verify_cleanup ext clk rid email notes uploads w).2 = w).
Proof.
  split_and!.
  - intros tid. unfold assign_team, load_cleanups, load_teams.
    destruct (negb (truthy tid)) eqn:Htr.
    { split; [| done]. split; [done |].
      intros (id & i & c & j & t & -> & Hne%truthy_Some & _).
      by rewrite Hne in Htr. }
    destruct tid as [id |]; [| done]. simpl.
    apply negb_false_iff, truthy_Some in Htr.
    destruct (find_cleanup _ _) as [[i c] |] eqn:Hc.
    2:{ split; [| done]. split; [done |].
        by intros (? & ? & ? & ? & ? & [= <-] & _ & ? & _). }
    destruct (find_team _ _) as [[j t] |] eqn:Ht.
    2:{ split; [| done]. split; [done |].
        intros (? & ? & ? & ? & ? & [= <-] & _ & _ & ? & _). congruence. }
    destruct (String.eqb (team_status t) "available") eqn:Hav; simpl.
    + apply String.eqb_eq in Hav. split; [| done]. split; [| done].
      intros _. by exists id, i, c, j, t.
    + apply String.eqb_neq in Hav. split; [| done]. split; [done |].
      intros (? & ? & ? & ? & ? & [= <-] & _ & _ & ? & ?). congruence.
  - split.
    + unfold mark_completed, load_cleanups, load_teams.
      destruct (find_cleanup _ _) as [[i c] |] eqn:Hc; [| done].
      destruct (assigned_team c) as [tid |] eqn:Ha; [| done].
      destruct (negb (truthy (Some tid))) eqn:Htr; [done |].
      apply negb_false_iff, truthy_Some in Htr.
      destruct (find_team _ _) as [[j t] |] eqn:Ht; [| done].
      intros _. by exists i, c, tid, j, t.
    + intros (i & c & tid & j & t & Hc & Ha & Hne & Ht).
      by rewrite (mark_completed_found clk rid w i c tid j t).
  - unfold mark_completed, load_cleanups, load_teams.
    destruct (find_cleanup _ _) as [[i c] |]; [| done].
    destruct (assigned_team c) as [tid |]; [| done].
    destruct (negb (truthy (Some tid))); [done |].
    by destruct (find_team _ _) as [[j t] |].
  - intros ext email notes uploads.
    unfold verify_cleanup, load_cleanups, load_teams.
    destruct (find_cleanup _ _) as [[i c] |]; [| done].
    destruct (assigned_team c) as [tid |]; [| done].
    destruct (negb (truthy (Some tid))); [done |].
    destruct (find_team _ _) as [[j t] |]; [| done].
    destruct (negb (bool_decide _)); [done |].
    destruct (negb (truthy (head uploads))); [done |].
    destruct (analyze_cleanup_verification ext <$> _); [done |].
    by destruct (negb (Qle_bool _ _)).
Qed.

Lemma handler_failures_write_nothing_witness :
  (assign_team (sample_clock 0) "t1" (Some "A")
     {| cleanups_file := [sample_task "t1" "pending" None "" []];
        teams_file := [sample_team "A" 5 10 "busy" (Some "t0")] |}).2
  = {| cleanups_file := [sample_task "t1" "pending" None "" []];
       teams_file := [sample_team "A" 5 10 "busy" (Some "t0")] |}.
Proof.
  destruct (handler_failures_write_nothing (sample_clock 0) "t1"
              {| cleanups_file := [sample_task "t1" "pending" None "" []];
                 teams_file := [sample_team "A" 5 10 "busy" (Some "t0")] |})
    as [H _].
  destruct (H (Some "A")) as [_ H']. apply H'. by vm_compute.
Defined.

(** ** The tasks of a member *)

Lemma is_task_of_authorized email teams c :
  is_task_of email teams c = true ↔
  truthy (assigned_team c) = true ∧ not_assigned_to email c teams = false.
Proof.
  unfold is_task_of, not_assigned_to.
  destruct (assigned_team c) as [tid |]; [| by split; [| intros []]].
  destruct (truthy (Some tid)); [| by split; [| intros []]].
  rewrite !andb_true_l.
  destruct (find_team tid teams) as [[j t] |]; [| by split; [| intros []]].
  rewrite negb_false_iff. by split; [| intros []].
Qed.

(** X6.  [get_team_cleanup_tasks] lists, in the order of the file, exactly
    the tasks that have an assigned team and on which
    [submit_cleanup_verification] does not turn the same e-mail address
    away as unauthorized; a task without a team is listed for nobody,
    though anybody may submit a verification for it.  Every task that the
    page of a team shows ([team_details]) is listed for each member of
    that team. *)
Theorem get_team_cleanup_tasks_authorized email w :
  get_team_cleanup_tasks email w `sublist_of` cleanups_file w ∧
  (∀ c, c ∈ get_team_cleanup_tasks email w ↔
        c ∈ cleanups_file w ∧ truthy (assigned_team c) = true ∧
        not_assigned_to email c (teams_file w) = false) ∧
  (∀ tid j t c,
     tid ≠ "" → find_team tid (teams_file w) = Some (j, t) →
     email ∈ members t → c ∈ team_details_cleanups tid w →
     c ∈ get_team_cleanup_tasks email w).
Proof.
  unfold get_team_cleanup_tasks, load_cleanups, load_teams. split_and!.
  - apply sublist_filter.
  - intros c. rewrite list_elem_of_filter, is_task_of_authorized. tauto.
  - intros tid j t c Hne%truthy_Some Ht Hm.
    unfold team_details_cleanups, load_cleanups.
    rewrite !list_elem_of_filter. intros [Ha Hin]. split; [| done].
    unfold is_task_of. rewrite Ha, Hne, Ht.
    by rewrite (bool_decide_eq_true_2 _ Hm).
Qed.

Lemma get_team_cleanup_tasks_authorized_witness :
  sample_task "t1" "in_progress" (Some "A") "" []
  ∈ get_team_cleanup_tasks "bob@example.org"
      {| cleanups_file :=
           [sample_task "t0" "pending" None "" [];
            sample_task "t1" "in_progress" (Some "A") "" []];
         teams_file := [sample_team "A" 5 10 "busy" (Some "t1")] |}.
Proof.
  destruct (get_team_cleanup_tasks_authorized "bob@example.org"
              {| cleanups_file :=
                   [sample_task "t0" "pending" None "" [];
                    sample_task "t1" "in_progress" (Some "A") "" []];
                 teams_file := [sample_team "A" 5 10 "busy" (Some "t1")] |})
    as (_ & _ & H).
  apply (H "A" 0%nat (sample_team "A" 5 10 "busy" (Some "t1")));
    [done | reflexivity
    | apply list_elem_of_further, list_elem_of_here |].
  unfold team_details_cleanups, load_cleanups. simpl.
  apply list_elem_of_filter. split; [reflexivity |].
  apply list_elem_of_further, list_elem_of_here.
Defined.

(** X7.  When team ids are not repeated on file, an auto-assignment that
    succeeds makes the task show up in [get_team_cleanup_tasks] for every
    member of the team it returns, provided that team has a non-empty
    id. *)
Theorem auto_assign_team_lists_task clk rid w tid :
  NoDup (team_id <$> teams_file w) →
  (auto_assign_team clk rid w).1 = Some tid → tid ≠ "" →
  ∃ i c' j t',
    find_cleanup rid (cleanups_file (auto_assign_team clk rid w).2)
      = Some (i, c') ∧
    find_team tid (teams_file (auto_assign_team clk rid w).2)
      = Some (j, t') ∧
    current_task t' = Some rid ∧
    ∀ email, email ∈ members t' →
      c' ∈ get_team_cleanup_tasks email (auto_assign_team clk rid w).2.
Proof.
  intros Hnd Hres Hne.
  destruct (find_cleanup rid (cleanups_file w)) as [[i c] |] eqn:Hc.
  2:{ revert Hres. unfold auto_assign_team, load_cleanups.
      by rewrite Hc. }
  destruct (py_max (λ jt : nat * team, team_key jt.2)
              (available_teams (teams_file w))) as [[j b] |] eqn:Hm.
  2:{ revert Hres. unfold auto_assign_team, load_cleanups, load_teams.
      by rewrite Hc, Hm. }
  revert Hres.
  rewrite (auto_assign_team_found clk rid w i c j b Hc Hm). simpl.
  intros [= <-].
  destruct (find_cleanup_lookup _ _ _ _ Hc) as [Hi Hrid].
  destruct (py_max_split _ _ _ Hm) as (l1 & l2 & Heq & _).
  assert ((j, b) ∈ available_teams (teams_file w)) as Hin.
  { rewrite Heq. apply elem_of_app. right. left. }
  apply elem_of_available_teams in Hin as [Hj _].
  assert (find_team (team_id b) (teams_file w) = Some (j, b)) as Hft
    by by apply (find_by_id team_id).
  eexists i, _, j, _. split_and!.
  - by eapply list_find_insert_same.
  - by eapply list_find_insert_same.
  - done.
  - intros email Hm'. unfold get_team_cleanup_tasks, load_cleanups,
      load_teams. simpl.
    apply list_elem_of_filter. split.
    + unfold is_task_of. simpl.
      apply truthy_Some in Hne. simpl in Hne. rewrite Hne. simpl.
      unfold find_team.
      erewrite (list_find_insert_same (λ t, team_id t = team_id b) _ j b);
        [| exact Hft | done].
      by apply bool_decide_eq_true_2.
    + apply list_elem_of_lookup_2 with i. by eapply lookup_insert_found.
Qed.

Lemma auto_assign_team_lists_task_witness :
  ∃ i c' j t',
    find_cleanup "t1"
      (cleanups_file
         (auto_assign_team (sample_clock 0) "t1"
            {| cleanups_file := [sample_task "t1" "pending" None "" []];
               teams_file := pool_ABC |}).2) = Some (i, c') ∧
    find_team "B"
      (teams_file
         (auto_assign_team (sample_clock 0) "t1"
            {| cleanups_file := [sample_task "t1" "pending" None "" []];
               teams_file := pool_ABC |}).2) = Some (j, t') ∧
    current_task t' = Some "t1" ∧
    ∀ email, email ∈ members t' →
      c' ∈ get_team_cleanup_tasks email
             (auto_assign_team (sample_clock 0) "t1"
                {| cleanups_file := [sample_task "t1" "pending" None "" []];
                   teams_file := pool_ABC |}).2.
Proof.
  apply (auto_assign_team_lists_task (sample_clock 0) "t1"
           {| cleanups_file := [sample_task "t1" "pending" None "" []];
              teams_file := pool_ABC |} "B").
  - apply (bool_decide_unpack _). by vm_compute.
  - reflexivity.
  - done.
Defined.

(** ** Forming a team *)

Lemma member_list_spec strip leader members :
  leader ∈ member_list strip leader members ∧
  (leader ≠ "" → Forall (λ e, e ≠ "") (member_list strip leader members)).
Proof.
  unfold member_list. case_bool_decide as Hin.
  - split; [done |]. intros _. apply Forall_forall.
    intros e (x & -> & Hx)%list_elem_of_fmap.
    by apply list_elem_of_filter in Hx as [? _].
  - split; [apply elem_of_app; right; left |].
    intros Hne. apply Forall_app. split; [| by apply Forall_singleton].
    apply Forall_forall.
    intros e (x & -> & Hx)%list_elem_of_fmap.
    by apply list_elem_of_filter in Hx as [? _].
Qed.

(** X8.  The handler [create_team] either adds exactly one team at the end
    of the team file and leaves everything else as it is, or changes
    nothing.  The team it adds carries the stripped name and leader, has
    the leader among its members, has at least two members, none of them
    an empty string, and starts available, without a task, with zero
    cleanups and points. *)
Theorem create_team_form_adds_valid_team strip clk rnd nm leader entries w :
  match (create_team_form strip clk rnd nm leader entries w).1 with
  | TeamCreated =>
      ∃ t, (create_team_form strip clk rnd nm leader entries w).2
           = {| cleanups_file := cleanups_file w;
                teams_file := teams_file w ++ [t] |} ∧
        team_id t = new_id "team_" clk rnd ∧
        name t = strip nm ∧ leader_email t = strip leader ∧
        leader_email t ∈ members t ∧ (2 ≤ length (members t))%nat ∧
        Forall (λ e, e ≠ "") (members t) ∧
        team_status t = "available" ∧ current_task t = None ∧
        total_cleanups t = 0 ∧ total_points t = 0
  | _ => (create_team_form strip clk rnd nm leader entries w).2 = w
  end.
Proof.
  unfold create_team_form.
  destruct (negb (truthy (Some (strip nm)))) eqn:Hn; [done |].
  destruct (negb (truthy (Some (strip leader)))) eqn:Hl; [done |].
  apply negb_false_iff, truthy_Some in Hl. simpl.
  destruct (member_list_spec strip (strip leader) entries) as [Hin Hall].
  destruct (length (member_list strip (strip leader) entries) <? 2)%nat
    eqn:Hlen; [done |].
  apply Nat.ltb_ge in Hlen.
  unfold create_team, load_teams, save_teams, new_team. simpl.
  destruct (member_list strip (strip leader) entries) as [| m ms] eqn:E;
    [simpl in Hlen; lia |].
  eexists. split; [reflexivity |]. simpl. split_and!; try done.
  by apply Hall.
Qed.

(** ** A new report *)

Lemma create_cleanup_report_unfold clk rnd r w :
  create_cleanup_report clk rnd r w =
    (new_id "cleanup_" clk rnd,
     (auto_assign_team (later 3 clk) (new_id "cleanup_" clk rnd)
        (save_cleanups
           (cleanups_file w
            ++ [new_cleanup (later 1 clk) (new_id "cleanup_" clk rnd) r])
           w)).2).
Proof.
  unfold create_cleanup_report, load_cleanups.
  by destruct (auto_assign_team _ _ _).
Qed.



(** X10.  [create_cleanup_report] when the id it draws is already on file
    (the id is a second-resolution time stamp and a four-digit random
    number): the task it adds stays pending and without a team, and the
    automatic assignment goes to the older task of that id, which is put
    in progress with the chosen team whatever its status was. *)
Theorem create_cleanup_report_collision clk rnd r w i c t0 :
  find_cleanup (new_id "cleanup_" clk rnd) (cleanups_file w) = Some (i, c) →
  t0 ∈ teams_file w → team_status t0 = "available" →
  let w' := (create_cleanup_report clk rnd r w).2 in
  ∃ c_old c_new,
    cleanups_file w' !! i = Some c_old ∧
    cleanups_file w' !! length (cleanups_file w) = Some c_new ∧
    length (cleanups_file w') = S (length (cleanups_file w)) ∧
    report_id c_new = new_id "cleanup_" clk rnd ∧
    status c_new = "pending" ∧ assigned_team c_new = None ∧
    report_id c_old = new_id "cleanup_" clk rnd ∧
    pollution_report c_old = pollution_report c ∧
    status c_old = "in_progress" ∧ is_Some (assigned_team c_old).
Proof.
  intros Hc Ht0 Hst0 w'. subst w'.
  rewrite create_cleanup_report_unfold. simpl.
  set (rid := new_id "cleanup_" clk rnd) in *.
  set (c0 := new_cleanup (later 1 clk) rid r).
  set (w1 := save_cleanups (cleanups_file w ++ [c0]) w).
  destruct (find_cleanup_lookup _ _ _ _ Hc) as [Hi Hrid].
  assert (i < length (cleanups_file w))%nat as Hlt
    by by eapply lookup_lt_Some.
  assert (find_cleanup rid (cleanups_file w1) = Some (i, c)) as Hc1.
  { unfold find_cleanup in *. simpl. by apply list_find_app_l. }
  destruct (py_max (λ jt : nat * team, team_key jt.2)
              (available_teams (teams_file w1))) as [[j b] |] eqn:Hm.
  2:{ destruct (available_teams (teams_file w1)) as [| x l] eqn:E; [| done].
      apply list_elem_of_lookup_1 in Ht0 as [k Hk].
      assert ((k, t0) ∈ available_teams (teams_file w1)) as Hin
        by by apply elem_of_available_teams.
      rewrite E in Hin. by apply elem_of_nil in Hin. }
  rewrite (auto_assign_team_found (later 3 clk) rid w1 i c j b Hc1 Hm).
  simpl. eexists _, c0. split_and!.
  - apply list_lookup_insert_eq. rewrite length_app. lia.
  - rewrite list_lookup_insert_ne by lia.
    rewrite lookup_app_r by lia. by rewrite Nat.sub_diag.
  - rewrite length_insert, length_app. simpl. lia.
  - done.
  - done.
  - done.
  - done.
  - done.
  - done.
  - by eexists.
Qed.

Lemma create_cleanup_report_collision_witness :
  ∃ c_old c_new,
    cleanups_file
      (create_cleanup_report (sample_clock 10) 2222 (sample_report 40)
         {| cleanups_file :=
              [sample_task sample_task_id "cleaned" (Some "A") "" []];
            teams_file := pool_ABC |}).2 !! 0%nat = Some c_old ∧
    cleanups_file
      (create_cleanup_report (sample_clock 10) 2222 (sample_report 40)
         {| cleanups_file :=
              [sample_task sample_task_id "cleaned" (Some "A") "" []];
            teams_file := pool_ABC |}).2 !! 1%nat = Some c_new ∧
    status c_new = "pending" ∧ status c_old = "in_progress".
Proof.
  destruct (create_cleanup_report_collision (sample_clock 10) 2222
              (sample_report 40)
              {| cleanups_file :=
                   [sample_task sample_task_id "cleaned" (Some "A") "" []];
                 teams_file := pool_ABC |}
              0%nat (sample_task sample_task_id "cleaned" (Some "A") "" [])
              (sample_team "A" 5 10 "available" None))
    as (c_old & c_new & H1 & H2 & _ & _ & H3 & _ & _ & _ & H4 & _);
    [reflexivity | apply list_elem_of_here | reflexivity |].
  by exists c_old, c_new.
Defined.

(** ** The status form *)

(** X11.  The handler [update_status] changes nothing when no status was
    sent; otherwise it flashes success exactly when the task is on file,
    and then the task has the status sent and the stripped notes, and the
    photo list it had (the form cannot add photos). *)
Theorem update_status_form strip clk rid st notes w :
  (truthy st = false →
     update_status strip clk rid st notes w = (StatusRequired, w)) ∧
  (∀ s, st = Some s → s ≠ "" →
     (find_cleanup rid (cleanups_file w) = None →
        update_status strip clk rid st notes w = (StatusNotUpdated, w)) ∧
     (∀ i c, find_cleanup rid (cleanups_file w) = Some (i, c) →
        (update_status strip clk rid st notes w).1 = StatusUpdated ∧
        ∃ c', cleanups_file (update_status strip clk rid st notes w).2 !! i
                = Some c' ∧
          status c' = s ∧ cleanup_notes c' = strip notes ∧
          verification_photos c' = verification_photos c)).
Proof.
  split.
  - intros Hst. unfold update_status. by rewrite Hst.
  - intros s -> Hne%truthy_Some. unfold update_status. rewrite Hne. simpl.
    split.
    + intros Hc. unfold update_cleanup_status, load_cleanups.
      by rewrite Hc.
    + intros i c Hc. destruct (find_cleanup_lookup _ _ _ _ Hc) as [Hi _].
      unfold update_cleanup_status, load_cleanups, load_teams. rewrite Hc.
      destruct (String.eqb s CleanupStatus.IN_PROGRESS && _);
        [| destruct (String.eqb s CleanupStatus.CLEANED)]; simpl;
        (split; [done |]); eexists;
        (split; [by eapply lookup_insert_found |]); done.
Qed.

Lemma update_status_form_witness :
  update_status (λ s, s) (sample_clock 0) "t1" None "note"
    {| cleanups_file := [sample_task "t1" "pending" None "" []];
       teams_file := [] |}
  = (StatusRequired,
     {| cleanups_file := [sample_task "t1" "pending" None "" []];
        teams_file := [] |}).
Proof.
  apply (update_status_form (λ s, s) (sample_clock 0) "t1" None "note").
  reflexivity.
Defined.

(** ** Assignment and the start date *)

(** X12.  An assignment, automatic or manual, puts the task in progress
    but leaves its start date as it was, so a task that was never updated
    is in progress without a start date.  A status update to "in_progress"
    sets the start date when the task has none, and leaves it alone when
    it has one. *)
Theorem start_date_is_set_by_update clk rid w i c :
  find_cleanup rid (cleanups_file w) = Some (i, c) →
  (∀ tid, (auto_assign_team clk rid w).1 = Some tid →
     ∃ c', cleanups_file (auto_assign_team clk rid w).2 !! i = Some c' ∧
       status c' = "in_progress" ∧ start_date c' = start_date c) ∧
  (∀ tid, (assign_team clk rid tid w).1 = TeamAssigned →
     ∃ c', cleanups_file (assign_team clk rid tid w).2 !! i = Some c' ∧
       status c' = "in_progress" ∧ start_date c' = start_date c) ∧
  (∀ notes photos,
     ∃ c', cleanups_file
             (update_cleanup_status clk rid "in_progress" notes photos w).2
             !! i = Some c' ∧
       start_date c' = if truthy (start_date c) then start_date c
                       else Some (isoformat (clk 1%nat))).
Proof.
  intros Hc. destruct (find_cleanup_lookup _ _ _ _ Hc) as [Hi _].
  split_and!.
  - intros tid. unfold auto_assign_team, load_cleanups, load_teams.
    rewrite Hc. destruct (py_max _ _) as [[j b] |]; [| done]. simpl.
    intros _. eexists. split; [by eapply lookup_insert_found |]. done.
  - intros tid. unfold assign_team, load_cleanups, load_teams.
    destruct (negb (truthy tid)); [done |]. rewrite Hc.
    destruct (find_team _ _) as [[j t] |]; [| done].
    destruct (negb (String.eqb (team_status t) "available")); [done |].
    simpl. intros _. eexists.
    split; [by eapply lookup_insert_found |]. done.
  - intros notes photos.
    unfold update_cleanup_status, load_cleanups, load_teams. rewrite Hc.
    destruct photos as [[| p ps] |]; simpl;
      destruct (truthy (start_date c)); simpl; eexists;
      (split; [by eapply lookup_insert_found |]); done.
Qed.

Lemma start_date_is_set_by_update_witness :
  ∃ c', cleanups_file
          (auto_assign_team (sample_clock 0) "t1"
             {| cleanups_file := [sample_task "t1" "pending" None "" []];
                teams_file := pool_ABC |}).2 !! 0%nat = Some c' ∧
    status c' = "in_progress" ∧ start_date c' = None.
Proof.
  destruct (start_date_is_set_by_update (sample_clock 0) "t1"
              {| cleanups_file := [sample_task "t1" "pending" None "" []];
                 teams_file := pool_ABC |}
              0%nat (sample_task "t1" "pending" None "" []))
    as (H & _); [reflexivity |].
  apply (H "B"). reflexivity.
Defined.

(** ** The available teams after an assignment *)

Lemma filter_insert_length {A} (P : A → Prop) `{∀ x, Decision (P x)}
    (l : list A) j x y :
  l !! j = Some x →
  (length (filter P (<[j:=y]> l)) + (if decide (P x) then 1 else 0)
   = length (filter P l) + (if decide (P y) then 1 else 0))%nat.
Proof.
  revert j. induction l as [| z l IH]; intros j Hj; [done |].
  destruct j as [| j]; simpl in *.
  - injection Hj as ->. rewrite !filter_cons.
    destruct (decide (P x)), (decide (P y)); simpl; lia.
  - rewrite !filter_cons. specialize (IH j Hj).
    destruct (decide (P z)); simpl; lia.
Qed.

(** X13.  An auto-assignment succeeds exactly when the task is on file and
    [api_available_teams] is not empty; the team it returns was on that
    list, and afterwards the list is one shorter and the statistics show
    one available team less and one busy team more, with the same number
    of tasks and teams. *)
Theorem auto_assign_team_takes_one_available clk rid w :
  (is_Some (auto_assign_team clk rid w).1 ↔
   is_Some (find_cleanup rid (cleanups_file w)) ∧ api_available_teams w ≠ [])
  ∧
  (∀ tid, (auto_assign_team clk rid w).1 = Some tid →
     let w' := (auto_assign_team clk rid w).2 in
     let s := get_cleanup_stats w in
     let s' := get_cleanup_stats w' in
     (∃ b, b ∈ api_available_teams w ∧ team_id b = tid) ∧
     length (api_available_teams w) = S (length (api_available_teams w')) ∧
     stat_available_teams s = S (stat_available_teams s') ∧
     busy_teams s' = S (busy_teams s) ∧
     total_teams s' = total_teams s ∧
     total_reports s' = total_reports s).
Proof.
  assert (api_available_teams w = [] ↔ available_teams (teams_file w) = [])
    as Hsame.
  { unfold api_available_teams, load_teams. split; intros E.
    - apply available_teams_nil. intros t Ht Hst.
      assert (t ∈ filter (λ t, team_status t = "available") (teams_file w))
        as Hin by by apply list_elem_of_filter.
      rewrite E in Hin. by apply elem_of_nil in Hin.
    - destruct (filter _ (teams_file w)) as [| t l] eqn:E'; [done |].
      assert (t ∈ filter (λ t, team_status t = "available") (teams_file w))
        as Hin by (rewrite E'; left).
      apply list_elem_of_filter in Hin as [Hst Hin].
      apply list_elem_of_lookup_1 in Hin as [k Hk].
      assert ((k, t) ∈ available_teams (teams_file w)) as Hin
        by by apply elem_of_available_teams.
      rewrite E in Hin. by apply elem_of_nil in Hin. }
  split.
  - rewrite Hsame. unfold auto_assign_team, load_cleanups, load_teams.
    destruct (find_cleanup _ _) as [[i c] |].
    2:{ simpl. split; [by intros [? ?] | by intros [[? ?] _]]. }
    destruct (available_teams (teams_file w)) as [| x l]; simpl.
    + split; [by intros [? ?] | by intros [_ ?]].
    + destruct (max_from _ x l) as [j b]. simpl. split; [| by eexists].
      intros _. split; [by eexists | done].
  - intros tid.
    destruct (find_cleanup rid (cleanups_file w)) as [[i c] |] eqn:Hc.
    2:{ unfold auto_assign_team, load_cleanups. by rewrite Hc. }
    destruct (py_max (λ jt : nat * team, team_key jt.2)
                (available_teams (teams_file w))) as [[j b] |] eqn:Hm.
    2:{ unfold auto_assign_team, load_cleanups, load_teams.
        by rewrite Hc, Hm. }
    rewrite (auto_assign_team_found clk rid w i c j b Hc Hm). simpl.
    intros [= <-].
    destruct (py_max_split _ _ _ Hm) as (l1 & l2 & Heq & _).
    assert ((j, b) ∈ available_teams (teams_file w)) as Hin.
    { rewrite Heq. apply elem_of_app. right. left. }
    apply elem_of_available_teams in Hin as [Hj Hst].
    pose proof (filter_insert_length (λ t, team_status t = "available")
                  (teams_file w) j b
                  (set_last_activity (isoformat (clk 2%nat))
                     (set_current_task (Some rid)
                        (set_team_status "busy" b))) Hj) as Hav.
    pose proof (filter_insert_length (λ t, team_status t = "busy")
                  (teams_file w) j b
                  (set_last_activity (isoformat (clk 2%nat))
                     (set_current_task (Some rid)
                        (set_team_status "busy" b))) Hj) as Hbu.
    simpl in Hav, Hbu. rewrite Hst in Hav, Hbu.
    repeat case_decide; try done.
    unfold api_available_teams, count_team_status, load_teams. simpl.
    rewrite !length_insert. split_and!; try lia; [| done].
    exists b. split; [| done]. apply list_elem_of_filter.
    split; [done |]. by eapply list_elem_of_lookup_2.
Qed.

Lemma auto_assign_team_takes_one_available_witness :
  length (api_available_teams
            {| cleanups_file := [sample_task "t1" "pending" None "" []];
               teams_file := pool_ABC |})
  = S (length (api_available_teams
                 (auto_assign_team (sample_clock 0) "t1"
                    {| cleanups_file :=
                         [sample_task "t1" "pending" None "" []];
                       teams_file := pool_ABC |}).2)).
Proof.
  destruct (auto_assign_team_takes_one_available (sample_clock 0) "t1"
              {| cleanups_file := [sample_task "t1" "pending" None "" []];
                 teams_file := pool_ABC |}) as [_ H].
  destruct (H "B") as (_ & Hlen & _); [reflexivity |]. exact Hlen.
Defined.

(** * The report book *)

Lemma list_find_insert_other {A} (P : A → Prop) `{∀ x, Decision (P x)}
    (l : list A) i x y :
  l !! i = Some x → ¬ P x → ¬ P y →
  list_find P (<[i:=y]> l) = list_find P l.
Proof.
  intros Hi Hx Hy. destruct (list_find P l) as [[k z] |] eqn:E.
  - apply list_find_Some in E as (Hk & Hz & Hleast).
    assert (k ≠ i) as Hne by (intros ->; congruence).
    apply list_find_Some. split_and!; [| done |].
    + by rewrite list_lookup_insert_ne.
    + intros j w Hj Hlt. destruct (decide (j = i)) as [-> | Hji].
      * rewrite list_lookup_insert_eq in Hj by by eapply lookup_lt_Some.
        by injection Hj as <-.
      * rewrite list_lookup_insert_ne in Hj by done. by eapply Hleast.
  - apply list_find_None in E. apply list_find_None.
    by apply Forall_insert.
Qed.

Lemma list_find_snoc {A} (P : A → Prop) `{∀ x, Decision (P x)}
    (l : list A) y :
  list_find P (l ++ [y]) =
    match list_find P l with
    | Some kz => Some kz
    | None => if decide (P y) then Some (length l, y) else None
    end.
Proof.
  destruct (list_find P l) as [[k z] |] eqn:E.
  - by apply list_find_app_l.
  - destruct (decide (P y)) as [Hy | Hy].
    + apply list_find_Some. split_and!; [| done |].
      * by rewrite lookup_app_r, Nat.sub_diag.
      * intros j w Hj Hlt. rewrite lookup_app_l in Hj by done.
        apply list_find_None in E.
        rewrite Forall_forall in E. apply E.
        by eapply list_elem_of_lookup_2.
    + apply list_find_None in E. apply list_find_None.
      apply Forall_app. split; [done |]. by constructor.
Qed.

(** What one [add_report] does to the entry found under [e]. *)
Lemma find_user_add_report r book e :
  Reports.find_user e (Reports.add_report r book).2 =
    if decide (reporter_email r = e) then
      match Reports.find_user e book with
      | Some (i, u) =>
          Some (i, {| Reports.name := Reports.name u;
                      Reports.email := Reports.email u;
                      Reports.reports := Reports.reports u ++ [r];
                      Reports.total_points :=
                        Reports.total_points u + points r |})
      | None =>
          Some (length book,
                {| Reports.name := reporter_name r;
                   Reports.email := reporter_email r;
                   Reports.reports := [r];
                   Reports.total_points := points r |})
      end
    else Reports.find_user e book.
Proof.
  unfold Reports.add_report. simpl.
  destruct (decide (reporter_email r = e)) as [<- | Hne].
  - destruct (Reports.find_user (reporter_email r) book) as [[i u] |] eqn:E.
    + unfold Reports.find_user in *.
      apply list_find_insert_same with (x := u); [done |].
      by apply list_find_Some in E as (_ & E & _).
    + unfold Reports.find_user in *. rewrite list_find_snoc, E. simpl.
      by rewrite decide_True.
  - destruct (Reports.find_user (reporter_email r) book) as [[i u] |] eqn:E.
    + unfold Reports.find_user in *.
      apply list_find_Some in E as (Hi & Hu & _).
      apply list_find_insert_other with (x := u); [done | |]; simpl;
        congruence.
    + unfold Reports.find_user in *. rewrite list_find_snoc. simpl.
      destruct (list_find (λ u, Reports.email u = e) book) as [[k z] |];
        [done |].
      by rewrite decide_False.
Qed.

Lemma add_report_books r book e :
  Reports.get_user_reports e (Reports.add_report r book).2 =
    Reports.get_user_reports e book ++
    (if decide (reporter_email r = e) then [r] else []) ∧
  Reports.get_user_total_points e (Reports.add_report r book).2 =
    Reports.get_user_total_points e book +
    (if decide (reporter_email r = e) then points r else 0).
Proof.
  unfold Reports.get_user_reports, Reports.get_user_total_points.
  rewrite find_user_add_report.
  destruct (decide (reporter_email r = e)).
  - destruct (Reports.find_user e book) as [[i u] |]; simpl; done.
  - destruct (Reports.find_user e book) as [[i u] |]; simpl;
      rewrite ?app_nil_r; split; (done || lia).
Qed.

(** X14.  [add_report] files the report under its reporter's e-mail and
    returns that reporter's new total: the total [get_user_total_points]
    gave before, plus the points of the report.  The reporter's list grows
    by the report at its end; the lists and totals of all other e-mails
    are as before. *)
Theorem add_report_files_the_report r book :
  let after := (Reports.add_report r book).2 in
  (Reports.add_report r book).1 =
    Reports.get_user_total_points (reporter_email r) book + points r ∧
  Reports.get_user_total_points (reporter_email r) after =
    (Reports.add_report r book).1 ∧
  Reports.get_user_reports (reporter_email r) after =
    Reports.get_user_reports (reporter_email r) book ++ [r] ∧
  ∀ e, e ≠ reporter_email r →
    Reports.get_user_reports e after = Reports.get_user_reports e book ∧
    Reports.get_user_total_points e after =
      Reports.get_user_total_points e book.
Proof.
  cbv zeta.
  assert (Reports.get_user_total_points (reporter_email r)
            (Reports.add_report r book).2 = (Reports.add_report r book).1)
    as Hret.
  { unfold Reports.get_user_total_points.
    pose proof (find_user_add_report r book (reporter_email r)) as Hf.
    unfold Reports.add_report in *. simpl in *. rewrite Hf.
    rewrite decide_True by done.
    destruct (Reports.find_user (reporter_email r) book) as [[i u] |];
      done. }
  destruct (add_report_books r book (reporter_email r)) as [Hrs Htot].
  rewrite decide_True in Hrs by done. rewrite decide_True in Htot by done.
  split_and!; [by rewrite <- Hret | done | done |].
  intros e Hne. destruct (add_report_books r book e) as [Hrs' Htot'].
  rewrite decide_False in Hrs' by done.
  rewrite decide_False in Htot' by done.
  rewrite app_nil_r in Hrs'. split; [done | lia].
Qed.

Lemma add_report_entries r book :
  NoDup (Reports.email <$> book) → Forall entry_adds_up book →
  NoDup (Reports.email <$> (Reports.add_report r book).2) ∧
  Forall entry_adds_up (Reports.add_report r book).2.
Proof.
  intros Hnd Hall. unfold Reports.add_report. simpl.
  destruct (Reports.find_user (reporter_email r) book) as [[i u] |] eqn:E;
    unfold Reports.find_user in E.
  - apply list_find_Some in E as (Hi & Hu & _). split.
    + rewrite list_fmap_insert. simpl. rewrite list_insert_id; [done |].
      by rewrite list_lookup_fmap, Hi.
    + apply Forall_insert; [done |].
      rewrite Forall_forall in Hall.
      destruct (Hall u) as (Htot & Hrs & _);
        [by eapply list_elem_of_lookup_2 |].
      split_and!; simpl.
      * rewrite fmap_app, foldr_app. simpl. rewrite Htot.
        generalize (points <$> Reports.reports u). intros l.
        induction l as [| z l IH]; simpl; lia.
      * apply Forall_app. split; [done |]. by constructor.
      * by destruct (Reports.reports u).
  - apply list_find_None in E. split.
    + rewrite fmap_app. simpl. apply NoDup_app. split_and!; [done | |].
      * intros e [u [-> Hin]]%list_elem_of_fmap Hr.
        apply list_elem_of_singleton in Hr.
        rewrite Forall_forall in E. by eapply E.
      * apply NoDup_singleton.
    + apply Forall_app. split; [done |]. constructor; [| done].
      split_and!; simpl; [lia | by repeat constructor | done].
Qed.

Lemma foldr_add_app (l k : list Z) :
  foldr Z.add 0 (l ++ k) = foldr Z.add 0 l + foldr Z.add 0 k.
Proof. induction l as [| z l IH]; simpl; lia. Qed.

(** The lists and totals after several reports, from any book. *)
Lemma add_reports_books rs book e :
  Reports.get_user_reports e (Reports.add_reports rs book) =
    Reports.get_user_reports e book ++
    filter (λ r, reporter_email r = e) rs ∧
  Reports.get_user_total_points e (Reports.add_reports rs book) =
    Reports.get_user_total_points e book +
    foldr Z.add 0 (points <$> filter (λ r, reporter_email r = e) rs).
Proof.
  unfold Reports.add_reports.
  induction rs as [| r rs IH] using rev_ind.
  - simpl. rewrite app_nil_r. split; [done | lia].
  - rewrite foldl_app. cbn [foldl]. destruct IH as (Hrs & Htot).
    destruct (add_report_books r
                (foldl (λ book r, (Reports.add_report r book).2) book rs) e)
      as [Hrs' Htot'].
    split.
    + by rewrite Hrs', Hrs, filter_app, <- (assoc_L (++)).
    + rewrite Htot', Htot, filter_app, fmap_app, foldr_add_app.
      rewrite filter_cons, filter_nil.
      destruct (decide (reporter_email r = e)); simpl; lia.
Qed.

Lemma add_reports_entries rs book :
  NoDup (Reports.email <$> book) → Forall entry_adds_up book →
  NoDup (Reports.email <$> Reports.add_reports rs book) ∧
  Forall entry_adds_up (Reports.add_reports rs book).
Proof.
  unfold Reports.add_reports. intros Hnd Hall.
  induction rs as [| r rs IH] using rev_ind; [done |].
  rewrite foldl_app. cbn [foldl]. destruct IH as [Hnd' Hall'].
  by apply add_report_entries.
Qed.

Lemma add_reports_app rs1 rs2 book :
  Reports.add_reports (rs1 ++ rs2) book =
  Reports.add_reports rs2 (Reports.add_reports rs1 book).
Proof. unfold Reports.add_reports. by rewrite foldl_app. Qed.

(** X15.  After any reports are added to an empty book, the list kept
    under an e-mail is the reports added with that e-mail, in the order
    they were added, and the total is the sum of their points; no e-mail
    has two entries, and every entry's total is the sum of the points of
    the reports it lists. *)
Theorem add_reports_groups_by_email rs e :
  let book := Reports.add_reports rs [] in
  Reports.get_user_reports e book =
    filter (λ r, reporter_email r = e) rs ∧
  Reports.get_user_total_points e book =
    foldr Z.add 0 (points <$> filter (λ r, reporter_email r = e) rs) ∧
  NoDup (Reports.email <$> book) ∧
  Forall entry_adds_up book.
Proof.
  cbv zeta.
  destruct (add_reports_books rs [] e) as [Hrs Htot].
  destruct (add_reports_entries rs []) as [Hnd Hall];
    [constructor | constructor |].
  split_and!; [| | done | done].
  - by rewrite Hrs.
  - rewrite Htot. unfold Reports.get_user_total_points. simpl. lia.
Qed.

(** * The rewards ledger *)

(** A rule of [_qualifies_for_badge] reads the badge's id and the three
    point counts. *)
Lemma qualifies_ext u u' b b' :
  Rewards.badge_id b = Rewards.badge_id b' →
  Rewards.reporter_points u = Rewards.reporter_points u' →
  Rewards.cleanup_points u = Rewards.cleanup_points u' →
  Rewards.total_points u = Rewards.total_points u' →
  Rewards._qualifies_for_badge u b = Rewards._qualifies_for_badge u' b'.
Proof.
  unfold Rewards._qualifies_for_badge. by intros -> -> -> ->.
Qed.

Ltac by_badge_id id :=
  destruct (String.eqb_spec id "first_report") as [-> |];
  [| destruct (String.eqb_spec id "reporter_10") as [-> |];
  [| destruct (String.eqb_spec id "reporter_50") as [-> |];
  [| destruct (String.eqb_spec id "first_cleanup") as [-> |];
  [| destruct (String.eqb_spec id "cleanup_10") as [-> |];
  [| destruct (String.eqb_spec id "cleanup_50") as [-> |];
  [| destruct (String.eqb_spec id "environmentalist") as [-> |]]]]]]].

Ltac by_leb :=
  repeat match goal with
         | H : context [?a <=? ?b] |- _ => destruct (Z.leb_spec a b)
         | |- context [?a <=? ?b] => destruct (Z.leb_spec a b)
         end.

(** The rules, one by one. *)
Lemma qualifies_rules u b :
  Rewards._qualifies_for_badge u b = true ↔
  (Rewards.badge_id b = "first_report" ∧ 10 ≤ Rewards.reporter_points u) ∨
  (Rewards.badge_id b = "reporter_10" ∧ 50 ≤ Rewards.reporter_points u) ∨
  (Rewards.badge_id b = "reporter_50" ∧ 150 ≤ Rewards.reporter_points u) ∨
  (Rewards.badge_id b = "first_cleanup" ∧ 25 ≤ Rewards.cleanup_points u) ∨
  (Rewards.badge_id b = "cleanup_10" ∧ 100 ≤ Rewards.cleanup_points u) ∨
  (Rewards.badge_id b = "cleanup_50" ∧ 300 ≤ Rewards.cleanup_points u) ∨
  (Rewards.badge_id b = "environmentalist" ∧
   500 ≤ Rewards.total_points u).
Proof.
  unfold Rewards._qualifies_for_badge. cbv zeta.
  generalize (Rewards.badge_id b). intros id.
  by_badge_id id; simpl; by_leb; simpl;
    (split; [intros; try done; tauto |]);
    intros [[? ?] | [[? ?] | [[? ?] | [[? ?] | [[? ?] | [[? ?] | [? ?]]]]]]];
    first [done | lia].
Qed.

Lemma qualifies_mono u u' b :
  Rewards.reporter_points u ≤ Rewards.reporter_points u' →
  Rewards.cleanup_points u ≤ Rewards.cleanup_points u' →
  Rewards.total_points u ≤ Rewards.total_points u' →
  Rewards._qualifies_for_badge u b = true →
  Rewards._qualifies_for_badge u' b = true.
Proof.
  intros Hr Hc Ht. rewrite !qualifies_rules.
  intros [[? ?] | [[? ?] | [[? ?] | [[? ?] | [[? ?] | [[? ?] | [? ?]]]]]]];
    [left | right; left | do 2 right; left | do 3 right; left
    | do 4 right; left | do 5 right; left | do 6 right];
    (split; [done | lia]).
Qed.

Lemma check_for_new_badges_ext u u' l :
  Rewards.badges u = Rewards.badges u' →
  Rewards.reporter_points u = Rewards.reporter_points u' →
  Rewards.cleanup_points u = Rewards.cleanup_points u' →
  Rewards.total_points u = Rewards.total_points u' →
  Rewards._check_for_new_badges u l = Rewards._check_for_new_badges u' l.
Proof.
  intros Hb Hr Hc Ht. unfold Rewards._check_for_new_badges. f_equal.
  apply list_filter_iff. intros b. rewrite Hb.
  by rewrite (qualifies_ext u u' b b).
Qed.

(** What [award_points] computes from the entry it starts from, and what
    it writes. *)
Lemma award_points_unfold clk e p cat l :
  let u0 := match Rewards.find_user e (Rewards.rewards_file l) with
            | Some (_, d) => d
            | None => Rewards.UserRewards clk e
            end in
  let u := (Rewards.award_points clk e p cat l).1 in
  let new := Rewards._check_for_new_badges
               (Rewards.set_badges (Rewards.badges u0) u) l in
  Rewards.rewards_file (Rewards.award_points clk e p cat l).2 =
    match Rewards.find_user e (Rewards.rewards_file l) with
    | Some (i, _) => <[i:=u]> (Rewards.rewards_file l)
    | None => Rewards.rewards_file l ++ [u]
    end ∧
  Rewards.badges_file (Rewards.award_points clk e p cat l).2 =
    Rewards.badges_file l ∧
  Rewards.email u = e ∧
  Rewards.total_points u = Rewards.total_points u0 + p ∧
  Rewards.reporter_points u =
    (if String.eqb cat "reporter" then Rewards.reporter_points u0 + p
     else Rewards.reporter_points u0) ∧
  Rewards.cleanup_points u =
    (if String.eqb cat "reporter" then Rewards.cleanup_points u0
     else if String.eqb cat "cleanup" then Rewards.cleanup_points u0 + p
     else Rewards.cleanup_points u0) ∧
  level_in_step u ∧
  Rewards.badges u = Rewards.badges u0 ++ new ∧
  concat (Rewards.achievement_badges <$> Rewards.achievements u) =
    concat (Rewards.achievement_badges <$> Rewards.achievements u0) ++ new.
Proof.
  cbv zeta.
  assert (Rewards.email
            match Rewards.find_user e (Rewards.rewards_file l) with
            | Some (_, d) => d
            | None => Rewards.UserRewards clk e
            end = e) as Hemail.
  { destruct (Rewards.find_user e (Rewards.rewards_file l))
      as [[i d] |] eqn:E; [| done].
    by apply list_find_Some in E as (_ & E & _). }
  unfold Rewards.award_points, Rewards.load_rewards, level_in_step.
  destruct (Rewards.find_user e (Rewards.rewards_file l)) as [[i d] |];
    destruct (String.eqb cat "reporter");
    destruct (String.eqb cat "cleanup"); simpl in *;
    match goal with
    | |- context [Rewards._check_for_new_badges ?v l] =>
        destruct (Rewards._check_for_new_badges v l) as [| n ns] eqn:En
    end; simpl;
    match goal with
    | |- context [Rewards._check_for_new_badges ?v' l] =>
        match type of En with
        | Rewards._check_for_new_badges ?v l = _ =>
            rewrite (check_for_new_badges_ext v' v l) by done
        end
    end; rewrite En; rewrite ?app_nil_r;
    rewrite ?fmap_app, ?concat_app; simpl; rewrite ?app_nil_r;
    split_and!; done.
Qed.

Lemma find_user_award_points clk e p cat l e' :
  Rewards.find_user e'
    (Rewards.rewards_file (Rewards.award_points clk e p cat l).2) =
  if decide (e = e') then
    Some (match Rewards.find_user e (Rewards.rewards_file l) with
          | Some (i, _) => i
          | None => length (Rewards.rewards_file l)
          end, (Rewards.award_points clk e p cat l).1)
  else Rewards.find_user e' (Rewards.rewards_file l).
Proof.
  destruct (award_points_unfold clk e p cat l) as (Hfile & _ & Hemail & _).
  rewrite Hfile. clear Hfile.
  generalize dependent (Rewards.award_points clk e p cat l).1. intros u Hu.
  unfold Rewards.find_user in *.
  destruct (decide (e = e')) as [<- | Hne].
  - destruct (list_find (λ r, Rewards.email r = e) (Rewards.rewards_file l))
      as [[i d] |] eqn:E.
    + by apply list_find_insert_same with (x := d).
    + rewrite list_find_snoc, E. by rewrite decide_True.
  - destruct (list_find (λ r, Rewards.email r = e) (Rewards.rewards_file l))
      as [[i d] |] eqn:E.
    + apply list_find_Some in E as (Hi & Hd & _).
      apply list_find_insert_other with (x := d); [done | |]; congruence.
    + rewrite list_find_snoc.
      destruct (list_find (λ r, Rewards.email r = e')
                  (Rewards.rewards_file l)) as [[k z] |]; [done |].
      rewrite decide_False; [done | congruence].
Qed.

(** The entries of a ledger after a run, whatever is asked of the
    requests: an invariant of the entries holds when a new user has it and
    an award keeps it. *)
Lemma run_users (Q : Rewards.request → Prop)
    (I : Rewards.user_rewards → Prop) :
  (∀ clk e, I (Rewards.UserRewards clk e)) →
  (∀ clk e p cat l,
     Q (Rewards.AwardPoints clk e p cat) →
     Rewards.badges_file l = Rewards.default_badges →
     I match Rewards.find_user e (Rewards.rewards_file l) with
       | Some (_, d) => d
       | None => Rewards.UserRewards clk e
       end →
     I (Rewards.award_points clk e p cat l).1) →
  ∀ qs, Forall Q qs →
    Forall I (Rewards.rewards_file (Rewards.run qs Rewards.initial)) ∧
    NoDup (Rewards.email <$>
           Rewards.rewards_file (Rewards.run qs Rewards.initial)) ∧
    Rewards.badges_file (Rewards.run qs Rewards.initial) =
      Rewards.default_badges.
Proof.
  intros Hnew Hstep qs. unfold Rewards.run.
  induction qs as [| q qs IH] using rev_ind; intros HQ.
  - simpl. split_and!; [constructor | constructor | done].
  - apply Forall_app in HQ as [HQs HQq]. rewrite Forall_singleton in HQq.
    destruct (IH HQs) as (HI & Hnd & Hbs). clear IH.
    rewrite foldl_app. cbn [foldl].
    set (l := foldl (λ l q, Rewards.handle q l) Rewards.initial qs) in *.
    destruct q as [clk e p cat | clk e]; cbn [Rewards.handle].
    + destruct (award_points_unfold clk e p cat l)
        as (Hfile & Hbadges & Hemail & _).
      pose proof (Hstep clk e p cat l HQq Hbs) as Hu.
      rewrite Hfile, Hbadges.
      destruct (Rewards.find_user e (Rewards.rewards_file l))
        as [[i d] |] eqn:E; unfold Rewards.find_user in E.
      * apply list_find_Some in E as (Hi & Hd & _).
        split_and!; [| | done].
        -- apply Forall_insert; [done |]. apply Hu.
           rewrite Forall_forall in HI. apply HI.
           by eapply list_elem_of_lookup_2.
        -- rewrite list_fmap_insert, Hemail.
           rewrite list_insert_id; [done |].
           by rewrite list_lookup_fmap, Hi, <- Hd.
      * apply list_find_None in E. split_and!; [| | done].
        -- apply Forall_app. split; [done |]. constructor; [| done].
           apply Hu, Hnew.
        -- rewrite fmap_app. cbn [fmap list_fmap]. rewrite Hemail.
           apply NoDup_app. split_and!; [done | | apply NoDup_singleton].
           intros e0 [u [-> Hin]]%list_elem_of_fmap Hr.
           apply list_elem_of_singleton in Hr.
           rewrite Forall_forall in E. by eapply E.
    + unfold Rewards.get_user_stats, Rewards.get_or_create_user,
        Rewards.load_rewards.
      destruct (Rewards.find_user e (Rewards.rewards_file l))
        as [[i d] |] eqn:E; unfold Rewards.find_user in E; simpl.
      * done.
      * apply list_find_None in E. split_and!; [| | done].
        -- apply Forall_app. split; [done |]. by constructor.
        -- rewrite fmap_app. simpl.
           apply NoDup_app. split_and!; [done | | apply NoDup_singleton].
           intros e0 [u [-> Hin]]%list_elem_of_fmap Hr.
           apply list_elem_of_singleton in Hr.
           rewrite Forall_forall in E. by eapply E.
Qed.

(** X17.  After any awards and look-ups on a new ledger, every user's
    level is one more than the hundreds of their points and their title is
    the title of that level; no e-mail has two entries; and the statistics
    of any e-mail show between 1 and 100 points to the next level, which
    together with the points make the level times 100, the progress being
    the remaining hundredths. *)
Theorem level_follows_points qs :
  let l := Rewards.run qs Rewards.initial in
  (∀ u, u ∈ Rewards.rewards_file l → level_in_step u) ∧
  NoDup (Rewards.email <$> Rewards.rewards_file l) ∧
  ∀ clk e,
    let s := (Rewards.get_user_stats clk e l).1 in
    1 ≤ Rewards.next_level_points s ≤ 100 ∧
    Rewards.stats_total_points s + Rewards.next_level_points s =
      Rewards.stats_level s * 100 ∧
    (Rewards.progress_to_next s ==
     inject_Z (100 - Rewards.next_level_points s) / inject_Z 100)%Q.
Proof.
  cbv zeta.
  destruct (run_users (λ _, True) level_in_step) with (qs := qs)
    as (HI & Hnd & _).
  { intros clk e. by split. }
  { intros clk e p cat l _ _ _.
    by destruct (award_points_unfold clk e p cat l)
      as (_ & _ & _ & _ & _ & _ & H & _). }
  { by apply Forall_true. }
  rewrite Forall_forall in HI. split_and!; [done | done |].
  intros clk e.
  assert (level_in_step
            (Rewards.get_or_create_user clk e
               (Rewards.run qs Rewards.initial)).1) as [Hlevel _].
  { unfold Rewards.get_or_create_user, Rewards.load_rewards.
    destruct (Rewards.find_user e _) as [[i d] |] eqn:E; simpl.
    - apply HI. apply list_find_Some in E as (Hi & _).
      by eapply list_elem_of_lookup_2.
    - by split. }
  unfold Rewards.get_user_stats.
  destruct (Rewards.get_or_create_user clk e
              (Rewards.run qs Rewards.initial)) as [u l']. simpl in *.
  rewrite Hlevel.
  pose proof (Z.div_mod (Rewards.total_points u) 100 ltac:(lia)) as Hdm.
  pose proof (Z.mod_pos_bound (Rewards.total_points u) 100 ltac:(lia))
    as Hm.
  split_and!; [lia | lia | lia |].
  replace (100 - ((Rewards.total_points u `div` 100 + 1) * 100
                  - Rewards.total_points u))
    with (Rewards.total_points u `mod` 100) by lia.
  reflexivity.
Qed.

Lemma award_points_keeps_sum clk e p cat l :
  Rewards.in_a_category (Rewards.AwardPoints clk e p cat) = true →
  sums_up match Rewards.find_user e (Rewards.rewards_file l) with
          | Some (_, d) => d
          | None => Rewards.UserRewards clk e
          end →
  sums_up (Rewards.award_points clk e p cat l).1.
Proof.
  unfold sums_up. intros Hcat H0.
  destruct (award_points_unfold clk e p cat l)
    as (_ & _ & _ & Ht & Hr & Hc & _).
  rewrite Ht, Hr, Hc. simpl in Hcat.
  destruct (String.eqb cat "reporter"); [lia |].
  destruct (String.eqb cat "cleanup"); [lia | done].
Qed.

(** X18.  When every award is made in the category "reporter" or
    "cleanup", as the handlers do, every user's total is the sum of their
    reporter points and their cleanup points. *)
Theorem total_is_reporter_plus_cleanup qs :
  Forall (λ q, Rewards.in_a_category q = true) qs →
  Forall sums_up (Rewards.rewards_file (Rewards.run qs Rewards.initial)).
Proof.
  intros HQ.
  destruct (run_users (λ q, Rewards.in_a_category q = true) sums_up)
    with (qs := qs) as (HI & _); [done | | done | done].
  intros clk e p cat l Hcat _ H0. by apply award_points_keeps_sum.
Qed.

Lemma total_is_reporter_plus_cleanup_witness :
  Forall sums_up
    (Rewards.rewards_file
       (Rewards.run
          [Rewards.AwardPoints (sample_clock 0) "ana@example.org" 15
             "reporter";
           Rewards.AwardPoints (sample_clock 5) "ana@example.org" 25
             "cleanup"]
          Rewards.initial)).
Proof.
  apply total_is_reporter_plus_cleanup.
  repeat constructor.
Defined.

Lemma default_badges_NoDup :
  NoDup (Rewards.badge_id <$> Rewards.default_badges).
Proof. apply (bool_decide_unpack _). by vm_compute. Qed.

(** X19.  After any awards and look-ups on a new ledger, a user holds no
    badge twice; the badges held are the badges of the achievements, in
    the order they were earned; and every badge held is one of the seven
    that have a rule, so "high_severity", "team_leader" and "verification"
    are never awarded. *)
Theorem badges_are_earned_once qs :
  Forall (λ u,
    NoDup (Rewards.badges u) ∧
    concat (Rewards.achievement_badges <$> Rewards.achievements u) =
      Rewards.badges u ∧
    ∀ id, id ∈ Rewards.badges u →
      id ∈ ["first_report"; "reporter_10"; "reporter_50"; "first_cleanup";
            "cleanup_10"; "cleanup_50"; "environmentalist"])
    (Rewards.rewards_file (Rewards.run qs Rewards.initial)).
Proof.
  destruct (run_users (λ _, True)
              (λ u, NoDup (Rewards.badges u) ∧
                    concat (Rewards.achievement_badges <$>
                            Rewards.achievements u) = Rewards.badges u ∧
                    ∀ id, id ∈ Rewards.badges u →
                      id ∈ ["first_report"; "reporter_10"; "reporter_50";
                            "first_cleanup"; "cleanup_10"; "cleanup_50";
                            "environmentalist"]))
    with (qs := qs) as (HI & _).
  - intros clk e. simpl. split_and!; [constructor | done |].
    by intros id Hid%elem_of_nil.
  - intros clk e p cat l _ Hbs (Hnd & Hach & Hids).
    destruct (award_points_unfold clk e p cat l)
      as (_ & _ & _ & _ & _ & _ & _ & Hb & Ha).
    rewrite Hb, Ha, Hach. clear Hb Ha.
    unfold Rewards._check_for_new_badges, Rewards.load_badges.
    rewrite Hbs. simpl Rewards.badges.
    split_and!; [| done |].
    + apply NoDup_app. split_and!; [done | |].
      * intros id Hid [b [-> Hb]]%list_elem_of_fmap.
        apply list_elem_of_filter in Hb as [[Hb _] _]. done.
      * eapply sublist_NoDup; [apply default_badges_NoDup |].
        apply fmap_sublist, sublist_filter.
    + intros id [Hid | [b [-> Hb]]%list_elem_of_fmap]%elem_of_app;
        [by apply Hids |].
      apply list_elem_of_filter in Hb as [[_ Hq] _].
      apply qualifies_rules in Hq.
      destruct Hq as [[-> _] | [[-> _] | [[-> _] | [[-> _] | [[-> _]
                     | [[-> _] | [-> _]]]]]]];
        apply (bool_decide_unpack _); by vm_compute.
  - by apply Forall_true.
  - done.
Qed.

Lemma UserRewards_holds_what_qualifies clk e :
  holds_what_qualifies (Rewards.UserRewards clk e).
Proof.
  intros b Hb. simpl. split; [by intros ?%elem_of_nil |].
  intros Hq%qualifies_rules. simpl in Hq. lia.
Qed.

Lemma award_points_keeps_badges clk e p cat l :
  0 ≤ p →
  Rewards.badges_file l = Rewards.default_badges →
  holds_what_qualifies
    match Rewards.find_user e (Rewards.rewards_file l) with
    | Some (_, d) => d
    | None => Rewards.UserRewards clk e
    end →
  holds_what_qualifies (Rewards.award_points clk e p cat l).1.
Proof.
  intros Hp Hbs H0 b Hb.
  destruct (award_points_unfold clk e p cat l)
    as (_ & _ & _ & Ht & Hr & Hc & _ & Hbadges & _).
  set (u0 := match Rewards.find_user e (Rewards.rewards_file l) with
             | Some (_, d) => d
             | None => Rewards.UserRewards clk e
             end) in *.
  set (u1 := (Rewards.award_points clk e p cat l).1) in *.
  rewrite Hbadges. clear Hbadges.
  unfold Rewards._check_for_new_badges, Rewards.load_badges.
  rewrite Hbs. simpl Rewards.badges.
  assert (∀ b', Rewards._qualifies_for_badge
                  (Rewards.set_badges (Rewards.badges u0) u1) b'
                = Rewards._qualifies_for_badge u1 b') as Hsame
    by (intros b'; by apply qualifies_ext).
  rewrite elem_of_app, list_elem_of_fmap. split.
  + intros [Hin | (b' & Hid & Hb')].
    * apply (qualifies_mono u0).
      -- rewrite Hr. destruct (String.eqb cat "reporter"); lia.
      -- rewrite Hc. destruct (String.eqb cat "reporter"); [lia |].
         destruct (String.eqb cat "cleanup"); lia.
      -- lia.
      -- by apply H0.
    * apply list_elem_of_filter in Hb' as [[_ Hq] _].
      rewrite Hsame in Hq. by rewrite (qualifies_ext u1 u1 b b').
  + intros Hq.
    destruct (decide (Rewards.badge_id b ∈ Rewards.badges u0))
      as [Hin | Hnin]; [by left |].
    right. exists b. split; [done |]. apply list_elem_of_filter.
    split; [| done]. split; [done |]. by rewrite Hsame.
Qed.

(** The rule of each badge, spelled out. *)
Lemma holds_what_qualifies_by_id u :
  holds_what_qualifies u → holds_at_threshold u.
Proof.
  intros HI. unfold holds_at_threshold.
  split_and!.
  all: match goal with
       | |- ?id ∈ _ ↔ _ =>
           match eval vm_compute in
                 (list_find (λ b, Rewards.badge_id b = id)
                    Rewards.default_badges) with
           | Some (?i, ?b) =>
               rewrite (HI b)
                 by (by apply (list_elem_of_lookup_2 _ i));
               rewrite qualifies_rules; simpl; split; [| tauto];
               intros [[? ?] | [[? ?] | [[? ?] | [[? ?] | [[? ?]
                      | [[? ?] | [? ?]]]]]]]; done
           end
       end.
Qed.

(** X20.  When no award is negative, after any awards and look-ups on a
    new ledger a user holds a badge exactly when their points reach its
    threshold: the three reporter badges at 10, 50 and 150 reporter
    points, the three cleanup badges at 25, 100 and 300 cleanup points,
    and "environmentalist" at 500 points in total. *)
Theorem badges_track_points qs :
  Forall (λ q, 0 ≤ Rewards.awarded q) qs →
  Forall holds_at_threshold
    (Rewards.rewards_file (Rewards.run qs Rewards.initial)).
Proof.
  intros HQ.
  destruct (run_users (λ q, 0 ≤ Rewards.awarded q) holds_what_qualifies)
    with (qs := qs) as (HI & _).
  - apply UserRewards_holds_what_qualifies.
  - intros clk e p cat l Hp Hbs H0. by apply award_points_keeps_badges.
  - done.
  - eapply Forall_impl; [exact HI |]. apply holds_what_qualifies_by_id.
Qed.

Lemma badges_track_points_witness :
  Forall holds_at_threshold
    (Rewards.rewards_file
       (Rewards.run
          [Rewards.AwardPoints (sample_clock 0) "ana@example.org" 15
             "reporter";
           Rewards.AwardPoints (sample_clock 5) "ana@example.org" 25
             "cleanup"]
          Rewards.initial)).
Proof.
  apply badges_track_points.
  repeat constructor; simpl; lia.
Defined.

(** The points under any e-mail, before and after an award. *)
Lemma award_points_credits clk e p cat l clk' e' :
  let before := (Rewards.get_or_create_user clk' e' l).1 in
  let after :=
    (Rewards.get_or_create_user clk' e'
       (Rewards.award_points clk e p cat l).2).1 in
  Rewards.total_points after =
    Rewards.total_points before + (if decide (e = e') then p else 0) ∧
  Rewards.reporter_points after =
    Rewards.reporter_points before +
    (if decide (e = e')
     then if String.eqb cat "reporter" then p else 0 else 0) ∧
  Rewards.cleanup_points after =
    Rewards.cleanup_points before +
    (if decide (e = e')
     then if String.eqb cat "reporter" then 0
          else if String.eqb cat "cleanup" then p else 0
     else 0).
Proof.
  cbv zeta. unfold Rewards.get_or_create_user, Rewards.load_rewards.
  rewrite find_user_award_points.
  destruct (decide (e = e')) as [<- | Hne].
  - destruct (award_points_unfold clk e p cat l)
      as (_ & _ & _ & Ht & Hr & Hc & _).
    cbn [fst]. rewrite Ht, Hr, Hc.
    destruct (Rewards.find_user e (Rewards.rewards_file l)) as [[i d] |];
      destruct (String.eqb cat "reporter");
      destruct (String.eqb cat "cleanup"); simpl; lia.
  - destruct (Rewards.find_user e' (Rewards.rewards_file l)) as [[i d] |];
      simpl; lia.
Qed.

(** X21.  The loop that rewards a team credits every e-mail 25 cleanup
    points, and 25 points in total, for each time it stands in the member
    list; reporter points are left as they are, as are the points of every
    e-mail that is not in the list. *)
Theorem award_members_credits clks ms l clk e :
  let before := (Rewards.get_or_create_user clk e l).1 in
  let after :=
    (Rewards.get_or_create_user clk e
       (Rewards.award_members clks ms l)).1 in
  let n := Z.of_nat (length (filter (λ m, m = e) ms)) in
  Rewards.cleanup_points after = Rewards.cleanup_points before + 25 * n ∧
  Rewards.total_points after = Rewards.total_points before + 25 * n ∧
  Rewards.reporter_points after = Rewards.reporter_points before.
Proof.
  cbv zeta. revert clks l.
  induction ms as [| m ms IH]; intros clks l.
  - simpl. lia.
  - cbn [Rewards.award_members].
    destruct (IH (λ k, clks (S k))
                (Rewards.award_points (clks 0%nat) m 25 "cleanup" l).2)
      as (Hc & Ht & Hr).
    destruct (award_points_credits (clks 0%nat) m 25 "cleanup" l clk e)
      as (Ht' & Hr' & Hc').
    rewrite Hc, Ht, Hr, Hc', Ht', Hr'. rewrite filter_cons.
    simpl String.eqb.
    destruct (decide (m = e)); simpl length; lia.
Qed.

(** * Points for a report *)

(** X16.  [calculate_points] gives 5, 10, 15, 20 or 25 points and never
    fewer for a higher score; two scores get the same points exactly when
    [get_severity_level] names them alike, and then [get_color_class]
    colours them alike; the class "danger" covers both "High" and
    "Very High", the scores from 50 to 89. *)
Theorem calculate_points_by_severity s s' :
  PollutionAnalyzer.calculate_points s ∈ [5; 10; 15; 20; 25] ∧
  PollutionAnalyzer.calculate_points (Z.min s s') ≤
    PollutionAnalyzer.calculate_points (Z.max s s') ∧
  (PollutionAnalyzer.calculate_points s =
     PollutionAnalyzer.calculate_points s' ↔
   PollutionAnalyzer.get_severity_level s =
     PollutionAnalyzer.get_severity_level s') ∧
  (PollutionAnalyzer.get_severity_level s =
     PollutionAnalyzer.get_severity_level s' →
   PollutionAnalyzer.get_color_class s =
     PollutionAnalyzer.get_color_class s') ∧
  (PollutionAnalyzer.get_color_class s = "danger" ↔ 50 ≤ s < 90).
Proof.
  unfold PollutionAnalyzer.calculate_points,
    PollutionAnalyzer.get_severity_level, PollutionAnalyzer.get_color_class.
  destruct (Z.min_spec s s') as [[? ->] | [? ->]];
    destruct (Z.max_spec s s') as [[? ->] | [? ->]]; try lia;
    repeat match goal with
           | |- context [?a <? ?b] => destruct (Z.ltb_spec a b)
           end;
    try lia; split_and!;
    first [ done | lia | by apply (bool_decide_unpack _)
          | split; intros; (done || lia) ].
Qed.

(** * The site *)

Lemma fmap_insert_same {A B} (f : A → B) (l : list A) i x y :
  l !! i = Some x → f y = f x → f <$> <[i:=y]> l = f <$> l.
Proof.
  intros Hi Hf. rewrite list_fmap_insert, Hf.
  apply list_insert_id. by rewrite list_lookup_fmap, Hi.
Qed.

(** The reports of the tasks, in the order of the file, after a call of
    the engine: only [create_cleanup_report] adds one. *)
Lemma auto_assign_team_reports clk rid w :
  pollution_report <$> cleanups_file (auto_assign_team clk rid w).2 =
  pollution_report <$> cleanups_file w.
Proof.
  unfold auto_assign_team, load_cleanups, load_teams.
  destruct (find_cleanup _ _) as [[i c] |] eqn:Hc; [| done].
  destruct (find_cleanup_lookup _ _ _ _ Hc) as [Hi _].
  destruct (py_max _ _) as [[j b] |]; [| done]. simpl.
  by apply fmap_insert_same with (x := c).
Qed.

Lemma handle_reports q w :
  pollution_report <$> cleanups_file (handle q w) =
  (pollution_report <$> cleanups_file w) ++
  match q with
  | CreateCleanupReport _ _ r => [r]
  | _ => []
  end.
Proof.
  destruct q as [clk rnd r | clk rnd nm leader mem | clk rid
    | clk rid st notes photos | clk rid email notes photos sc | clk rid tid
    | ext clk rid email notes uploads | clk rid]; cbn [handle];
    rewrite ?app_nil_r.
  - rewrite create_cleanup_report_unfold. cbn [snd].
    rewrite auto_assign_team_reports. simpl. by rewrite fmap_app.
  - done.
  - apply auto_assign_team_reports.
  - unfold update_cleanup_status, load_cleanups, load_teams.
    destruct (find_cleanup _ _) as [[i c] |] eqn:Hc; [| done].
    destruct (find_cleanup_lookup _ _ _ _ Hc) as [Hi _].
    destruct (String.eqb st CleanupStatus.IN_PROGRESS && _);
      [| destruct (String.eqb st CleanupStatus.CLEANED)]; simpl;
      apply fmap_insert_same with (x := c); try done;
      by destruct photos as [[| p ps] |].
  - unfold submit_cleanup_verification, load_cleanups, load_teams.
    destruct (find_cleanup _ _) as [[i c] |] eqn:Hc; [| done].
    destruct (find_cleanup_lookup _ _ _ _ Hc) as [Hi _].
    destruct (not_assigned_to _ _ _); [done |].
    destruct sc as [sc |]; [destruct (sc <=? 30) |]; simpl;
      by apply fmap_insert_same with (x := c).
  - unfold assign_team, load_cleanups, load_teams.
    destruct (negb (truthy tid)); [done |].
    destruct (find_cleanup _ _) as [[i c] |] eqn:Hc; [| done].
    destruct (find_cleanup_lookup _ _ _ _ Hc) as [Hi _].
    destruct (find_team _ _) as [[j t] |]; [| done].
    destruct (negb (String.eqb (team_status t) "available")); [done |].
    simpl. by apply fmap_insert_same with (x := c).
  - unfold verify_cleanup, load_cleanups, load_teams.
    destruct (find_cleanup _ _) as [[i c] |] eqn:Hc; [| done].
    destruct (find_cleanup_lookup _ _ _ _ Hc) as [Hi _].
    destruct (assigned_team c) as [tid |]; [| done].
    destruct (negb (truthy (Some tid))); [done |].
    destruct (find_team _ _) as [[j t] |]; [| done].
    destruct (negb (bool_decide _)); [done |].
    destruct (negb (truthy (head uploads))); [done |].
    destruct (analyze_cleanup_verification ext <$> _); [done |].
    destruct (negb (Qle_bool _ _)); simpl;
      by apply fmap_insert_same with (x := c).
  - unfold mark_completed, load_cleanups, load_teams.
    destruct (find_cleanup _ _) as [[i c] |] eqn:Hc; [| done].
    destruct (find_cleanup_lookup _ _ _ _ Hc) as [Hi _].
    destruct (assigned_team c) as [tid |]; [| done].
    destruct (negb (truthy (Some tid))); [done |].
    destruct (find_team _ _) as [[j t] |]; [| done].
    simpl. by apply fmap_insert_same with (x := c).
Qed.

Lemma upload_unfold clk_r clk_a clk_c rnd fname nm em lat lon loc sc text s :
  let pts := PollutionAnalyzer.calculate_points sc in
  let r := new_report clk_r fname lat lon loc sc text nm em pts in
  (upload clk_r clk_a clk_c rnd fname nm em lat lon loc sc text s).2 =
  {| reports_file := (Reports.add_report r (reports_file s)).2;
     rewards := (Rewards.award_points clk_a em pts "reporter" (rewards s)).2;
     engine := handle (CreateCleanupReport clk_c rnd r) (engine s) |}.
Proof.
  cbv zeta. unfold upload. cbn [handle].
  destruct (Reports.add_report _ _) as [total book].
  destruct (Rewards.award_points _ _ _ _ _) as [u ledger].
  by destruct (create_cleanup_report _ _ _ _) as [rid w].
Qed.

(** What a visit does to each of the three books. *)
Lemma serve_engine v s :
  pollution_report <$> cleanups_file (engine (serve v s)) =
  (pollution_report <$> cleanups_file (engine s)) ++ uploaded v.
Proof.
  destruct v as [clk_r clk_a clk_c rnd fname nm em lat lon loc sc text
    | clk em | strip clk rnd nm leader entries | strip clk rid st notes
    | clk rid tid | ext clk clks rid em notes uploads | clk clks rid];
    cbn [serve uploaded]; rewrite ?app_nil_r.
  - rewrite upload_unfold. cbn [engine]. apply handle_reports.
  - done.
  - cbn [engine]. unfold create_team_form.
    destruct (_ || _); [done |]. destruct (_ <? _)%nat; [done |].
    pose proof (handle_reports
                  (CreateTeam clk rnd (strip nm) (strip leader)
                     (Some (member_list strip (strip leader) entries)))
                  (engine s)) as H.
    cbn [handle] in H. rewrite app_nil_r in H.
    by destruct (create_team _ _ _ _ _ _).
  - cbn [engine]. unfold update_status.
    destruct (negb (truthy st)); [done |].
    pose proof (handle_reports
                  (UpdateCleanupStatus clk rid (default "" st) (strip notes)
                     None) (engine s)) as H.
    cbn [handle] in H. rewrite app_nil_r in H.
    by destruct (update_cleanup_status _ _ _ _ _ _).
  - cbn [engine].
    pose proof (handle_reports (AssignTeam clk rid tid) (engine s)) as H.
    cbn [handle] in H. by rewrite app_nil_r in H.
  - pose proof (handle_reports
                  (VerifyCleanup ext clk rid em notes uploads) (engine s))
      as H.
    cbn [handle] in H. rewrite app_nil_r in H.
    by destruct (verify_cleanup _ _ _ _ _ _ _).
  - pose proof (handle_reports (MarkCompleted clk rid) (engine s)) as H.
    cbn [handle] in H. rewrite app_nil_r in H.
    by destruct (mark_completed _ _ _).
Qed.

Lemma serve_reports_file v s :
  reports_file (serve v s) =
  Reports.add_reports (uploaded v) (reports_file s).
Proof.
  destruct v as [clk_r clk_a clk_c rnd fname nm em lat lon loc sc text
    | clk em | strip clk rnd nm leader entries | strip clk rid st notes
    | clk rid tid | ext clk clks rid em notes uploads | clk clks rid];
    cbn [serve uploaded]; try done.
  - by rewrite upload_unfold.
  - by destruct (verify_cleanup _ _ _ _ _ _ _).
  - by destruct (mark_completed _ _ _).
Qed.

Lemma run_ledger_app qs1 qs2 l :
  Rewards.run (qs1 ++ qs2) l = Rewards.run qs2 (Rewards.run qs1 l).
Proof. unfold Rewards.run. by rewrite foldl_app. Qed.

Lemma award_members_run clks ms l :
  ∃ qs, Rewards.award_members clks ms l = Rewards.run qs l ∧
    Forall (λ q, ∃ clk m, q = Rewards.AwardPoints clk m 25 "cleanup") qs.
Proof.
  revert clks l. induction ms as [| m ms IH]; intros clks l.
  - exists []. by split.
  - destruct (IH (λ k, clks (S k))
                (Rewards.award_points (clks 0%nat) m 25 "cleanup" l).2)
      as (qs & Heq & Hqs).
    exists (Rewards.AwardPoints (clks 0%nat) m 25 "cleanup" :: qs). split.
    + cbn [Rewards.award_members]. by rewrite Heq.
    + constructor; [by eexists _, _ | done].
Qed.

(** The awards a visit makes: non-negative, and in one of the two
    categories. *)
Lemma serve_rewards v s :
  ∃ qs, rewards (serve v s) = Rewards.run qs (rewards s) ∧
    Forall (λ q, Rewards.in_a_category q = true ∧ 0 ≤ Rewards.awarded q)
      qs.
Proof.
  assert (∀ clks rid w l,
            ∃ qs, reward_team clks rid w l = Rewards.run qs l ∧
              Forall (λ q, Rewards.in_a_category q = true ∧
                           0 ≤ Rewards.awarded q) qs) as Hteam.
  { intros clks rid w l. unfold reward_team.
    destruct (team_of_task rid w) as [t |]; [| by exists []].
    destruct (award_members_run clks (members t) l) as (qs & Heq & Hqs).
    exists qs. split; [done |]. eapply Forall_impl; [exact Hqs |].
    intros q (clk & m & ->). simpl. split; [done | lia]. }
  destruct v as [clk_r clk_a clk_c rnd fname nm em lat lon loc sc text
    | clk em | strip clk rnd nm leader entries | strip clk rid st notes
    | clk rid tid | ext clk clks rid em notes uploads | clk clks rid];
    cbn [serve].
  - rewrite upload_unfold. cbn [rewards].
    exists [Rewards.AwardPoints clk_a em
              (PollutionAnalyzer.calculate_points sc) "reporter"].
    split; [done |]. constructor; [| done]. simpl. split; [done |].
    unfold PollutionAnalyzer.calculate_points.
    repeat match goal with
           | |- context [?a <? ?b] => destruct (a <? b)
           end; lia.
  - exists [Rewards.GetUserStats clk em]. cbn [rewards].
    split; [done |]. by repeat constructor.
  - exists []. by split.
  - exists []. by split.
  - exists []. by split.
  - destruct (verify_cleanup _ _ _ _ _ _ _) as [answer w]. cbn [rewards].
    destruct answer; try (exists []; by split). apply Hteam.
  - destruct (mark_completed _ _ _) as [answer w]. cbn [rewards].
    destruct answer; try (exists []; by split). apply Hteam.
Qed.

Lemma visits_app vs1 vs2 s :
  visits (vs1 ++ vs2) s = visits vs2 (visits vs1 s).
Proof. unfold visits. by rewrite foldl_app. Qed.

Lemma visits_reports_file vs s :
  reports_file (visits vs s) =
  Reports.add_reports (concat (uploaded <$> vs)) (reports_file s).
Proof.
  induction vs as [| v vs IH] using rev_ind; [done |].
  rewrite visits_app, fmap_app, concat_app, add_reports_app, <- IH.
  simpl. rewrite app_nil_r. apply serve_reports_file.
Qed.

Lemma visits_engine vs s :
  pollution_report <$> cleanups_file (engine (visits vs s)) =
  (pollution_report <$> cleanups_file (engine s)) ++
  concat (uploaded <$> vs).
Proof.
  induction vs as [| v vs IH] using rev_ind.
  - simpl. by rewrite app_nil_r.
  - rewrite visits_app, fmap_app, concat_app. simpl.
    rewrite serve_engine, IH, app_nil_r. by rewrite (assoc_L (++)).
Qed.

(** X22.  On a site started on empty files, the tasks of the engine carry,
    in the order of the file, exactly the reports that were uploaded: each
    upload makes one task and nothing else makes or drops one.  The
    reports [get_user_reports] lists for an e-mail are those among them
    that this e-mail reported, in the same order, and
    [get_user_total_points] is the sum of their points, each report
    having the points [calculate_points] gives for its score. *)
Theorem tasks_follow_uploads vs e :
  let s := visits vs new_site in
  let filed := pollution_report <$> cleanups_file (engine s) in
  filed = concat (uploaded <$> vs) ∧
  Reports.get_user_reports e (reports_file s) =
    filter (λ r, reporter_email r = e) filed ∧
  Reports.get_user_total_points e (reports_file s) =
    foldr Z.add 0 (points <$> filter (λ r, reporter_email r = e) filed) ∧
  Forall (λ r, points r = PollutionAnalyzer.calculate_points (score r))
    filed.
Proof.
  cbv zeta. rewrite visits_engine, visits_reports_file. simpl.
  destruct (add_reports_books (concat (uploaded <$> vs)) [] e)
    as [Hrs Htot].
  split_and!; [done | by rewrite Hrs | |].
  - rewrite Htot. unfold Reports.get_user_total_points. simpl. lia.
  - apply Forall_concat, Forall_fmap, Forall_forall. intros v _.
    destruct v; simpl; by repeat constructor.
Qed.

(** A look-up changes nobody's points. *)
Lemma get_user_stats_points clk' e' l clk e :
  let before := (Rewards.get_or_create_user clk e l).1 in
  let after :=
    (Rewards.get_or_create_user clk e
       (Rewards.get_user_stats clk' e' l).2).1 in
  Rewards.total_points after = Rewards.total_points before ∧
  Rewards.reporter_points after = Rewards.reporter_points before ∧
  Rewards.cleanup_points after = Rewards.cleanup_points before.
Proof.
  cbv zeta.
  unfold Rewards.get_user_stats, Rewards.get_or_create_user,
    Rewards.load_rewards.
  destruct (Rewards.find_user e' (Rewards.rewards_file l)) as [[i d] |];
    simpl; [done |].
  unfold Rewards.find_user. rewrite list_find_snoc.
  destruct (list_find (λ r, Rewards.email r = e) (Rewards.rewards_file l))
    as [[k z] |]; [done |].
  by destruct (decide _).
Qed.

(** The awards to a team change nobody's reporter points, take no cleanup
    points away, and give each member at least 25. *)
Lemma award_members_at_least clks ms l clk e :
  let before := (Rewards.get_or_create_user clk e l).1 in
  let after :=
    (Rewards.get_or_create_user clk e
       (Rewards.award_members clks ms l)).1 in
  Rewards.reporter_points after = Rewards.reporter_points before ∧
  Rewards.cleanup_points before ≤ Rewards.cleanup_points after ∧
  (e ∈ ms →
   Rewards.cleanup_points before + 25 ≤ Rewards.cleanup_points after).
Proof.
  cbv zeta. revert clks l.
  induction ms as [| m ms IH]; intros clks l.
  - simpl. split_and!; [done | lia | by intros ?%elem_of_nil].
  - cbn [Rewards.award_members].
    destruct (IH (λ k, clks (S k))
                (Rewards.award_points (clks 0%nat) m 25 "cleanup" l).2)
      as (Hr & Hc & Hm).
    destruct (award_points_credits (clks 0%nat) m 25 "cleanup" l clk e)
      as (_ & Hr' & Hc').
    simpl String.eqb in Hr', Hc'.
    rewrite Hr, Hr'. split_and!.
    + destruct (decide (m = e)); lia.
    + destruct (decide (m = e)); lia.
    + intros [-> | Hin]%elem_of_cons.
      * rewrite decide_True in Hc' by done. lia.
      * specialize (Hm Hin). destruct (decide (m = e)); lia.
Qed.

Lemma award_points_found clk e p cat l e' :
  is_Some (Rewards.find_user e' (Rewards.rewards_file l)) ∨ e = e' →
  is_Some (Rewards.find_user e'
             (Rewards.rewards_file (Rewards.award_points clk e p cat l).2)).
Proof.
  rewrite find_user_award_points.
  destruct (decide (e = e')); [by eexists | by intros [? | ?]].
Qed.

Lemma award_members_found clks ms l e :
  is_Some (Rewards.find_user e (Rewards.rewards_file l)) ∨ e ∈ ms →
  is_Some (Rewards.find_user e
             (Rewards.rewards_file (Rewards.award_members clks ms l))).
Proof.
  revert clks l. induction ms as [| m ms IH]; intros clks l.
  - simpl. by intros [? | ?%elem_of_nil].
  - cbn [Rewards.award_members]. intros H. apply IH.
    destruct H as [H | [-> | H]%elem_of_cons].
    + left. apply award_points_found. by left.
    + left. apply award_points_found. by right.
    + by right.
Qed.

(** X23.  On a site started on empty files the two books of points agree
    on what reporting has earned: for every e-mail, the total that
    [get_user_total_points] reads from the report book is the
    [reporter_points] the rewards ledger holds for it. *)
Theorem books_agree_on_reporter_points vs clk e :
  let s := visits vs new_site in
  Reports.get_user_total_points e (reports_file s) =
  Rewards.reporter_points (Rewards.get_or_create_user clk e (rewards s)).1.
Proof.
  cbv zeta. induction vs as [| v vs IH] using rev_ind; [done |].
  rewrite visits_app. simpl. set (s := visits vs new_site) in *.
  rewrite serve_reports_file.
  destruct (add_reports_books (uploaded v) (reports_file s) e)
    as [_ Htot].
  rewrite Htot, IH. clear Htot IH.
  destruct v as [clk_r clk_a clk_c rnd fname nm em lat lon loc sc text
    | clk' em | strip clk' rnd nm leader entries | strip clk' rid st notes
    | clk' rid tid | ext clk' clks rid em notes uploads | clk' clks rid];
    cbn [serve uploaded rewards]; simpl filter; simpl foldr;
    rewrite ?Z.add_0_r.
  - rewrite upload_unfold. cbn [rewards].
    destruct (award_points_credits clk_a em
                (PollutionAnalyzer.calculate_points sc) "reporter"
                (rewards s) clk e) as (_ & Hr & _).
    rewrite Hr. simpl String.eqb.
    rewrite filter_cons, filter_nil. simpl reporter_email.
    destruct (decide (em = e)); simpl; lia.
  - by destruct (get_user_stats_points clk' em (rewards s) clk e)
      as (_ & -> & _).
  - done.
  - done.
  - done.
  - destruct (verify_cleanup _ _ _ _ _ _ _) as [answer w]. cbn [rewards].
    destruct answer; try done. unfold reward_team.
    destruct (team_of_task rid (engine s)) as [t |]; [| done].
    by destruct (award_members_at_least clks (members t) (rewards s) clk e)
      as (-> & _).
  - destruct (mark_completed _ _ _) as [answer w]. cbn [rewards].
    destruct answer; try done. unfold reward_team.
    destruct (team_of_task rid (engine s)) as [t |]; [| done].
    by destruct (award_members_at_least clks (members t) (rewards s) clk e)
      as (-> & _).
Qed.

Lemma visits_rewards vs :
  ∃ qs, rewards (visits vs new_site) = Rewards.run qs Rewards.initial ∧
    Forall (λ q, Rewards.in_a_category q = true ∧ 0 ≤ Rewards.awarded q)
      qs.
Proof.
  induction vs as [| v vs (qs & Heq & Hqs)] using rev_ind.
  - exists []. by split.
  - rewrite visits_app. simpl.
    destruct (serve_rewards v (visits vs new_site)) as (qs' & Heq' & Hqs').
    exists (qs ++ qs'). split.
    + by rewrite run_ledger_app, <- Heq.
    + by apply Forall_app.
Qed.

Lemma visits_in_order vs :
  NoDup (Rewards.email <$>
         Rewards.rewards_file (rewards (visits vs new_site))) ∧
  Forall in_order (Rewards.rewards_file (rewards (visits vs new_site))).
Proof.
  destruct (visits_rewards vs) as (qs & -> & Hqs).
  destruct (run_users
              (λ q, Rewards.in_a_category q = true ∧ 0 ≤ Rewards.awarded q)
              (λ u, sums_up u ∧ holds_what_qualifies u ∧ level_in_step u ∧
                    0 ≤ Rewards.reporter_points u ∧
                    0 ≤ Rewards.cleanup_points u))
    with (qs := qs) as (HI & Hnd & _).
  - intros clk e. split_and!; try done.
    apply UserRewards_holds_what_qualifies.
  - intros clk e p cat l [Hcat Hp] Hbs (Hsum & Hq & _ & Hr & Hc).
    simpl in Hp. split_and!.
    + by apply award_points_keeps_sum.
    + by apply award_points_keeps_badges.
    + by destruct (award_points_unfold clk e p cat l)
        as (_ & _ & _ & _ & _ & _ & H & _).
    + destruct (award_points_unfold clk e p cat l)
        as (_ & _ & _ & _ & -> & _).
      destruct (String.eqb cat "reporter"); lia.
    + destruct (award_points_unfold clk e p cat l)
        as (_ & _ & _ & _ & _ & -> & _).
      destruct (String.eqb cat "reporter"); [lia |].
      destruct (String.eqb cat "cleanup"); lia.
  - done.
  - split; [done |]. eapply Forall_impl; [exact HI |].
    intros u (Hsum & Hq & Hlevel & Hr & Hc). unfold in_order.
    split_and!; try done; [by apply holds_what_qualifies_by_id |].
    destruct Hlevel as [-> _]. unfold sums_up in Hsum.
    assert (0 ≤ Rewards.total_points u `div` 100)
      by (apply Z.div_pos; lia).
    lia.
Qed.

(** X24.  The ledger of a site started on empty files is in order after
    any visits: no e-mail has two entries, and for every user the total is
    the reporter points plus the cleanup points, neither of them negative,
    the level is at least 1 and follows the total, and each badge with a
    rule is held exactly when its threshold is reached. *)
Theorem site_ledger_in_order vs :
  let l := rewards (visits vs new_site) in
  NoDup (Rewards.email <$> Rewards.rewards_file l) ∧
  ∀ u, u ∈ Rewards.rewards_file l →
    Rewards.total_points u =
      Rewards.reporter_points u + Rewards.cleanup_points u ∧
    0 ≤ Rewards.reporter_points u ∧ 0 ≤ Rewards.cleanup_points u ∧
    Rewards.level u = Rewards.total_points u `div` 100 + 1 ∧
    1 ≤ Rewards.level u ∧
    Rewards.title u = Rewards._get_title_for_level (Rewards.level u) ∧
    holds_at_threshold u.
Proof.
  cbv zeta. destruct (visits_in_order vs) as [Hnd Hall].
  split; [done |]. rewrite Forall_forall in Hall. intros u Hu.
  destruct (Hall u Hu) as (Hsum & Hb & [Hl Ht] & Hl1 & Hr & Hc).
  by split_and!.
Qed.

(** The team rewarded is the team of the task. *)
Lemma team_of_task_Some rid w t :
  team_of_task rid w = Some t ↔
  ∃ i c tid j,
    find_cleanup rid (cleanups_file w) = Some (i, c) ∧
    assigned_team c = Some tid ∧
    find_team tid (teams_file w) = Some (j, t).
Proof.
  unfold team_of_task, load_cleanups, load_teams. split.
  - destruct (find_cleanup _ _) as [[i c] |]; [| done].
    destruct (assigned_team c) as [tid |] eqn:Ha; [| done].
    destruct (find_team _ _) as [[j t'] |] eqn:Hj; [| done].
    simpl. intros [= ->]. exists i, c, tid, j. by split_and!.
  - intros (i & c & tid & j & -> & -> & ->). done.
Qed.

Lemma mark_completed_team clk rid w :
  (mark_completed clk rid w).1 = MarkedCompleted →
  is_Some (team_of_task rid w).
Proof.
  unfold mark_completed, team_of_task.
  destruct (find_cleanup _ _) as [[i c] |]; [| done].
  destruct (assigned_team c) as [tid |]; [| done].
  destruct (negb (truthy (Some tid))); [done |].
  destruct (find_team _ _) as [[j t] |]; [| done]. by eexists.
Qed.

Lemma verify_cleanup_team ext clk rid em notes uploads w :
  (verify_cleanup ext clk rid em notes uploads w).1
    = VerificationSuccessful →
  is_Some (team_of_task rid w).
Proof.
  unfold verify_cleanup, team_of_task.
  destruct (find_cleanup _ _) as [[i c] |]; [| done].
  destruct (assigned_team c) as [tid |]; [| done].
  destruct (negb (truthy (Some tid))); [done |].
  destruct (find_team _ _) as [[j t] |]; [| done]. by eexists.
Qed.

Lemma reward_team_first_cleanup vs v clks rid t m :
  rewards (serve v (visits vs new_site)) =
    reward_team clks rid (engine (visits vs new_site))
      (rewards (visits vs new_site)) →
  team_of_task rid (engine (visits vs new_site)) = Some t →
  m ∈ members t →
  ∃ u, u ∈ Rewards.rewards_file (rewards (serve v (visits vs new_site))) ∧
    Rewards.email u = m ∧ 25 ≤ Rewards.cleanup_points u ∧
    "first_cleanup" ∈ Rewards.badges u.
Proof.
  intros Heq Ht Hm.
  destruct (visits_in_order vs) as [_ Hbefore].
  destruct (visits_in_order (vs ++ [v])) as [_ Hafter].
  rewrite visits_app in Hafter. simpl in Hafter.
  set (s := visits vs new_site) in *.
  rewrite Heq in *. unfold reward_team in *. rewrite Ht in *.
  destruct (award_members_found clks (members t) (rewards s) m)
    as [[i u] Hu]; [by right |].
  destruct (award_members_at_least clks (members t) (rewards s)
              (λ _, {| isoformat := ""; strftime_compact := "" |}) m)
    as (_ & _ & Hc).
  specialize (Hc Hm).
  unfold Rewards.get_or_create_user, Rewards.load_rewards in Hc.
  rewrite Hu in Hc. simpl in Hc.
  assert (0 ≤ Rewards.cleanup_points
                match Rewards.find_user m (Rewards.rewards_file (rewards s))
                with
                | Some (_, user) => user
                | None =>
                    Rewards.UserRewards
                      (λ _, {| isoformat := ""; strftime_compact := "" |}) m
                end) as H0.
  { destruct (Rewards.find_user m (Rewards.rewards_file (rewards s)))
      as [[k z] |] eqn:E; [| done].
    apply list_find_Some in E as (Hk & _).
    rewrite Forall_forall in Hbefore.
    by destruct (Hbefore z (list_elem_of_lookup_2 _ _ _ Hk))
      as (_ & _ & _ & _ & _ & ?). }
  assert (25 ≤ Rewards.cleanup_points u) as H25.
  { destruct (Rewards.find_user m (Rewards.rewards_file (rewards s)))
      as [[k z] |]; simpl in *; lia. }
  apply list_find_Some in Hu as (Hi & Hemail & _).
  exists u. split_and!; [by eapply list_elem_of_lookup_2 | done | done |].
  rewrite Forall_forall in Hafter.
  destruct (Hafter u (list_elem_of_lookup_2 _ _ _ Hi))
    as (_ & Hb & _).
  by apply Hb.
Qed.

(** X25.  On a site started on empty files, when [mark_completed]
    reports completion of a task, or [verify_cleanup] a successful
    verification of it, that task has an assigned team on file, and
    afterwards every member of that team is in the ledger with at least 25
    cleanup points and the badge "first_cleanup". *)
Theorem completion_earns_first_cleanup vs clk clks rid :
  let s := visits vs new_site in
  ((mark_completed clk rid (engine s)).1 = MarkedCompleted →
   team_rewarded rid s (serve (MarkCompletedForm clk clks rid) s)) ∧
  (∀ ext em notes uploads,
     (verify_cleanup ext clk rid em notes uploads (engine s)).1
       = VerificationSuccessful →
     team_rewarded rid s
       (serve (VerifyCleanupForm ext clk clks rid em notes uploads) s)).
Proof.
  cbv zeta. split.
  - intros Hok.
    destruct (mark_completed_team _ _ _ Hok) as [t Ht].
    destruct (proj1 (team_of_task_Some _ _ _) Ht)
      as (i & c & tid & j & Hc & Ha & Hj).
    exists i, c, tid, j, t. split_and!; try done. intros m Hm.
    apply (reward_team_first_cleanup vs _ clks rid t m); [| done | done].
    cbn [serve].
    destruct (mark_completed _ _ _) as [answer w].
    simpl in Hok. by rewrite Hok.
  - intros ext em notes uploads Hok.
    destruct (verify_cleanup_team _ _ _ _ _ _ _ Hok) as [t Ht].
    destruct (proj1 (team_of_task_Some _ _ _) Ht)
      as (i & c & tid & j & Hc & Ha & Hj).
    exists i, c, tid, j, t. split_and!; try done. intros m Hm.
    apply (reward_team_first_cleanup vs _ clks rid t m); [| done | done].
    cbn [serve].
    destruct (verify_cleanup _ _ _ _ _ _ _) as [answer w].
    simpl in Hok. by rewrite Hok.
Qed.

Lemma completion_earns_first_cleanup_witness :
  team_rewarded sample_task_id (visits sample_visits new_site)
    (serve (MarkCompletedForm (sample_clock 20)
              (λ k, sample_clock (30 + 10 * k)) sample_task_id)
       (visits sample_visits new_site)).
Proof.
  apply (proj1 (completion_earns_first_cleanup sample_visits
                  (sample_clock 20) (λ k, sample_clock (30 + 10 * k))
                  sample_task_id)).
  vm_compute. reflexivity.
Defined.

(** * The accounts *)

Lemma create_user_unfold clk un e pw ut users :
  create_user_result clk un e pw ut users.
Proof.
  unfold create_user_result, Auth.create_user.
  destruct (list_find (λ a, Auth.email a = e) users) as [[i a] |] eqn:E.
  - left. split; [done |]. apply list_find_Some in E as (Hi & He & _).
    exists a. split; [by eapply list_elem_of_lookup_2 | done].
  - right. apply list_find_None in E. rewrite Forall_forall in E.
    split; [done |]. by eexists.
Qed.

(** X26.  [create_user] succeeds exactly when no account has the e-mail,
    and then adds one account at the end of the file, which keeps the
    password as it was given.  From then on [authenticate_user] with that
    e-mail succeeds with this password and with no other, returning the
    new user, and a second [create_user] with the e-mail is turned away
    and writes nothing. *)
Theorem create_user_then_authenticate clk un e pw ut users :
  let users' := (Auth.create_user clk un e pw ut users).2 in
  match (Auth.create_user clk un e pw ut users).1 with
  | None => (∃ a, a ∈ users ∧ Auth.email a = e) ∧ users' = users
  | Some u =>
      (∀ a, a ∈ users → Auth.email a ≠ e) ∧
      (∃ a, users' = users ++ [a] ∧ Auth.password_hash a = pw ∧
            Auth.from_dict a = u) ∧
      (∀ clk' pw',
         match (Auth.authenticate_user clk' e pw' users').1 with
         | Some u' =>
             pw' = pw ∧
             Auth.User.user_id u' = Auth.User.user_id u ∧
             Auth.User.username u' = un ∧ Auth.User.email u' = e ∧
             Auth.User.user_type u' = ut
         | None => pw' ≠ pw
         end) ∧
      (∀ clk' un' pw' ut',
         Auth.create_user clk' un' e pw' ut' users' = (None, users'))
  end.
Proof.
  cbv zeta.
  destruct (create_user_unfold clk un e pw ut users)
    as [[-> Hex] | [Hno (a & -> & Ha)]]; simpl; [done |].
  subst a. split_and!; [done | by eexists | |].
  - intros clk' pw'. unfold Auth.authenticate_user.
    rewrite list_find_snoc.
    destruct (list_find _ users) as [[i b] |] eqn:E.
    { apply list_find_Some in E as (Hi & [He _] & _).
      by apply list_elem_of_lookup_2, Hno in Hi. }
    simpl. destruct (decide _) as [(_ & Hpw & _) | Hn]; simpl.
    + by split_and!.
    + intros ->. by apply Hn.
  - intros clk' un' pw' ut'. unfold Auth.create_user.
    rewrite list_find_snoc.
    destruct (list_find _ users) as [[i b] |]; [done |].
    simpl. by rewrite decide_True.
Qed.

(** Every call leaves the accounts in place, changing at most their last
    login, and adds at most accounts at the end. *)
Lemma accounts_insert users i a v :
  users !! i = Some a →
  accounts_kept users (<[i := Auth.set_last_login v a]> users).
Proof.
  intros Hi k b Hk. destruct (decide (k = i)) as [-> | Hne].
  - exists (Auth.set_last_login v a).
    rewrite list_lookup_insert_eq by by eapply lookup_lt_Some.
    split; [done |]. assert (b = a) as -> by congruence. by repeat split.
  - exists b. rewrite list_lookup_insert_ne by done.
    split; [done |]. by repeat split.
Qed.

Lemma accounts_kept_refl users : accounts_kept users users.
Proof. intros k b Hk. exists b. split; [done |]. by repeat split. Qed.

Lemma accounts_kept_trans us1 us2 us3 :
  accounts_kept us1 us2 → accounts_kept us2 us3 → accounts_kept us1 us3.
Proof.
  intros H12 H23 k a Hk.
  destruct (H12 k a Hk) as (b & Hb & Hab).
  destruct (H23 k b Hb) as (c & Hc & Hbc).
  exists c. split; [done |].
  destruct Hab as (? & ? & ? & ? & ? & ? & ?).
  destruct Hbc as (? & ? & ? & ? & ? & ? & ?).
  repeat split; congruence.
Qed.

Lemma authenticate_user_kept clk e pw users :
  accounts_kept users (Auth.authenticate_user clk e pw users).2 ∧
  Auth.email <$> (Auth.authenticate_user clk e pw users).2 =
    Auth.email <$> users.
Proof.
  unfold Auth.authenticate_user.
  destruct (list_find _ users) as [[i a] |] eqn:E; simpl;
    [| split; [apply accounts_kept_refl | done]].
  apply list_find_Some in E as (Hi & _). split.
  - by apply accounts_insert.
  - by apply fmap_insert_same with (x := a).
Qed.

Lemma create_user_kept clk un e pw ut users :
  accounts_kept users (Auth.create_user clk un e pw ut users).2 ∧
  (NoDup (Auth.email <$> users) →
   NoDup (Auth.email <$> (Auth.create_user clk un e pw ut users).2)).
Proof.
  destruct (create_user_unfold clk un e pw ut users)
    as [[-> _] | [Hno (a & -> & Ha)]]; cbn [snd].
  - split; [apply accounts_kept_refl | done].
  - split.
    + intros k b Hk. exists b. split; [by apply lookup_app_l_Some |].
      by repeat split.
    + intros Hnd. rewrite fmap_app. apply NoDup_app.
      split_and!; [done | | apply NoDup_singleton].
      intros e0 [b [-> Hb]]%list_elem_of_fmap Hin.
      apply list_elem_of_singleton in Hin. subst a. simpl in Hin.
      by eapply Hno.
Qed.

Lemma handle_accounts q users :
  accounts_kept users (Auth.handle q users) ∧
  (NoDup (Auth.email <$> users) →
   NoDup (Auth.email <$> Auth.handle q users)).
Proof.
  destruct q as [clk e pw | clk un e pw ut | clk e | strip clk e pw
    | strip len clk un e pw confirm]; cbn [Auth.handle].
  - destruct (authenticate_user_kept clk e pw users) as [H1 H2].
    split; [done | by rewrite H2].
  - apply create_user_kept.
  - unfold Auth.update_user_last_login.
    destruct (list_find _ users) as [[i a] |] eqn:E;
      [| split; [apply accounts_kept_refl | done]].
    apply list_find_Some in E as (Hi & _). split.
    + by apply accounts_insert.
    + by rewrite (fmap_insert_same Auth.email users i a).
  - unfold Auth.login.
    destruct (_ || _); [split; [apply accounts_kept_refl | done] |].
    destruct (authenticate_user_kept clk (strip e) (strip pw) users)
      as [H1 H2].
    destruct (Auth.authenticate_user _ _ _ _) as [[u |] users'];
      simpl in *; (split; [done | by rewrite H2]).
  - unfold Auth.register.
    destruct (negb _); [split; [apply accounts_kept_refl | done] |].
    destruct (negb _); [split; [apply accounts_kept_refl | done] |].
    destruct (_ <? _)%nat; [split; [apply accounts_kept_refl | done] |].
    destruct (Auth.get_user_by_email _ _);
      [split; [apply accounts_kept_refl | done] |].
    pose proof (create_user_kept clk (strip un) (strip e) (strip pw) "user"
                  users) as H.
    by destruct (Auth.create_user _ _ _ _ _ _) as [[u |] users'].
Qed.

Lemma run_accounts qs users :
  accounts_kept users (Auth.run qs users) ∧
  (NoDup (Auth.email <$> users) →
   NoDup (Auth.email <$> Auth.run qs users)).
Proof.
  unfold Auth.run. induction qs as [| q qs [IH1 IH2]] using rev_ind.
  - split; [apply accounts_kept_refl | done].
  - rewrite foldl_app. cbn [foldl].
    destruct (handle_accounts q (foldl (λ users q, Auth.handle q users)
                                   users qs)) as [H1 H2].
    split; [by eapply accounts_kept_trans | auto].
Qed.

(** X27.  No call on the accounts removes, moves or alters an account
    other than by stamping its last login: after any calls every account
    is at its place with its id, name, e-mail, password, type and active
    flag; e-mails that were not repeated are not repeated afterwards; and
    a log-in that succeeded before succeeds afterwards, for the same
    account.  So a password, once set, is valid for good. *)
Theorem credentials_are_kept qs users :
  accounts_kept users (Auth.run qs users) ∧
  (NoDup (Auth.email <$> users) →
   NoDup (Auth.email <$> Auth.run qs users)) ∧
  ∀ clk clk' e pw u,
    (Auth.authenticate_user clk e pw users).1 = Some u →
    ∃ u', (Auth.authenticate_user clk' e pw (Auth.run qs users)).1
            = Some u' ∧
      Auth.User.user_id u' = Auth.User.user_id u ∧
      Auth.User.username u' = Auth.User.username u ∧
      Auth.User.email u' = Auth.User.email u ∧
      Auth.User.user_type u' = Auth.User.user_type u.
Proof.
  destruct (run_accounts qs users) as [Hkept Hnd].
  split_and!; [done | done |].
  intros clk clk' e pw u. unfold Auth.authenticate_user.
  destruct (list_find _ users) as [[i a] |] eqn:E; [| done].
  simpl. intros [= <-].
  apply list_find_Some in E as (Hi & Ha & Hleast).
  destruct (Hkept i a Hi) as (a' & Hi' & Hid & Hun & He & Hpw & Hut & _ & Hact).
  assert (list_find (λ a, Auth.email a = e ∧ Auth.password_hash a = pw ∧
                          Auth.is_active a = true) (Auth.run qs users)
          = Some (i, a')) as ->.
  { apply list_find_Some. split; [done | split].
    - destruct Ha as (? & ? & ?). split_and!; congruence.
    - intros k b' Hk Hlt.
      assert (is_Some (users !! k)) as [b Hb].
      { apply lookup_lt_is_Some. apply lookup_lt_Some in Hi. lia. }
      destruct (Hkept k b Hb) as (b'' & Hb'' & _ & _ & He' & Hpw' & _ & _
                                  & Hact').
      assert (b'' = b') as -> by congruence.
      rewrite He', Hpw', Hact'. by eapply Hleast. }
  simpl. eexists. split; [done |]. by split_and!.
Qed.

Lemma create_user_then_login strip clk un e pw ut users :
  truthy (Some (strip e)) = true → truthy (Some (strip pw)) = true →
  (∀ a, a ∈ users → Auth.email a ≠ strip e) →
  ∀ clk', ∃ u,
    (Auth.login strip clk' e pw
       (Auth.create_user clk un (strip e) (strip pw) ut users).2).1
      = Auth.WelcomeBack u ∧
    Auth.User.username u = un ∧ Auth.User.email u = strip e ∧
    Auth.User.user_type u = ut.
Proof.
  intros T2 T3 Hno clk'. unfold Auth.login. rewrite T2, T3. simpl.
  destruct (create_user_unfold clk un (strip e) (strip pw) ut users)
    as [[_ (a & Ha & He)] | [_ (a & -> & Ha)]]; [by apply Hno in Ha |].
  simpl. unfold Auth.authenticate_user. rewrite list_find_snoc.
  destruct (list_find _ users) as [[i b] |] eqn:E.
  { apply list_find_Some in E as (Hi & [He _] & _).
    by apply list_elem_of_lookup_2, Hno in Hi. }
  subst a. simpl. rewrite decide_True by done. simpl. by eexists.
Qed.

(** X28.  [register] writes the file only when it reports success, and
    then adds one account with the stripped name, e-mail and password and
    the type "user"; a [login] with the e-mail and the password as they
    were typed then welcomes that user.  When every account on file is
    active, [register] never reports "Registration failed". *)
Theorem register_then_login strip len clk un e pw confirm users :
  let answer := (Auth.register strip len clk un e pw confirm users).1 in
  let users' := (Auth.register strip len clk un e pw confirm users).2 in
  (answer ≠ Auth.RegistrationSuccessful → users' = users) ∧
  (answer = Auth.RegistrationSuccessful →
   (∃ a, users' = users ++ [a] ∧ Auth.username a = strip un ∧
         Auth.email a = strip e ∧ Auth.password_hash a = strip pw ∧
         Auth.user_type a = "user" ∧ Auth.is_active a = true) ∧
   ∀ clk', ∃ u, (Auth.login strip clk' e pw users').1 = Auth.WelcomeBack u ∧
     Auth.User.username u = strip un ∧ Auth.User.email u = strip e ∧
     Auth.User.user_type u = "user") ∧
  (Forall (λ a, Auth.is_active a = true) users →
   answer ≠ Auth.RegistrationFailed).
Proof.
  cbv zeta. unfold Auth.register.
  destruct (truthy (Some (strip un))) eqn:T1,
    (truthy (Some (strip e))) eqn:T2,
    (truthy (Some (strip pw))) eqn:T3,
    (truthy (Some (strip confirm))) eqn:T4;
    cbn [negb andb fst snd]; try by split_and!.
  destruct (String.eqb (strip pw) (strip confirm));
    cbn [negb fst snd]; [| by split_and!].
  destruct (len (strip pw) <? 6)%nat; [by split_and! |].
  destruct (Auth.get_user_by_email (strip e) users) as [u0 |] eqn:G;
    [by split_and! |].
  pose proof (create_user_then_login strip clk (strip un) e pw "user"
                users T2 T3) as Hlogin.
  destruct (create_user_unfold clk (strip un) (strip e) (strip pw) "user"
              users) as [[Hc [a [Ha He]]] | [Hno (a & Hc & Ha)]].
  - rewrite Hc. simpl. split_and!; [done | done |].
    intros Hact _. rewrite Forall_forall in Hact.
    unfold Auth.get_user_by_email in G.
    destruct (list_find _ users) as [[i b] |] eqn:E; [done |].
    apply list_find_None in E. rewrite Forall_forall in E.
    apply (E a Ha). split; [done | by apply Hact].
  - rewrite Hc in *. simpl in *. subst a. split_and!; [done | | done].
    intros _. split; [by eexists |]. intros clk'. by apply Hlogin.
Qed.

Lemma credentials_are_kept_witness :
  ∃ u',
    (Auth.authenticate_user Auth.sample_clock "admin@example.com" "admin123"
       (Auth.run Auth.sample_run
          (Auth._create_default_users Auth.sample_clock))).1 = Some u' ∧
    Auth.User.user_id u' = "user_20250823_000000_0001" ∧
    Auth.User.user_type u' = "admin".
Proof.
  destruct (credentials_are_kept Auth.sample_run
              (Auth._create_default_users Auth.sample_clock))
    as (_ & _ & H).
  edestruct (H Auth.sample_clock Auth.sample_clock "admin@example.com"
               "admin123") as (u' & Hu' & Hid & _ & _ & Htype);
    [reflexivity |].
  exists u'. split_and!; [exact Hu' | exact Hid | exact Htype].
Defined.

Lemma register_then_login_witness :
  ∃ u,
    (Auth.login (λ s, s) Auth.sample_clock "kim@example.org" "secret1"
       (Auth.register (λ s, s) String.length Auth.sample_clock "kim"
          "kim@example.org" "secret1" "secret1"
          (Auth._create_default_users Auth.sample_clock)).2).1
      = Auth.WelcomeBack u ∧
    Auth.User.username u = "kim".
Proof.
  destruct (register_then_login (λ s, s) String.length Auth.sample_clock
              "kim" "kim@example.org" "secret1" "secret1"
              (Auth._create_default_users Auth.sample_clock))
    as (_ & H & _).
  destruct H as [_ H]; [reflexivity |].
  destruct (H Auth.sample_clock) as (u & Hu & Hname & _).
  exists u. split; [exact Hu | exact Hname].
Defined.
